(** * knock-ssh: the libevent proxy ([proxy-libevent.c])

    A shallow embedding of the connection life cycle of the port-knocking
    proxy: the initial handshake ([initial_accept], [initial_read],
    [initial_error]), the back connection ([create_pipe],
    [back_connection]), the active pipe ([pipe_read], [pipe_error]) and
    the process around them ([start], [cleanup_buffers]).

    The callbacks run on top of libevent.  The part of libevent they use
    (evbuffers, bufferevents) is modelled in the first half of the file,
    after the library's documented behaviour; the heap of bufferevents and
    of [struct otherside] records is explicit, and every access to a freed
    or null object is a [Fault], so that memory safety can be stated. *)

From Stdlib Require Import ZArith List Lia.
From Stdlib Require Import Strings.String Strings.Byte.
From stdpp Require Import base option list gmap.

Local Open Scope Z_scope.

(* ===================================================================== *)
(** ** Bytes and memory comparison *)
(* ===================================================================== *)

Abbreviation byte := Byte.byte.

#[global] Instance byte_eq_decision : EqDecision byte := Byte.byte_eq_dec.

Definition byte_val (x : byte) : Z := Z.of_N (Byte.to_N x).

(** Lexicographic comparison of two byte strings of the same length, as an
    [int]: zero when they agree, otherwise the difference of the first pair
    of bytes that differ (read as [unsigned char]). *)
Fixpoint bytes_cmp (a b : list byte) : Z :=
  match a, b with
  | x :: a', y :: b' =>
      if decide (x = y) then bytes_cmp a' b' else byte_val x - byte_val y
  | [], [] => 0
  | [], _ :: _ => -1
  | _ :: _, [] => 1
  end.

(** [memcmp(s1, s2, n)]: both objects must be at least [n] bytes long;
    reading past the end of either is out of bounds ([None]). *)
Definition memcmp (s1 s2 : list byte) (n : Z) : option Z :=
  if (n <=? Z.of_nat (length s1)) && (n <=? Z.of_nat (length s2))
  then Some (bytes_cmp (take (Z.to_nat n) s1) (take (Z.to_nat n) s2))
  else None.

(* ===================================================================== *)
(** ** libevent: evbuffers *)
(* ===================================================================== *)

(** An evbuffer is a queue of chains; each chain is one contiguous extent
    of memory.  Two buffers with the same bytes can be chained
    differently, and [evbuffer_peek] exposes the difference. *)
Definition chain := list byte.
Definition evbuffer := list chain.

Definition chain_off (c : chain) : Z := Z.of_nat (length c).

(** The bytes of a buffer, in order. *)
Definition evbuffer_bytes (buf : evbuffer) : list byte := concat buf.

Definition evbuffer_get_length (buf : evbuffer) : Z :=
  Z.of_nat (length (evbuffer_bytes buf)).

Record evbuffer_iovec := { iov_base : list byte; iov_len : Z }.

(** [size_t] and [ev_ssize_t] of a 64-bit platform. *)
Definition SIZE_MAX : Z := 2 ^ 64 - 1.

Definition to_ssize (n : Z) : Z :=
  let m := n mod 2 ^ 64 in if m <? 2 ^ 63 then m else m - 2 ^ 64.

(** The loop of [evbuffer_peek] over the chains, with [start_at = NULL]:
    it stops once [len] bytes are covered ([len < 0] asks for everything),
    fills at most [n_vec] extents and keeps counting the extents that
    would be needed. *)
Fixpoint peek_chains (chains : list chain) (len n_vec idx len_so_far : Z)
    (vec : list evbuffer_iovec) : Z * list evbuffer_iovec :=
  match chains with
  | [] => (idx, vec)
  | c :: rest =>
      if (0 <=? len) && (len <=? len_so_far) then (idx, vec)
      else if idx <? n_vec then
        peek_chains rest len n_vec (idx + 1) (len_so_far + chain_off c)
          (vec ++ [{| iov_base := c; iov_len := chain_off c |}])
      else if len <? 0 then (idx, vec)
      else peek_chains rest len n_vec (idx + 1) (len_so_far + chain_off c) vec
  end.

(** [evbuffer_peek(buffer, len, NULL, vec, n_vec)]: the number of extents
    needed for the first [len] bytes, and the extents filled in. *)
Definition evbuffer_peek (buf : evbuffer) (len n_vec : Z)
    : Z * list evbuffer_iovec :=
  let len := if (n_vec =? 0) && (len <? 0) then evbuffer_get_length buf else len in
  peek_chains buf len n_vec 0 0 [].

(** The loop of [evbuffer_drain] when fewer bytes than buffered are asked
    for: whole chains are released while the rest still covers them, then
    the first remaining chain is advanced. *)
Fixpoint drain_chains (chains : list chain) (remaining : nat) : list chain :=
  match chains with
  | [] => []
  | c :: rest =>
      if (length c <=? remaining)%nat
      then drain_chains rest (remaining - length c)%nat
      else drop remaining c :: rest
  end.

(** [evbuffer_drain(buf, len)], [len] a [size_t]. *)
Definition evbuffer_drain (buf : evbuffer) (len : Z) : evbuffer :=
  if evbuffer_get_length buf <=? len then []
  else drain_chains buf (Z.to_nat len).

(** [evbuffer_add_buffer(dst, src)]: all chains of [src] move to the end
    of [dst]; no byte is copied or reordered.  The result is the new
    [dst]; [src] is left empty. *)
Definition evbuffer_add_buffer (dst src : evbuffer) : evbuffer := dst ++ src.

(* ===================================================================== *)
(** ** The process state: heaps, sockets, logs *)
(* ===================================================================== *)

Record timeval := { tv_sec : Z; tv_usec : Z }.

(** The callbacks of this program that are installed on a bufferevent. *)
Inductive data_cb := cb_initial_read | cb_pipe_read.
Inductive event_cb := cb_initial_error | cb_back_connection | cb_pipe_error.

(** The [void *] argument given to the callbacks: null, the event base,
    a bufferevent or a [struct otherside]. *)
Inductive cb_arg :=
| arg_NULL
| arg_base
| arg_bev (b : nat)
| arg_ctx (c : nat).

Record bufferevent := {
  bev_fd : Z;
  bev_options : Z;
  bev_input : evbuffer;
  bev_output : evbuffer;
  bev_enabled : Z;
  bev_wm_read : Z * Z;
  bev_wm_write : Z * Z;
  bev_timeout_read : option timeval;
  bev_timeout_write : option timeval;
  bev_readcb : option data_cb;
  bev_writecb : option data_cb;
  bev_eventcb : option event_cb;
  bev_cbarg : cb_arg;
  (** history: the bytes libevent has written from [bev_output] to the socket *)
  bev_sent : list byte
}.

(** [struct otherside]: [os_bev] is the peer's bufferevent, [os_pair] the
    peer's record; [None] is [NULL]. *)
Record otherside := {
  os_bev : option nat;
  os_pair : option nat;
  other_timedout : bool
}.

Record sockaddr_in := { sin_family : Z; sin_addr : Z; sin_port : Z }.

(** Heap cells are never reused: a freed object leaves [None] behind, so a
    stale pointer is told apart from a live one. *)
Record world := {
  bevs : gmap nat (option bufferevent);
  ctxs : gmap nat (option otherside);
  (** outbound connections started: bufferevent and address *)
  connects : list (nat * sockaddr_in);
  (** descriptors closed by the process *)
  closed_fds : list Z;
  (** socket options set: descriptor and option *)
  sockopts : list (Z * string);
  out_log : list string;
  err_log : list string;
  (** the environment: what connecting to a loopback port comes to: the
      descriptor of the socket whose connection is in progress; [-1] when
      [connect] fails at once; less when no socket can be made *)
  net_connect : Z -> Z
}.

Definition bev_with_input (v : evbuffer) (be : bufferevent) : bufferevent :=
  {| bev_fd := bev_fd be; bev_options := bev_options be; bev_input := v;
     bev_output := bev_output be; bev_enabled := bev_enabled be;
     bev_wm_read := bev_wm_read be; bev_wm_write := bev_wm_write be;
     bev_timeout_read := bev_timeout_read be;
     bev_timeout_write := bev_timeout_write be;
     bev_readcb := bev_readcb be; bev_writecb := bev_writecb be;
     bev_eventcb := bev_eventcb be; bev_cbarg := bev_cbarg be;
     bev_sent := bev_sent be |}.

Definition bev_with_output (v : evbuffer) (be : bufferevent) : bufferevent :=
  {| bev_fd := bev_fd be; bev_options := bev_options be;
     bev_input := bev_input be;
     bev_output := v; bev_enabled := bev_enabled be;
     bev_wm_read := bev_wm_read be; bev_wm_write := bev_wm_write be;
     bev_timeout_read := bev_timeout_read be;
     bev_timeout_write := bev_timeout_write be;
     bev_readcb := bev_readcb be; bev_writecb := bev_writecb be;
     bev_eventcb := bev_eventcb be; bev_cbarg := bev_cbarg be;
     bev_sent := bev_sent be |}.

Definition bev_with_sent (v : list byte) (be : bufferevent) : bufferevent :=
  {| bev_fd := bev_fd be; bev_options := bev_options be;
     bev_input := bev_input be;
     bev_output := bev_output be; bev_enabled := bev_enabled be;
     bev_wm_read := bev_wm_read be; bev_wm_write := bev_wm_write be;
     bev_timeout_read := bev_timeout_read be;
     bev_timeout_write := bev_timeout_write be;
     bev_readcb := bev_readcb be; bev_writecb := bev_writecb be;
     bev_eventcb := bev_eventcb be; bev_cbarg := bev_cbarg be;
     bev_sent := v |}.

Definition bev_with_fd (v : Z) (be : bufferevent) : bufferevent :=
  {| bev_fd := v; bev_options := bev_options be;
     bev_input := bev_input be;
     bev_output := bev_output be; bev_enabled := bev_enabled be;
     bev_wm_read := bev_wm_read be; bev_wm_write := bev_wm_write be;
     bev_timeout_read := bev_timeout_read be;
     bev_timeout_write := bev_timeout_write be;
     bev_readcb := bev_readcb be; bev_writecb := bev_writecb be;
     bev_eventcb := bev_eventcb be; bev_cbarg := bev_cbarg be;
     bev_sent := bev_sent be |}.

Definition bev_with_enabled (v : Z) (be : bufferevent) : bufferevent :=
  {| bev_fd := bev_fd be; bev_options := bev_options be;
     bev_input := bev_input be;
     bev_output := bev_output be; bev_enabled := v;
     bev_wm_read := bev_wm_read be; bev_wm_write := bev_wm_write be;
     bev_timeout_read := bev_timeout_read be;
     bev_timeout_write := bev_timeout_write be;
     bev_readcb := bev_readcb be; bev_writecb := bev_writecb be;
     bev_eventcb := bev_eventcb be; bev_cbarg := bev_cbarg be;
     bev_sent := bev_sent be |}.

Definition bev_with_wm (r w : Z * Z) (be : bufferevent) : bufferevent :=
  {| bev_fd := bev_fd be; bev_options := bev_options be;
     bev_input := bev_input be;
     bev_output := bev_output be; bev_enabled := bev_enabled be;
     bev_wm_read := r; bev_wm_write := w;
     bev_timeout_read := bev_timeout_read be;
     bev_timeout_write := bev_timeout_write be;
     bev_readcb := bev_readcb be; bev_writecb := bev_writecb be;
     bev_eventcb := bev_eventcb be; bev_cbarg := bev_cbarg be;
     bev_sent := bev_sent be |}.

Definition bev_with_timeouts (r w : option timeval) (be : bufferevent)
    : bufferevent :=
  {| bev_fd := bev_fd be; bev_options := bev_options be;
     bev_input := bev_input be;
     bev_output := bev_output be; bev_enabled := bev_enabled be;
     bev_wm_read := bev_wm_read be; bev_wm_write := bev_wm_write be;
     bev_timeout_read := r;
     bev_timeout_write := w;
     bev_readcb := bev_readcb be; bev_writecb := bev_writecb be;
     bev_eventcb := bev_eventcb be; bev_cbarg := bev_cbarg be;
     bev_sent := bev_sent be |}.

Definition bev_with_cb (r w : option data_cb) (e : option event_cb)
    (arg : cb_arg) (be : bufferevent) : bufferevent :=
  {| bev_fd := bev_fd be; bev_options := bev_options be;
     bev_input := bev_input be;
     bev_output := bev_output be; bev_enabled := bev_enabled be;
     bev_wm_read := bev_wm_read be; bev_wm_write := bev_wm_write be;
     bev_timeout_read := bev_timeout_read be;
     bev_timeout_write := bev_timeout_write be;
     bev_readcb := r; bev_writecb := w;
     bev_eventcb := e; bev_cbarg := arg;
     bev_sent := bev_sent be |}.

Definition world_with_bevs (v : gmap nat (option bufferevent)) (w : world)
    : world :=
  {| bevs := v; ctxs := ctxs w; connects := connects w;
     closed_fds := closed_fds w; sockopts := sockopts w;
     out_log := out_log w; err_log := err_log w;
     net_connect := net_connect w |}.

Definition world_with_ctxs (v : gmap nat (option otherside)) (w : world)
    : world :=
  {| bevs := bevs w; ctxs := v; connects := connects w;
     closed_fds := closed_fds w; sockopts := sockopts w;
     out_log := out_log w; err_log := err_log w;
     net_connect := net_connect w |}.

Definition world_with_connects (v : list (nat * sockaddr_in)) (w : world)
    : world :=
  {| bevs := bevs w; ctxs := ctxs w; connects := v;
     closed_fds := closed_fds w; sockopts := sockopts w;
     out_log := out_log w; err_log := err_log w;
     net_connect := net_connect w |}.

Definition world_with_closed (v : list Z) (w : world) : world :=
  {| bevs := bevs w; ctxs := ctxs w; connects := connects w;
     closed_fds := v; sockopts := sockopts w;
     out_log := out_log w; err_log := err_log w;
     net_connect := net_connect w |}.

Definition world_with_sockopts (v : list (Z * string)) (w : world) : world :=
  {| bevs := bevs w; ctxs := ctxs w; connects := connects w;
     closed_fds := closed_fds w; sockopts := v;
     out_log := out_log w; err_log := err_log w;
     net_connect := net_connect w |}.

Definition world_with_out (v : list string) (w : world) : world :=
  {| bevs := bevs w; ctxs := ctxs w; connects := connects w;
     closed_fds := closed_fds w; sockopts := sockopts w;
     out_log := v; err_log := err_log w;
     net_connect := net_connect w |}.

Definition world_with_err (v : list string) (w : world) : world :=
  {| bevs := bevs w; ctxs := ctxs w; connects := connects w;
     closed_fds := closed_fds w; sockopts := sockopts w;
     out_log := out_log w; err_log := v;
     net_connect := net_connect w |}.

(* ===================================================================== *)
(** ** Computations that can fault *)
(* ===================================================================== *)

Inductive fault :=
| NullDeref        (* a null pointer is dereferenced *)
| UseAfterFree     (* a freed object is read, written or freed again *)
| WildPointer      (* a pointer to nothing that was ever allocated *)
| BadCast          (* a [void *] used at a type it does not point to *)
| Uninitialised    (* an array slot is read before it is written *)
| OutOfBounds.     (* a read past the end of an object *)

Inductive result (A : Type) :=
| Ok (a : A) (w : world)
| Fault (f : fault).
Arguments Ok {A} a w.
Arguments Fault {A} f.

Definition M (A : Type) : Type := world -> result A.

Definition ret {A} (a : A) : M A := fun w => Ok a w.

Definition bind {A B} (m : M A) (k : A -> M B) : M B :=
  fun w => match m w with
           | Ok a w' => k a w'
           | Fault f => Fault f
           end.

Definition raise {A} (f : fault) : M A := fun _ => Fault f.

Notation "x <- m ;; k" := (bind m (fun x => k))
  (at level 100, m at next level, right associativity).
Notation "m ;; k" := (bind m (fun _ => k))
  (at level 100, right associativity).

Definition modify (f : world -> world) : M unit := fun w => Ok tt (f w).

(** The world a computation ends in, when it does not fault. *)
Definition exec {A} (m : M A) (w : world) : option world :=
  match m w with Ok _ w' => Some w' | Fault _ => None end.

(* ===================================================================== *)
(** ** libevent: bufferevents *)
(* ===================================================================== *)

Definition EV_TIMEOUT : Z := 0x01.
Definition EV_READ : Z := 0x02.
Definition EV_WRITE : Z := 0x04.

Definition BEV_EVENT_READING : Z := 0x01.
Definition BEV_EVENT_WRITING : Z := 0x02.
Definition BEV_EVENT_EOF : Z := 0x10.
Definition BEV_EVENT_ERROR : Z := 0x20.
Definition BEV_EVENT_TIMEOUT : Z := 0x40.
Definition BEV_EVENT_CONNECTED : Z := 0x80.

Definition BEV_OPT_CLOSE_ON_FREE : Z := 0x01.

Definition AF_INET : Z := 2.

(** A C condition [if (x & FLAG)]. *)
Definition has_flag (x flag : Z) : bool := negb (Z.land x flag =? 0).

Definition get_bev (b : nat) : M bufferevent :=
  fun w => match bevs w !! b with
           | Some (Some be) => Ok be w
           | Some None => Fault UseAfterFree
           | None => Fault WildPointer
           end.

Definition update_bev (b : nat) (f : bufferevent -> bufferevent) : M unit :=
  be <- get_bev b ;;
  modify (fun w => world_with_bevs (<[b := Some (f be)]> (bevs w)) w).

(** [bufferevent_socket_new(base, fd, options)]: a fresh bufferevent with
    empty buffers, writing enabled, no watermark, timeout or callback. *)
Definition bufferevent_socket_new (base : cb_arg) (fd options : Z) : M nat :=
  fun w =>
    let b := fresh (dom (bevs w)) in
    let be := {| bev_fd := fd; bev_options := options;
                 bev_input := []; bev_output := [];
                 bev_enabled := EV_WRITE;
                 bev_wm_read := (0, 0); bev_wm_write := (0, 0);
                 bev_timeout_read := None; bev_timeout_write := None;
                 bev_readcb := None; bev_writecb := None;
                 bev_eventcb := None; bev_cbarg := arg_NULL;
                 bev_sent := [] |} in
    Ok b (world_with_bevs (<[b := Some be]> (bevs w)) w).

Definition bufferevent_setcb (b : nat) (readcb writecb : option data_cb)
    (eventcb : option event_cb) (cbarg : cb_arg) : M unit :=
  update_bev b (bev_with_cb readcb writecb eventcb cbarg).

Definition bufferevent_setwatermark (b : nat) (events lowmark highmark : Z)
    : M unit :=
  update_bev b (fun be =>
    bev_with_wm
      (if has_flag events EV_READ then (lowmark, highmark) else bev_wm_read be)
      (if has_flag events EV_WRITE then (lowmark, highmark) else bev_wm_write be)
      be).

Definition bufferevent_enable (b : nat) (events : Z) : M unit :=
  update_bev b (fun be => bev_with_enabled (Z.lor (bev_enabled be) events) be).

Definition bufferevent_disable (b : nat) (events : Z) : M unit :=
  update_bev b (fun be => bev_with_enabled (Z.ldiff (bev_enabled be) events) be).

(** [bufferevent_set_timeouts(bev, tv_read, tv_write)]; [None] is [NULL]
    and removes the timeout. *)
Definition bufferevent_set_timeouts (b : nat) (tv_read tv_write : option timeval)
    : M unit :=
  update_bev b (bev_with_timeouts tv_read tv_write).

Definition bufferevent_getfd (b : nat) : M Z :=
  be <- get_bev b ;; ret (bev_fd be).

(** The descriptors that freeing a bufferevent closes: its socket, when
    it has one and was created with [BEV_OPT_CLOSE_ON_FREE]. *)
Definition closes (be : bufferevent) : list Z :=
  if has_flag (bev_options be) BEV_OPT_CLOSE_ON_FREE && (0 <=? bev_fd be)
  then [bev_fd be] else [].

(** [bufferevent_free(bev)]: the bufferevent is gone and no callback of it
    runs afterwards. *)
Definition bufferevent_free (b : nat) : M unit :=
  be <- get_bev b ;;
  modify (fun w =>
    world_with_closed (closed_fds w ++ closes be)
      (world_with_bevs (<[b := None]> (bevs w)) w)).

(** A [struct evbuffer *] obtained with [bufferevent_get_input] or
    [bufferevent_get_output]. *)
Inductive evbuffer_ref :=
| InputOf (b : nat)
| OutputOf (b : nat).

Definition bufferevent_get_input (b : nat) : M evbuffer_ref :=
  get_bev b ;; ret (InputOf b).

Definition bufferevent_get_output (b : nat) : M evbuffer_ref :=
  get_bev b ;; ret (OutputOf b).

Definition load_evbuffer (r : evbuffer_ref) : M evbuffer :=
  match r with
  | InputOf b => be <- get_bev b ;; ret (bev_input be)
  | OutputOf b => be <- get_bev b ;; ret (bev_output be)
  end.

Definition store_evbuffer (r : evbuffer_ref) (v : evbuffer) : M unit :=
  match r with
  | InputOf b => update_bev b (bev_with_input v)
  | OutputOf b => update_bev b (bev_with_output v)
  end.

(** [bufferevent_read_buffer(bev, buf)]: everything in the input buffer of
    [bev] moves to the end of [buf]. *)
Definition bufferevent_read_buffer (b : nat) (buf : evbuffer_ref) : M unit :=
  be <- get_bev b ;;
  dst <- load_evbuffer buf ;;
  store_evbuffer buf (evbuffer_add_buffer dst (bev_input be)) ;;
  update_bev b (bev_with_input []).

(** [htons], [htonl]: the value a 16-bit (32-bit) field in network order
    stands for. *)
Definition htons (x : Z) : Z := x mod 2 ^ 16.
Definition htonl (x : Z) : Z := x mod 2 ^ 32.

(** [close(fd)]. *)
Definition close (fd : Z) : M unit :=
  modify (fun w => world_with_closed (closed_fds w ++ [fd]) w).

(** [setsockopt]: the option is recorded; the call succeeds (returns 0). *)
Definition setsockopt (fd : Z) (opt : string) : M Z :=
  modify (fun w => world_with_sockopts (sockopts w ++ [(fd, opt)]) w) ;;
  ret 0.

Definition evutil_make_socket_nonblocking (fd : Z) : M unit :=
  setsockopt fd "O_NONBLOCK" ;; ret tt.

Definition printf (s : string) : M unit :=
  modify (fun w => world_with_out (out_log w ++ [s]) w).

Definition perror (s : string) : M unit :=
  modify (fun w => world_with_err (err_log w ++ [s]) w).

(* ===================================================================== *)
(** ** The heap of [struct otherside] *)
(* ===================================================================== *)

(** [malloc(sizeof(struct otherside))] followed by the three stores. *)
Definition malloc_otherside : M nat :=
  fun w =>
    let c := fresh (dom (ctxs w)) in
    Ok c (world_with_ctxs
            (<[c := Some {| os_bev := None; os_pair := None;
                            other_timedout := false |}]> (ctxs w)) w).

(** Reading through a [struct otherside *]. *)
Definition load_otherside (p : option nat) : M otherside :=
  match p with
  | None => raise NullDeref
  | Some c =>
      fun w => match ctxs w !! c with
               | Some (Some o) => Ok o w
               | Some None => Fault UseAfterFree
               | None => Fault WildPointer
               end
  end.

Definition store_otherside (p : option nat) (f : otherside -> otherside)
    : M unit :=
  o <- load_otherside p ;;
  match p with
  | None => raise NullDeref
  | Some c => modify (fun w => world_with_ctxs (<[c := Some (f o)]> (ctxs w)) w)
  end.

Definition set_os_bev (v : option nat) (o : otherside) : otherside :=
  {| os_bev := v; os_pair := os_pair o; other_timedout := other_timedout o |}.
Definition set_os_pair (v : option nat) (o : otherside) : otherside :=
  {| os_bev := os_bev o; os_pair := v; other_timedout := other_timedout o |}.
Definition set_other_timedout (v : bool) (o : otherside) : otherside :=
  {| os_bev := os_bev o; os_pair := os_pair o; other_timedout := v |}.

(** [free(con)]; [free(NULL)] does nothing. *)
Definition free_otherside (p : option nat) : M unit :=
  match p with
  | None => ret tt
  | Some c =>
      load_otherside p ;;
      modify (fun w => world_with_ctxs (<[c := None]> (ctxs w)) w)
  end.

(** The cast [struct otherside *con = ctx]. *)
Definition as_otherside (ctx : cb_arg) : M (option nat) :=
  match ctx with
  | arg_NULL => ret None
  | arg_ctx c => ret (Some c)
  | _ => raise BadCast
  end.

(** The cast [struct bufferevent *other_side = ctx]. *)
Definition as_bufferevent (ctx : cb_arg) : M (option nat) :=
  match ctx with
  | arg_NULL => ret None
  | arg_bev b => ret (Some b)
  | _ => raise BadCast
  end.

(** Passing a possibly null [struct bufferevent *] to libevent. *)
Definition deref (p : option nat) : M nat :=
  match p with
  | Some b => ret b
  | None => raise NullDeref
  end.

(* ===================================================================== *)
(** ** Configuration *)
(* ===================================================================== *)

(** Modelled from the spec: [struct config] is declared in
    [knock-common.h], which is not part of the sources at hand.  The fields
    are those the spec lists as the configuration surface: the three ports,
    the knock signature with its explicit length, the two timeouts and the
    verbosity flag. *)
Record config := {
  external_port : Z;
  normal_port : Z;
  hidden_port : Z;
  knock_value : list byte;
  knock_size : Z;
  knock_timeout : timeval;
  default_timeout : timeval;
  verbose : bool
}.

(** [#define MAX_RECV_BUF_DEFAULT 2 << 16] *)
Definition MAX_RECV_BUF_DEFAULT : Z := Z.shiftl 2 16.

(* ===================================================================== *)
(** ** The proxy *)
(* ===================================================================== *)

Section Proxy.

(** [static struct config* config], set once by [start]. *)
Variable cfg : config.

(** The platform's [FD_SETSIZE]. *)
Variable FD_SETSIZE : Z.

Definition set_tcp_no_delay (fd : Z) : M unit :=
  rc <- setsockopt fd "TCP_NODELAY" ;;
  if negb (rc =? 0) then perror "setsockopt/no_delay" else ret tt.

(** *** Active pipe *)

Definition pipe_read (bev : nat) (ctx : cb_arg) : M unit :=
  con <- as_otherside ctx ;;
  c <- load_otherside con ;;
  match os_bev c with
  | Some peer =>
      store_otherside (os_pair c) (set_other_timedout false) ;;
      out <- bufferevent_get_output peer ;;
      bufferevent_read_buffer bev out
  | None =>
      input <- bufferevent_get_input bev ;;
      buf <- load_evbuffer input ;;
      store_evbuffer input (evbuffer_drain buf SIZE_MAX)
  end.

(** The first half of [pipe_error]: [true] stands for the early [return]. *)
Definition pipe_error_timeout (bev : nat) (error : Z) (con : option nat)
    : M bool :=
  if has_flag error BEV_EVENT_TIMEOUT then
    bufferevent_enable bev EV_READ ;;
    c <- load_otherside con ;;
    match os_bev c with
    | Some _ =>
        store_otherside (os_pair c) (set_other_timedout true) ;;
        c' <- load_otherside con ;;
        ret (negb (other_timedout c'))
    | None => ret false
    end
  else ret false.

(** The second half of [pipe_error]: this direction is closed. *)
Definition pipe_error_close (bev : nat) (con : option nat) : M unit :=
  bufferevent_free bev ;;
  c <- load_otherside con ;;
  match os_bev c with
  | Some peer =>
      let ones := {| tv_sec := 1; tv_usec := 0 |} in
      bufferevent_set_timeouts peer (Some ones) (Some ones) ;;
      bufferevent_enable peer EV_READ ;;
      store_otherside (os_pair c) (set_os_pair None) ;;
      c' <- load_otherside con ;;
      store_otherside (os_pair c') (set_os_bev None)
  | None => ret tt
  end ;;
  free_otherside con.

Definition pipe_error (bev : nat) (error : Z) (ctx : cb_arg) : M unit :=
  con <- as_otherside ctx ;;
  returned <- pipe_error_timeout bev error con ;;
  if returned then ret tt else pipe_error_close bev con.

(** *** Back connection handshake *)

(** The result stands for the array [result[0]], [result[1]]. *)
Definition create_contexts (forward backward : option nat) : M (nat * nat) :=
  r0 <- malloc_otherside ;;
  r1 <- malloc_otherside ;;
  store_otherside (Some r0) (set_os_bev backward) ;;
  store_otherside (Some r0) (set_os_pair (Some r1)) ;;
  store_otherside (Some r0) (set_other_timedout false) ;;
  store_otherside (Some r1) (set_os_bev forward) ;;
  store_otherside (Some r1) (set_os_pair (Some r0)) ;;
  store_otherside (Some r1) (set_other_timedout false) ;;
  ret (r0, r1).

Definition back_connection (bev : nat) (events : Z) (ctx : cb_arg) : M unit :=
  other_side <- as_bufferevent ctx ;;
  if has_flag events BEV_EVENT_CONNECTED then
    ctxs <- create_contexts other_side (Some bev) ;;
    fd <- bufferevent_getfd bev ;;
    set_tcp_no_delay fd ;;
    o <- deref other_side ;;
    bufferevent_enable o EV_READ ;;
    out <- bufferevent_get_output bev ;;
    bufferevent_read_buffer o out ;;
    bufferevent_setcb o (Some cb_pipe_read) None (Some cb_pipe_error)
      (arg_ctx (fst ctxs)) ;;
    bufferevent_setcb bev (Some cb_pipe_read) None (Some cb_pipe_error)
      (arg_ctx (snd ctxs)) ;;
    bufferevent_setwatermark bev EV_READ 0 MAX_RECV_BUF_DEFAULT ;;
    bufferevent_enable bev EV_READ ;;
    bufferevent_set_timeouts bev (Some (default_timeout cfg)) None ;;
    bufferevent_set_timeouts o (Some (default_timeout cfg)) None
  else if has_flag events BEV_EVENT_ERROR then
    bufferevent_free bev ;;
    match other_side with
    | Some o => bufferevent_free o
    | None => ret tt
    end
  else ret tt.

Definition ptr_arg (p : option nat) : cb_arg :=
  match p with
  | Some b => arg_bev b
  | None => arg_NULL
  end.

(** How libevent runs the event callback of [b] with [BEV_EVENT_ERROR]
    alone.  [initial_error] stands below [create_pipe]; for an error that
    is no timeout it comes to its last two statements. *)
Definition run_eventcb_error (b : nat) : M unit :=
  be <- get_bev b ;;
  match bev_eventcb be with
  | Some cb_back_connection => back_connection b BEV_EVENT_ERROR (bev_cbarg be)
  | Some cb_pipe_error => pipe_error b BEV_EVENT_ERROR (bev_cbarg be)
  | Some cb_initial_error =>
      bufferevent_setcb b None None None arg_NULL ;;
      bufferevent_free b
  | None => ret tt
  end.

(** [bufferevent_socket_connect(bev, sa, socklen)] on a bufferevent that
    has no socket yet.  The attempt is recorded.  When no socket can be
    made the call returns [-1].  When [connect] fails at once, libevent
    runs the event callback of [bev] with [BEV_EVENT_ERROR] before it
    closes the socket it made and returns [-1].  Otherwise the socket
    becomes that of [bev] and the call returns 0: the outcome is reported
    later, by an event. *)
Definition bufferevent_socket_connect (b : nat) (sin : sockaddr_in) : M Z :=
  get_bev b ;;
  modify (fun w => world_with_connects (connects w ++ [(b, sin)]) w) ;;
  fd <- (fun w => Ok (net_connect w (sin_port sin)) w) ;;
  if fd <? -1 then ret (-1)
  else if fd =? -1 then run_eventcb_error b ;; ret (-1)
  else update_bev b (bev_with_fd fd) ;; ret 0.

Definition create_pipe (base : cb_arg) (other_side : option nat) (port : Z)
    : M unit :=
  let sin := {| sin_family := AF_INET;
                sin_addr := htonl 0x7f000001;
                sin_port := htons port |} in
  bev <- bufferevent_socket_new base (-1) BEV_OPT_CLOSE_ON_FREE ;;
  bufferevent_setcb bev None None (Some cb_back_connection)
    (ptr_arg other_side) ;;
  rc <- bufferevent_socket_connect bev sin ;;
  if rc <? 0 then
    bufferevent_free bev ;;
    match other_side with
    | Some o => bufferevent_free o
    | None => ret tt
    end
  else ret tt.

(** *** Initial handshake *)

(** The first half of [initial_read]: the port is the normal one, unless
    the one extent [v[0]] that [evbuffer_peek] fills holds the knock, which
    is then drained from the buffer. *)
Definition choose_port (input : evbuffer_ref) : M Z :=
  let port := normal_port cfg in
  buf <- load_evbuffer input ;;
  let '(n, v) := evbuffer_peek buf (to_ssize (knock_size cfg)) 1 in
  if n =? 1 then
    match v !! 0%nat with
    | None => raise Uninitialised
    | Some v0 =>
        if knock_size cfg <=? iov_len v0 then
          match memcmp (knock_value cfg) (iov_base v0) (knock_size cfg) with
          | None => raise OutOfBounds
          | Some r =>
              if r =? 0 then
                store_evbuffer input (evbuffer_drain buf (knock_size cfg)) ;;
                ret (hidden_port cfg)
              else ret port
          end
        else ret port
    end
  else ret port.

Definition initial_read (bev : nat) (ctx : cb_arg) : M unit :=
  let base := ctx in
  input <- bufferevent_get_input bev ;;
  port <- choose_port input ;;
  bufferevent_setwatermark bev EV_READ 0 MAX_RECV_BUF_DEFAULT ;;
  bufferevent_disable bev EV_READ ;;
  bufferevent_set_timeouts bev None None ;;
  bufferevent_setcb bev None None (Some cb_pipe_error) arg_NULL ;;
  create_pipe base (Some bev) port.

Definition initial_error (bev : nat) (error : Z) (ctx : cb_arg) : M unit :=
  if has_flag error BEV_EVENT_TIMEOUT then
    (if verbose cfg
     then printf "Nothing received, timeout, assuming https"
     else ret tt) ;;
    initial_read bev ctx
  else
    bufferevent_setcb bev None None None arg_NULL ;;
    bufferevent_free bev.

(** [initial_accept]; [fd] is what [accept] returned. *)
Definition initial_accept (fd : Z) : M unit :=
  let base := arg_base in
  if fd <? 0 then perror "accept"
  else if FD_SETSIZE <? fd then close fd
  else
    evutil_make_socket_nonblocking fd ;;
    bev <- bufferevent_socket_new base fd BEV_OPT_CLOSE_ON_FREE ;;
    bufferevent_setcb bev (Some cb_initial_read) None (Some cb_initial_error)
      base ;;
    bufferevent_setwatermark bev EV_READ 0 MAX_RECV_BUF_DEFAULT ;;
    bufferevent_enable bev EV_READ ;;
    bufferevent_set_timeouts bev (Some (knock_timeout cfg)) None.

(** *** The event loop *)

(** What libevent can report.  Nothing is delivered to a bufferevent that
    was freed, nor through a callback that is not set. *)
Inductive event :=
| Incoming (fd : Z)                     (* the listener accepted [fd] *)
| Readable (b : nat) (data : list chain)  (* bytes were read from the socket *)
| Writable (b : nat) (n : nat)          (* [n] bytes were written to the socket *)
| Signal (b : nat) (what : Z).          (* the event callback, with its flags *)

Definition run_readcb (b : nat) (be : bufferevent) : M unit :=
  match bev_readcb be with
  | Some cb_initial_read => initial_read b (bev_cbarg be)
  | Some cb_pipe_read => pipe_read b (bev_cbarg be)
  | None => ret tt
  end.

Definition run_eventcb (b : nat) (what : Z) (be : bufferevent) : M unit :=
  match bev_eventcb be with
  | Some cb_initial_error => initial_error b what (bev_cbarg be)
  | Some cb_back_connection => back_connection b what (bev_cbarg be)
  | Some cb_pipe_error => pipe_error b what (bev_cbarg be)
  | None => ret tt
  end.

(** Before it reports a failed or timed-out read (write), libevent stops
    reading (writing) on the bufferevent. *)
Definition stopped_by (what : Z) : Z :=
  Z.lor (if has_flag what BEV_EVENT_READING then EV_READ else 0)
        (if has_flag what BEV_EVENT_WRITING then EV_WRITE else 0).

Definition is_live (b : nat) (w : world) : option bufferevent :=
  match bevs w !! b with
  | Some (Some be) => Some be
  | _ => None
  end.

Definition dispatch (ev : event) : M unit :=
  match ev with
  | Incoming fd => initial_accept fd
  | Readable b data =>
      fun w =>
        match is_live b w with
        | Some be =>
            (update_bev b (bev_with_input (bev_input be ++ data)) ;;
             run_readcb b be) w
        | None => Ok tt w
        end
  | Writable b n =>
      fun w =>
        match is_live b w with
        | Some be =>
            let bytes := take n (evbuffer_bytes (bev_output be)) in
            (update_bev b (fun be =>
               bev_with_sent (bev_sent be ++ bytes)
                 (bev_with_output
                    (evbuffer_drain (bev_output be) (Z.of_nat n)) be))) w
        | None => Ok tt w
        end
  | Signal b what =>
      fun w =>
        match is_live b w with
        | Some be =>
            (bufferevent_disable b (stopped_by what) ;;
             run_eventcb b what be) w
        | None => Ok tt w
        end
  end.

(** A run of the event loop. *)
Fixpoint run (evs : list event) : M unit :=
  match evs with
  | [] => ret tt
  | ev :: evs' => dispatch ev ;; run evs'
  end.

End Proxy.

Definition empty_world (net : Z -> Z) : world :=
  {| bevs := ∅; ctxs := ∅; connects := []; closed_fds := [];
     sockopts := []; out_log := []; err_log := []; net_connect := net |}.

(* ===================================================================== *)
(** ** The process: [start] and [cleanup_buffers] *)
(* ===================================================================== *)

(** A global pointer of the program: [NULL], pointing to a live object, or
    to one that was freed. *)
Inductive handle (A : Type) :=
| Unset
| Live (a : A)
| Released.
Arguments Unset {A}.
Arguments Live {A} a.
Arguments Released {A}.

(** The state of the process around the bufferevents: the two globals
    [__base] and [__listener_event] (the event with its descriptor and
    flags, and whether it is added to the base), whether [cleanup_buffers]
    handles SIGTERM, whether stdout is unbuffered, and the successful
    [bind] and [listen] calls. *)
Record process := {
  proc_world : world;
  sigterm_handler : bool;
  stdout_unbuffered : bool;
  g_base : handle unit;
  g_listener_event : handle (Z * Z);
  listener_added : bool;
  bound : list (Z * sockaddr_in);
  listening : list (Z * Z)
}.

(** What the operating system and libevent answer during [start]:
    whether [event_base_new] gives a base, and the results of [socket],
    [bind] and [listen]. *)
Record os_answers := {
  os_event_base_new : bool;
  os_socket : Z;
  os_bind : Z;
  os_listen : Z
}.

(** How a computation of the process ends: it returns, the process exits
    with a code, it is killed by a signal it does not handle, or it
    crashes. *)
Inductive outcome (A : Type) :=
| Returns (a : A) (p : process)
| Exits (code : Z) (p : process)
| Killed (p : process)
| Crashes (f : fault).
Arguments Returns {A} a p.
Arguments Exits {A} code p.
Arguments Killed {A} p.
Arguments Crashes {A} f.

Definition P (A : Type) : Type := process -> outcome A.

Definition pret {A} (a : A) : P A := fun p => Returns a p.

Definition pbind {A B} (m : P A) (k : A -> P B) : P B :=
  fun p => match m p with
           | Returns a p' => k a p'
           | Exits code p' => Exits code p'
           | Killed p' => Killed p'
           | Crashes f => Crashes f
           end.

Notation "x <~ m ;; k" := (pbind m (fun x => k))
  (at level 100, m at next level, right associativity).
Notation "m ;;; k" := (pbind m (fun _ => k))
  (at level 100, right associativity).

Definition proc_with_world (v : world) (p : process) : process :=
  {| proc_world := v; sigterm_handler := sigterm_handler p;
     stdout_unbuffered := stdout_unbuffered p; g_base := g_base p;
     g_listener_event := g_listener_event p;
     listener_added := listener_added p;
     bound := bound p; listening := listening p |}.

Definition proc_with_sigterm (v : bool) (p : process) : process :=
  {| proc_world := proc_world p; sigterm_handler := v;
     stdout_unbuffered := stdout_unbuffered p; g_base := g_base p;
     g_listener_event := g_listener_event p;
     listener_added := listener_added p;
     bound := bound p; listening := listening p |}.

Definition proc_with_unbuffered (v : bool) (p : process) : process :=
  {| proc_world := proc_world p; sigterm_handler := sigterm_handler p;
     stdout_unbuffered := v; g_base := g_base p;
     g_listener_event := g_listener_event p;
     listener_added := listener_added p;
     bound := bound p; listening := listening p |}.

Definition proc_with_base (v : handle unit) (p : process) : process :=
  {| proc_world := proc_world p; sigterm_handler := sigterm_handler p;
     stdout_unbuffered := stdout_unbuffered p; g_base := v;
     g_listener_event := g_listener_event p;
     listener_added := listener_added p;
     bound := bound p; listening := listening p |}.

Definition proc_with_listener_event (v : handle (Z * Z)) (added : bool)
    (p : process) : process :=
  {| proc_world := proc_world p; sigterm_handler := sigterm_handler p;
     stdout_unbuffered := stdout_unbuffered p; g_base := g_base p;
     g_listener_event := v;
     listener_added := added;
     bound := bound p; listening := listening p |}.

Definition proc_with_bound (v : list (Z * sockaddr_in)) (p : process)
    : process :=
  {| proc_world := proc_world p; sigterm_handler := sigterm_handler p;
     stdout_unbuffered := stdout_unbuffered p; g_base := g_base p;
     g_listener_event := g_listener_event p;
     listener_added := listener_added p;
     bound := v; listening := listening p |}.

Definition proc_with_listening (v : list (Z * Z)) (p : process) : process :=
  {| proc_world := proc_world p; sigterm_handler := sigterm_handler p;
     stdout_unbuffered := stdout_unbuffered p; g_base := g_base p;
     g_listener_event := g_listener_event p;
     listener_added := listener_added p;
     bound := bound p; listening := v |}.

Definition pmodify (f : process -> process) : P unit :=
  fun p => Returns tt (f p).

(** A computation on the sockets and bufferevents, run in the process. *)
Definition in_world {A} (m : M A) : P A :=
  fun p => match m (proc_world p) with
           | Ok a w => Returns a (proc_with_world w p)
           | Fault f => Crashes f
           end.

Definition EV_PERSIST : Z := 0x10.
Definition SOCK_STREAM : Z := 1.

(** [exit(code)]. *)
Definition exit {A} (code : Z) : P A := fun p => Exits code p.

(** [event_base_new()]. *)
Definition event_base_new (os : os_answers) : P bool :=
  if os_event_base_new os
  then pmodify (proc_with_base (Live tt)) ;;; pret true
  else pret false.

(** [event_base_free(__base)]: with [NULL] libevent only warns. *)
Definition event_base_free : P unit :=
  fun p => match g_base p with
           | Live _ => Returns tt (proc_with_base Released p)
           | Unset => Returns tt p
           | Released => Crashes UseAfterFree
           end.

(** [event_new(__base, fd, events, initial_accept, __base)], stored in
    [__listener_event]. *)
Definition event_new (fd events : Z) : P unit :=
  pmodify (proc_with_listener_event (Live (fd, events)) false).

(** [event_add(__listener_event, NULL)]. *)
Definition event_add : P unit :=
  fun p => match g_listener_event p with
           | Live e => Returns tt (proc_with_listener_event (Live e) true p)
           | Unset => Crashes NullDeref
           | Released => Crashes UseAfterFree
           end.

(** [event_del(__listener_event)]. *)
Definition event_del : P unit :=
  fun p => match g_listener_event p with
           | Live e => Returns tt (proc_with_listener_event (Live e) false p)
           | Unset => Crashes NullDeref
           | Released => Crashes UseAfterFree
           end.

(** [event_free(__listener_event)]. *)
Definition event_free : P unit :=
  fun p => match g_listener_event p with
           | Live e => Returns tt (proc_with_listener_event Released false p)
           | Unset => Crashes NullDeref
           | Released => Crashes UseAfterFree
           end.

(** [socket(AF_INET, SOCK_STREAM, 0)]. *)
Definition socket (os : os_answers) : P Z := pret (os_socket os).

(** [bind(fd, &sin, sizeof(sin))]. *)
Definition bind_socket (os : os_answers) (fd : Z) (sin : sockaddr_in) : P Z :=
  if os_bind os <? 0 then pret (os_bind os)
  else pmodify (fun p => proc_with_bound (bound p ++ [(fd, sin)]) p) ;;;
       pret (os_bind os).

(** [listen(fd, backlog)]. *)
Definition listen (os : os_answers) (fd backlog : Z) : P Z :=
  if os_listen os <? 0 then pret (os_listen os)
  else pmodify (fun p => proc_with_listening (listening p ++ [(fd, backlog)]) p) ;;;
       pret (os_listen os).

(** What the event loop meets: an event of libevent, or SIGTERM. *)
Inductive loop_item :=
| Deliver (ev : event)
| Sigterm.

Section Process.

Variable cfg : config.
Variable FD_SETSIZE : Z.

(** [cleanup_buffers], the handler of SIGTERM. *)
Definition cleanup_buffers : P unit :=
  event_del ;;;
  event_free ;;;
  event_base_free ;;;
  exit 0.

(** A signal arrives: the handler runs if [start] installed it. *)
Definition raise_sigterm : P unit :=
  fun p => if sigterm_handler p then cleanup_buffers p else Killed p.

(** The loop reports an event: a connection to accept is reported only
    while the listener event is added to the base. *)
Definition deliver (ev : event) : P unit :=
  fun p =>
    match ev with
    | Incoming _ =>
        if listener_added p then in_world (dispatch cfg FD_SETSIZE ev) p
        else Returns tt p
    | _ => in_world (dispatch cfg FD_SETSIZE ev) p
    end.

(** [event_base_dispatch(__base)]: the loop runs the callbacks of the
    events it meets, until nothing is left to meet; a signal is taken
    between two callbacks.  [start] does not use the value returned. *)
Fixpoint event_base_dispatch (items : list loop_item) : P Z :=
  match items with
  | [] => pret 1
  | Deliver ev :: rest => deliver ev ;;; event_base_dispatch rest
  | Sigterm :: rest => raise_sigterm ;;; event_base_dispatch rest
  end.

(** [start(_config)]; [cfg] is [_config], [os] the answers of the system
    and [items] what the event loop meets. *)
Definition start (os : os_answers) (items : list loop_item) : P Z :=
  pmodify (proc_with_sigterm true) ;;;
  pmodify (proc_with_unbuffered true) ;;;
  have_base <~ event_base_new os ;;
  if negb have_base then pret 1
  else
    let sin := {| sin_family := AF_INET; sin_addr := 0;
                  sin_port := htons (external_port cfg) |} in
    listener <~ socket os ;;
    if listener =? -1 then
      event_base_free ;;; pret 1
    else
      in_world (evutil_make_socket_nonblocking listener) ;;;
      rc <~ in_world (setsockopt listener "SO_REUSEADDR") ;;
      (if negb (rc =? 0) then in_world (perror "setsockopt/reuse_addr")
       else pret tt) ;;;
      rc <~ bind_socket os listener sin ;;
      if rc <? 0 then
        in_world (perror "bind") ;;;
        in_world (close listener) ;;;
        event_base_free ;;;
        pret 1
      else
        rc <~ listen os listener 16 ;;
        if rc <? 0 then
          in_world (perror "listen") ;;;
          pret 1
        else
          event_new listener (Z.lor EV_READ EV_PERSIST) ;;;
          event_add ;;;
          event_base_dispatch items ;;;
          pret 0.

End Process.

(** The process before [start]. *)
Definition new_process (net : Z -> Z) : process :=
  {| proc_world := empty_world net; sigterm_handler := false;
     stdout_unbuffered := false; g_base := Unset;
     g_listener_event := Unset; listener_added := false;
     bound := []; listening := [] |}.

(* ===================================================================== *)
(** ** States of a connection and of a run *)
(* ===================================================================== *)

(** The configuration is usable: the signature is [knock_size] bytes long
    and the length is a [size_t]. *)
Definition config_ok (cfg : config) : Prop :=
  knock_size cfg = Z.of_nat (length (knock_value cfg)) /\
  knock_size cfg <= SIZE_MAX.

(** The knock is at the front of the first chain of the buffer. *)
Definition knock_in_first_chain (cfg : config) (input : evbuffer) : Prop :=
  match input with
  | [] => False
  | c :: _ =>
      0 < knock_size cfg /\ knock_size cfg <= chain_off c /\
      take (Z.to_nat (knock_size cfg)) c = knock_value cfg
  end.

(** The address [create_pipe] connects to for a port. *)
Definition loopback (port : Z) : sockaddr_in :=
  {| sin_family := AF_INET; sin_addr := 0x7f000001; sin_port := port mod 2 ^ 16 |}.

(** The backend bufferevent as [create_pipe] leaves it while the
    connection is in progress: nothing buffered, nothing sent. *)
Definition backend_new (other_side : nat) (fd : Z) : bufferevent :=
  {| bev_fd := fd; bev_options := BEV_OPT_CLOSE_ON_FREE;
     bev_input := []; bev_output := []; bev_enabled := EV_WRITE;
     bev_wm_read := (0, 0); bev_wm_write := (0, 0);
     bev_timeout_read := None; bev_timeout_write := None;
     bev_readcb := None; bev_writecb := None;
     bev_eventcb := Some cb_back_connection; bev_cbarg := arg_bev other_side;
     bev_sent := [] |}.

(** The client bufferevent as [initial_read] hands it to [create_pipe],
    with [input] left in its input buffer. *)
Definition handed_over (input : evbuffer) (be : bufferevent) : bufferevent :=
  {| bev_fd := bev_fd be; bev_options := bev_options be;
     bev_input := input; bev_output := bev_output be;
     bev_enabled := Z.ldiff (bev_enabled be) EV_READ;
     bev_wm_read := (0, MAX_RECV_BUF_DEFAULT); bev_wm_write := bev_wm_write be;
     bev_timeout_read := None; bev_timeout_write := None;
     bev_readcb := None; bev_writecb := None;
     bev_eventcb := Some cb_pipe_error; bev_cbarg := arg_NULL;
     bev_sent := bev_sent be |}.

(** The back connection of [other_side] is in progress on [bev]. *)
Definition connecting (w : world) (other_side bev : nat)
    (be_o be_b : bufferevent) : Prop :=
  other_side <> bev /\
  bevs w !! other_side = Some (Some be_o) /\
  bevs w !! bev = Some (Some be_b) /\
  bev_eventcb be_b = Some cb_back_connection /\
  bev_cbarg be_b = arg_bev other_side.

(** A bufferevent carries the pipe callbacks with the record [c]. *)
Definition pipe_callbacks (be : bufferevent) (c : nat) : Prop :=
  bev_readcb be = Some cb_pipe_read /\
  bev_eventcb be = Some cb_pipe_error /\
  bev_cbarg be = arg_ctx c.

(** ACTIVE: both ends live.  [ca] is the record given to the callbacks of
    [a]; it points to the peer [b] and to the peer's record [cb], and its
    flag [fa] says that [b] timed out.  Symmetrically for [cb]. *)
Definition piped (w : world) (a b ca cb : nat) (be_a be_b : bufferevent)
    (fa fb : bool) : Prop :=
  a <> b /\ ca <> cb /\
  bevs w !! a = Some (Some be_a) /\
  bevs w !! b = Some (Some be_b) /\
  pipe_callbacks be_a ca /\
  pipe_callbacks be_b cb /\
  ctxs w !! ca = Some (Some {| os_bev := Some b; os_pair := Some cb;
                               other_timedout := fa |}) /\
  ctxs w !! cb = Some (Some {| os_bev := Some a; os_pair := Some ca;
                               other_timedout := fb |}).

(** DRAINING: [x] survives with the record [cx], whose peer reference is
    gone; the peer [y] and its record [cy] are freed. *)
Definition draining (w : world) (x cx y cy : nat) (be_x : bufferevent) : Prop :=
  x <> y /\ cx <> cy /\
  bevs w !! x = Some (Some be_x) /\
  pipe_callbacks be_x cx /\
  (exists f, ctxs w !! cx = Some (Some {| os_bev := None; os_pair := None;
                                          other_timedout := f |})) /\
  bevs w !! y = Some None /\
  ctxs w !! cy = Some None.

(** CLOSED: both ends and both records are freed. *)
Definition closed (w : world) (a b ca cb : nat) : Prop :=
  bevs w !! a = Some None /\ bevs w !! b = Some None /\
  ctxs w !! ca = Some None /\ ctxs w !! cb = Some None.

(** Every state a link goes through once it is paired. *)
Definition link_ok (w : world) (a b ca cb : nat) : Prop :=
  (exists be_a be_b fa fb, piped w a b ca cb be_a be_b fa fb) \/
  (exists be_a, draining w a ca b cb be_a) \/
  (exists be_b, draining w b cb a ca be_b) \/
  closed w a b ca cb.

Definition ones : timeval := {| tv_sec := 1; tv_usec := 0 |}.

(** The survivor as [pipe_error] leaves it when its peer is closed. *)
Definition granted_grace (be : bufferevent) : bufferevent :=
  bev_with_enabled (Z.lor (bev_enabled be) EV_READ)
    (bev_with_timeouts (Some ones) (Some ones) be).

(** Events on the two ends of a link. *)
Definition on_link (a b : nat) (ev : event) : Prop :=
  match ev with
  | Incoming _ => False
  | Readable x _ | Writable x _ | Signal x _ => x = a \/ x = b
  end.

(** Events that carry data on the two ends of a link: no error, no
    timeout. *)
Definition data_on_link (a b : nat) (ev : event) : Prop :=
  match ev with
  | Readable x _ | Writable x _ => x = a \/ x = b
  | Incoming _ | Signal _ _ => False
  end.

(** Data events on one end. *)
Definition data_on (x : nat) (ev : event) : Prop :=
  match ev with
  | Readable y _ | Writable y _ => y = x
  | Incoming _ | Signal _ _ => False
  end.

(** The bytes read from the socket of [x] during a run, in order. *)
Fixpoint arrived (x : nat) (evs : list event) : list byte :=
  match evs with
  | [] => []
  | Readable y data :: evs' =>
      if decide (y = x) then evbuffer_bytes data ++ arrived x evs'
      else arrived x evs'
  | _ :: evs' => arrived x evs'
  end.

(** Whether the latest of the reads and timeouts of [x] in a run is a
    timeout; [init] when there is none. *)
Fixpoint timeout_pending (init : bool) (x : nat) (evs : list event) : bool :=
  match evs with
  | [] => init
  | Readable y _ :: evs' =>
      timeout_pending (if decide (y = x) then false else init) x evs'
  | Signal y what :: evs' =>
      timeout_pending
        (if decide (y = x) then has_flag what BEV_EVENT_TIMEOUT || init
         else init) x evs'
  | _ :: evs' => timeout_pending init x evs'
  end.

Definition is_read_of (x : nat) (ev : event) : Prop :=
  match ev with
  | Readable y _ => y = x
  | _ => False
  end.

(** All the bytes on their way to the socket of [b] from its peer [a]:
    sent, waiting in the output of [b], or still in the input of [a]. *)
Definition toward (be_b be_a : bufferevent) : list byte :=
  bev_sent be_b ++ evbuffer_bytes (bev_output be_b) ++
  evbuffer_bytes (bev_input be_a).

(** The bufferevent after libevent wrote [n] bytes of its output to the
    socket. *)
Definition flushed (n : nat) (be : bufferevent) : bufferevent :=
  bev_with_sent (bev_sent be ++ take n (evbuffer_bytes (bev_output be)))
    (bev_with_output (evbuffer_drain (bev_output be) (Z.of_nat n)) be).

(** The world in which the input buffer of [b] holds [input']. *)
Definition buffered (input' : evbuffer) (b : nat) (be : bufferevent)
    (w : world) : world :=
  world_with_bevs (<[b := Some (bev_with_input input' be)]> (bevs w)) w.

(** The world in which [initial_read] calls [create_pipe]: the client [b]
    is handed over as [be']. *)
Definition handing_over (w : world) (b : nat) (be' : bufferevent) : world :=
  world_with_bevs (<[b := Some be']> (bevs w)) w.

(** The world a connection attempt for [b] leaves when it starts. *)
Definition pending_world (w : world) (b : nat) (be' : bufferevent) (port : Z)
    : world :=
  {| bevs := <[fresh (dom (bevs w)) :=
                Some (backend_new b (net_connect w (port mod 2 ^ 16)))]>
               (<[b := Some be']> (bevs w));
     ctxs := ctxs w;
     connects := connects w ++ [(fresh (dom (bevs w)), loopback port)];
     closed_fds := closed_fds w; sockopts := sockopts w;
     out_log := out_log w; err_log := err_log w;
     net_connect := net_connect w |}.

(** The world a connection attempt for [b] leaves when no socket can be
    made. *)
Definition failed_world (w : world) (b : nat) (be' : bufferevent) (port : Z)
    : world :=
  {| bevs := <[b := None]> (<[fresh (dom (bevs w)) := None]> (bevs w));
     ctxs := ctxs w;
     connects := connects w ++ [(fresh (dom (bevs w)), loopback port)];
     closed_fds := closed_fds w ++ closes be';
     sockopts := sockopts w;
     out_log := out_log w; err_log := err_log w;
     net_connect := net_connect w |}.

(** One end of the link is gone, or both. *)
Definition unpaired (w : world) (a b ca cb : nat) : Prop :=
  (exists be_a, draining w a ca b cb be_a) \/
  (exists be_b, draining w b cb a ca be_b) \/
  closed w a b ca cb.

(** The bufferevent an event is for. *)
Definition targets (x : nat) (ev : event) : Prop :=
  match ev with
  | Incoming _ => False
  | Readable y _ | Writable y _ | Signal y _ => y = x
  end.

(** The world after the message that [initial_error] prints in verbose
    mode. *)
Definition announce (cfg : config) (w : world) : world :=
  if verbose cfg
  then world_with_out (out_log w ++ ["Nothing received, timeout, assuming https"%string]) w
  else w.

(** Nothing of the world changes outside the link: the other
    bufferevents and records, the connections started, the socket options
    and the logs. *)
Definition same_outside (a b ca cb : nat) (w w' : world) : Prop :=
  (forall x, x <> a -> x <> b -> bevs w' !! x = bevs w !! x) /\
  (forall c, c <> ca -> c <> cb -> ctxs w' !! c = ctxs w !! c) /\
  connects w' = connects w /\
  sockopts w' = sockopts w /\
  out_log w' = out_log w /\
  err_log w' = err_log w.

(** The descriptors closed since the link was paired, by the state of the
    link: [c0] is what was closed before, [fda] and [fdb] what freeing the
    end [a] and the end [b] closes. *)
Definition link_account (c0 fda fdb : list Z) (w : world) (a b ca cb : nat)
    : Prop :=
  (exists be_a be_b fa fb,
      piped w a b ca cb be_a be_b fa fb /\
      closes be_a = fda /\ closes be_b = fdb /\ closed_fds w = c0) \/
  (exists be_a,
      draining w a ca b cb be_a /\
      closes be_a = fda /\ closed_fds w = c0 ++ fdb) \/
  (exists be_b,
      draining w b cb a ca be_b /\
      closes be_b = fdb /\ closed_fds w = c0 ++ fda) \/
  (closed w a b ca cb /\
   (closed_fds w = c0 ++ fda ++ fdb \/ closed_fds w = c0 ++ fdb ++ fda)).

(** Events of a run in which the end [b] never gets an event callback, and
    the end [a] only timeouts. *)
Definition only_times_out (a b : nat) (ev : event) : Prop :=
  match ev with
  | Incoming _ => False
  | Readable x _ | Writable x _ => x = a \/ x = b
  | Signal x what => x = a /\ has_flag what BEV_EVENT_TIMEOUT = true
  end.

(** The client bufferevent as [initial_accept] creates it. *)
Definition accepted (cfg : config) (fd : Z) : bufferevent :=
  {| bev_fd := fd; bev_options := BEV_OPT_CLOSE_ON_FREE;
     bev_input := []; bev_output := [];
     bev_enabled := Z.lor EV_WRITE EV_READ;
     bev_wm_read := (0, MAX_RECV_BUF_DEFAULT); bev_wm_write := (0, 0);
     bev_timeout_read := Some (knock_timeout cfg); bev_timeout_write := None;
     bev_readcb := Some cb_initial_read; bev_writecb := None;
     bev_eventcb := Some cb_initial_error; bev_cbarg := arg_base;
     bev_sent := [] |}.

(** How [back_connection] sets up both ends of a pipe, the callbacks
    aside: reading enabled, the idle timeout on reads, none on writes, and
    the read watermarks 0 and [MAX_RECV_BUF_DEFAULT]. *)
Definition pipe_end (cfg : config) (be : bufferevent) : Prop :=
  has_flag (bev_enabled be) EV_READ = true /\
  bev_timeout_read be = Some (default_timeout cfg) /\
  bev_timeout_write be = None /\
  bev_wm_read be = (0, MAX_RECV_BUF_DEFAULT).

(** The world when [start] has set the listener up. *)
Definition served_world (w : world) (listener : Z) : world :=
  world_with_sockopts
    (sockopts w ++ [(listener, "O_NONBLOCK"%string);
                    (listener, "SO_REUSEADDR"%string)]) w.

(** The process when [start] enters the event loop. *)
Definition serving (cfg : config) (p : process) (listener : Z) : process :=
  {| proc_world := served_world (proc_world p) listener;
     sigterm_handler := true; stdout_unbuffered := true;
     g_base := Live tt;
     g_listener_event := Live (listener, Z.lor EV_READ EV_PERSIST);
     listener_added := true;
     bound := bound p ++ [(listener,
                {| sin_family := AF_INET; sin_addr := 0;
                   sin_port := external_port cfg mod 2 ^ 16 |})];
     listening := listening p ++ [(listener, 16)] |}.

(** The system gave [start] everything it asked for. *)
Definition os_ok (os : os_answers) : Prop :=
  os_event_base_new os = true /\ os_socket os <> -1 /\
  0 <= os_bind os /\ 0 <= os_listen os.

(* ===================================================================== *)
(** ** Examples *)
(* ===================================================================== *)

(** The configuration of the specification's example: the knock
    [DE AD BE EF], the hidden backend on 2222, the normal one on 22. *)
Definition example_cfg : config :=
  {| external_port := 443; normal_port := 22; hidden_port := 2222;
     knock_value := [xde; xad; xbe; xef]%byte; knock_size := 4;
     knock_timeout := {| tv_sec := 2; tv_usec := 0 |};
     default_timeout := {| tv_sec := 60; tv_usec := 0 |};
     verbose := false |}.

(** A configuration with an empty knock. *)
Definition empty_knock_cfg : config :=
  {| external_port := 443; normal_port := 22; hidden_port := 2222;
     knock_value := []; knock_size := 0;
     knock_timeout := {| tv_sec := 2; tv_usec := 0 |};
     default_timeout := {| tv_sec := 60; tv_usec := 0 |};
     verbose := true |}.

Definition example_knock : list byte := [xde; xad; xbe; xef]%byte.
Definition example_hello : list byte := [x68; x65; x6c; x6c; x6f]%byte.

(** Backends that accept every connection (on descriptor 9), backends to
    which [connect] fails at once, and a system out of sockets. *)
Definition net_up : Z -> Z := fun _ => 9.
Definition net_down : Z -> Z := fun _ => -1.
Definition net_no_socket : Z -> Z := fun _ => -2.

(** The world a run from the start of the process ends in. *)
Definition world_after (cfg : config) (net : Z -> Z) (evs : list event)
    : world :=
  match run cfg 1024 evs (empty_world net) with
  | Ok _ w => w
  | Fault _ => empty_world net
  end.

(** A client accepted on descriptor 5, as [initial_accept] sets it up, with
    [input] buffered and the detector not yet run. *)
Definition detecting_client (cfg : config) (input : evbuffer) : bufferevent :=
  {| bev_fd := 5; bev_options := BEV_OPT_CLOSE_ON_FREE;
     bev_input := input; bev_output := [];
     bev_enabled := Z.lor EV_WRITE EV_READ;
     bev_wm_read := (0, MAX_RECV_BUF_DEFAULT); bev_wm_write := (0, 0);
     bev_timeout_read := Some (knock_timeout cfg); bev_timeout_write := None;
     bev_readcb := Some cb_initial_read; bev_writecb := None;
     bev_eventcb := Some cb_initial_error; bev_cbarg := arg_base;
     bev_sent := [] |}.

Definition detecting_world (cfg : config) (net : Z -> Z) (input : evbuffer)
    : world :=
  world_with_bevs {[ 0%nat := Some (detecting_client cfg input) ]}
    (empty_world net).

(** The example link: the client [0] knocked and is piped to the hidden
    backend through the bufferevent [1]. *)
Definition example_link : world :=
  world_after example_cfg net_up
    [Incoming 5; Readable 0 [example_knock ++ example_hello];
     Signal 1 BEV_EVENT_CONNECTED].

Definition timeout_reading : Z := Z.lor BEV_EVENT_TIMEOUT BEV_EVENT_READING.
Definition error_reading : Z := Z.lor BEV_EVENT_ERROR BEV_EVENT_READING.

(** The example link after the client closed: the backend [1] survives. *)
Definition half_closed_link : world :=
  world_after example_cfg net_up
    [Incoming 5; Readable 0 [example_knock ++ example_hello];
     Signal 1 BEV_EVENT_CONNECTED; Signal 0 error_reading].

(** The backend of the half-closed example link. *)
Definition survivor : bufferevent :=
  match bevs half_closed_link !! 1%nat with
  | Some (Some be) => be
  | _ => detecting_client example_cfg []
  end.

(** A client whose detector has run and whose back connection is in
    progress. *)
Definition connecting_link : world :=
  world_after example_cfg net_up [Incoming 5; Readable 0 [example_hello]].

(** Answers of a system that grants everything (the listener is the
    descriptor 3), that refuses [bind], and that refuses [listen]. *)
Definition os_granted : os_answers :=
  {| os_event_base_new := true; os_socket := 3; os_bind := 0; os_listen := 0 |}.
Definition os_bind_refused : os_answers :=
  {| os_event_base_new := true; os_socket := 3; os_bind := -1; os_listen := 0 |}.
Definition os_listen_refused : os_answers :=
  {| os_event_base_new := true; os_socket := 3; os_bind := 0; os_listen := -1 |}.

(* ===================================================================== *)
(** ** Tactics for running the callbacks symbolically *)
(* ===================================================================== *)

#[local] Arguments Z.ldiff : simpl never.
#[local] Arguments Z.lor : simpl never.
#[local] Arguments Z.land : simpl never.

(** Unfold the monad and the heap accessors, leaving the lookups. *)
Ltac munfold :=
  unfold bufferevent_setcb, bufferevent_setwatermark, bufferevent_enable,
    bufferevent_disable, bufferevent_set_timeouts, bufferevent_getfd,
    bufferevent_free, bufferevent_get_input, bufferevent_get_output,
    bufferevent_read_buffer, bufferevent_socket_connect,
    bufferevent_socket_new, load_evbuffer, store_evbuffer,
    evutil_make_socket_nonblocking, set_tcp_no_delay, setsockopt, close,
    printf, perror, malloc_otherside, store_otherside, free_otherside,
    load_otherside, as_otherside, as_bufferevent, deref, update_bev,
    get_bev, modify, raise, bind, ret in *.

(** Resolve the lookups that the context or the shape of the map decides. *)
Ltac mlookup :=
  repeat first
    [ rewrite lookup_insert_eq
    | rewrite lookup_insert_ne by congruence
    | match goal with
      | H : ?m !! ?k = _ |- context [?m !! ?k] => rewrite H
      end ].

Ltac mstep := munfold; simpl; mlookup; simpl.

Ltac mrun := repeat (progress mstep).

(** Enter the callback that an event runs on a link. *)
Ltac open_dispatch :=
  unfold dispatch, is_live, run_readcb, run_eventcb; mlookup;
  repeat match goal with
         | H : pipe_callbacks _ _ |- _ => destruct H as (? & ? & ?)
         end;
  repeat match goal with
         | H : bev_readcb _ = _ |- _ => rewrite H
         | H : bev_eventcb _ = _ |- _ => rewrite H
         | H : bev_cbarg _ = _ |- _ => rewrite H
         end.

Ltac close_state :=
  unfold piped, draining, closed, pipe_callbacks; simpl; mlookup;
  repeat split; eauto; congruence.

(** Outside the link nothing moved. *)
Ltac frame_goal :=
  unfold same_outside; simpl; split_and!; try reflexivity;
  intros; mlookup; reflexivity.

(* ===================================================================== *)
(** ** Buffers: facts *)
(* ===================================================================== *)

Section BufferFacts.

Lemma byte_val_inj x y : byte_val x = byte_val y -> x = y.
Proof.
  unfold byte_val. intros H. apply N2Z.inj in H.
  assert (Some x = Some y) as E; [| congruence].
  rewrite <- (Byte.of_to_N x), <- (Byte.of_to_N y). congruence.
Qed.

Lemma bytes_cmp_zero a b : bytes_cmp a b = 0 <-> a = b.
Proof.
  revert b. induction a as [|x a IH]; intros [|y b]; simpl; try (split; [lia | congruence]).
  - tauto.
  - destruct (decide (x = y)) as [->|Hne].
    + rewrite IH. split; congruence.
    + split; [| congruence]. intros H. exfalso. apply Hne, byte_val_inj. lia.
Qed.

Lemma drain_chains_bytes cs n :
  evbuffer_bytes (drain_chains cs n) = drop n (evbuffer_bytes cs).
Proof.
  unfold evbuffer_bytes. revert n.
  induction cs as [|c cs IH]; intros n; simpl.
  - by rewrite drop_nil.
  - destruct (Nat.leb_spec (length c) n) as [Hle|Hlt].
    + rewrite IH, drop_app_ge by lia. reflexivity.
    + simpl. rewrite drop_app_le by lia. reflexivity.
Qed.

Lemma evbuffer_drain_bytes buf len :
  0 <= len ->
  evbuffer_bytes (evbuffer_drain buf len) = drop (Z.to_nat len) (evbuffer_bytes buf).
Proof.
  intros Hlen. unfold evbuffer_drain, evbuffer_get_length.
  destruct (Z.leb_spec (Z.of_nat (length (evbuffer_bytes buf))) len).
  - rewrite drop_ge by lia. reflexivity.
  - apply drain_chains_bytes.
Qed.

(** Once the one extent is filled, the loop only counts. *)
Lemma peek_chains_counting rest len idx lsf vec :
  1 <= idx ->
  exists n, peek_chains rest len 1 idx lsf vec = (n, vec) /\ idx <= n /\
            (n = idx <-> rest = [] \/ (0 <= len /\ len <= lsf) \/ len < 0).
Proof.
  revert idx lsf. induction rest as [|c rest IH]; intros idx lsf Hidx; simpl.
  - exists idx. intuition lia.
  - destruct (Z.ltb_spec idx 1) as [?|_]; [lia|].
    destruct (Z.leb_spec 0 len) as [Hpos|Hneg]; simpl.
    + destruct (Z.leb_spec len lsf) as [Hcov|Hmore].
      * exists idx. intuition lia.
      * destruct (Z.ltb_spec len 0) as [?|_]; [lia|].
        destruct (IH (idx + 1) (lsf + chain_off c)) as (n & -> & Hn & _); [lia|].
        exists n. split; [done|]. split; [lia|].
        split; [lia|]. intros [?|[?|?]]; [done|lia|lia].
    + destruct (Z.ltb_spec len 0) as [_|?]; [|lia].
      exists idx. intuition lia.
Qed.

Lemma evbuffer_peek_nil len : evbuffer_peek [] len 1 = (0, []).
Proof. reflexivity. Qed.

Lemma evbuffer_peek_zero buf : evbuffer_peek buf 0 1 = (0, []).
Proof. destruct buf; reflexivity. Qed.

Lemma evbuffer_peek_cons c rest len :
  len <> 0 ->
  exists n, evbuffer_peek (c :: rest) len 1 =
              (n, [{| iov_base := c; iov_len := chain_off c |}]) /\
            1 <= n /\
            (n = 1 <-> rest = [] \/ (0 <= len /\ len <= chain_off c) \/ len < 0).
Proof.
  intros Hlen. unfold evbuffer_peek. simpl.
  assert ((0 <=? len) && (len <=? 0) = false) as ->.
  { destruct (Z.leb_spec 0 len), (Z.leb_spec len 0); simpl; auto; lia. }
  apply peek_chains_counting. lia.
Qed.

Lemma to_ssize_small n : 0 <= n < 2 ^ 63 -> to_ssize n = n.
Proof.
  intros H. unfold to_ssize. rewrite Z.mod_small by lia.
  destruct (Z.ltb_spec n (2 ^ 63)); lia.
Qed.

Lemma to_ssize_large n : 2 ^ 63 <= n <= SIZE_MAX -> to_ssize n < 0.
Proof.
  unfold SIZE_MAX. intros H. unfold to_ssize. rewrite Z.mod_small by lia.
  destruct (Z.ltb_spec n (2 ^ 63)); lia.
Qed.

End BufferFacts.

(* ===================================================================== *)
(** ** Flags and fresh addresses: facts *)
(* ===================================================================== *)

Lemma has_flag_lor x f : 0 < f -> has_flag (Z.lor x f) f = true.
Proof.
  intros H. unfold has_flag. rewrite Z.land_lor_distr_l, Z.land_diag.
  destruct (Z.eqb_spec (Z.lor (Z.land x f) f) 0) as [E|]; [| reflexivity].
  apply Z.lor_eq_0_iff in E. lia.
Qed.

Lemma bind_ok {A B} (m : M A) (k : A -> M B) w a w' :
  m w = Ok a w' -> bind m k w = k a w'.
Proof. intros H. unfold bind. rewrite H. reflexivity. Qed.

Lemma fresh_bev_ne (m : gmap nat (option bufferevent)) x v :
  m !! x = Some v -> fresh (dom m) <> x.
Proof.
  intros H E. apply (is_fresh (dom m)). rewrite E.
  apply elem_of_dom. eauto.
Qed.

Lemma fresh_ctx_ne (m : gmap nat (option otherside)) x v :
  m !! x = Some v -> fresh (dom m) <> x.
Proof.
  intros H E. apply (is_fresh (dom m)). rewrite E.
  apply elem_of_dom. eauto.
Qed.

(* ===================================================================== *)
(** ** The knock detector: facts *)
(* ===================================================================== *)

Section Detector.

Variable cfg : config.

Lemma buffered_same w b be :
  bevs w !! b = Some (Some be) -> buffered (bev_input be) b be w = w.
Proof.
  destruct w, be. unfold buffered, world_with_bevs, bev_with_input. simpl.
  intros H. f_equal. by apply insert_id.
Qed.

Lemma ssize_nonzero n : 0 < n <= SIZE_MAX -> to_ssize n <> 0.
Proof.
  intros H. destruct (Z.lt_ge_cases n (2 ^ 63)).
  - rewrite to_ssize_small; lia.
  - pose proof (to_ssize_large n). lia.
Qed.

(** The normal port with the world untouched, unless the first chain
    alone holds the knock. *)
Lemma choose_port_cases b w be port w' :
  bevs w !! b = Some (Some be) ->
  choose_port cfg (InputOf b) w = Ok port w' ->
  (port = normal_port cfg /\ w' = w) \/
  (port = hidden_port cfg /\
   w' = buffered (evbuffer_drain (bev_input be) (knock_size cfg)) b be w /\
   knock_size cfg <> 0 /\
   exists c rest, bev_input be = c :: rest /\ knock_size cfg <= chain_off c /\
     take (Z.to_nat (knock_size cfg)) (knock_value cfg) =
     take (Z.to_nat (knock_size cfg)) c).
Proof.
  intros Hb. unfold choose_port. mrun.
  destruct (bev_input be) as [|c rest] eqn:Hin.
  { rewrite evbuffer_peek_nil. simpl. left. split; congruence. }
  destruct (Z.eq_dec (to_ssize (knock_size cfg)) 0) as [E|Hne].
  { rewrite E, evbuffer_peek_zero. simpl. left. split; congruence. }
  destruct (evbuffer_peek_cons c rest _ Hne) as (n & -> & _ & _).
  destruct (n =? 1); [| left; split; congruence].
  simpl.
  destruct (Z.leb_spec (knock_size cfg) (chain_off c)) as [Hle|?];
    [| left; split; congruence].
  unfold memcmp.
  destruct (_ && _); [| discriminate].
  destruct (Z.eqb_spec (bytes_cmp (take (Z.to_nat (knock_size cfg)) (knock_value cfg))
                                  (take (Z.to_nat (knock_size cfg)) c)) 0) as [Hz|?];
    [| left; split; congruence].
  mrun. intros [= <- <-]. right. split; [done|]. split; [done|]. split.
  { intros E. apply Hne. rewrite E. reflexivity. }
  exists c, rest. split; [done|]. split; [done|].
  by apply bytes_cmp_zero.
Qed.

Lemma choose_port_short_chain b w be :
  bevs w !! b = Some (Some be) ->
  match bev_input be with
  | [] => True
  | c :: _ => chain_off c < knock_size cfg
  end ->
  choose_port cfg (InputOf b) w = Ok (normal_port cfg) w.
Proof.
  intros Hb. unfold choose_port. mrun.
  destruct (bev_input be) as [|c rest]; intros Hshort.
  { rewrite evbuffer_peek_nil. reflexivity. }
  destruct (Z.eq_dec (to_ssize (knock_size cfg)) 0) as [E|Hne].
  { rewrite E, evbuffer_peek_zero. reflexivity. }
  destruct (evbuffer_peek_cons c rest _ Hne) as (n & -> & _ & _).
  destruct (n =? 1); [| reflexivity]. simpl.
  destruct (Z.leb_spec (knock_size cfg) (chain_off c)); [lia | reflexivity].
Qed.

Lemma choose_port_zero b w be :
  bevs w !! b = Some (Some be) ->
  knock_size cfg = 0 ->
  choose_port cfg (InputOf b) w = Ok (normal_port cfg) w.
Proof.
  intros Hb E. unfold choose_port. mrun. rewrite E.
  change (to_ssize 0) with 0. rewrite evbuffer_peek_zero. reflexivity.
Qed.

(** With a usable configuration the detector never faults, and it picks
    the hidden port exactly when the knock is at the front of the first
    chain. *)
Lemma choose_port_knock b w be :
  bevs w !! b = Some (Some be) ->
  config_ok cfg ->
  knock_in_first_chain cfg (bev_input be) ->
  choose_port cfg (InputOf b) w =
  Ok (hidden_port cfg)
     (buffered (evbuffer_drain (bev_input be) (knock_size cfg)) b be w).
Proof.
  intros Hb [Hlen Hmax] Hk. unfold choose_port. mrun.
  destruct (bev_input be) as [|c rest] eqn:Hin; [done|].
  destruct Hk as (Hpos & Hle & Heq).
  assert (to_ssize (knock_size cfg) <> 0) as Hne by (apply ssize_nonzero; lia).
  destruct (evbuffer_peek_cons c rest _ Hne) as (n & -> & _ & Hn).
  assert (n = 1) as ->.
  { apply Hn. destruct (Z.lt_ge_cases (knock_size cfg) (2 ^ 63)).
    - rewrite to_ssize_small; lia.
    - pose proof (to_ssize_large (knock_size cfg)). lia. }
  simpl.
  destruct (Z.leb_spec (knock_size cfg) (chain_off c)); [| lia].
  unfold memcmp.
  destruct (Z.leb_spec (knock_size cfg) (Z.of_nat (length (knock_value cfg)))); [| lia].
  fold (chain_off c).
  destruct (Z.leb_spec (knock_size cfg) (chain_off c)); [| lia]. simpl.
  rewrite Heq, take_ge by lia.
  assert (bytes_cmp (knock_value cfg) (knock_value cfg) = 0) as ->
    by by apply bytes_cmp_zero.
  mrun. reflexivity.
Qed.

Lemma choose_port_no_knock b w be :
  bevs w !! b = Some (Some be) ->
  config_ok cfg ->
  ~ knock_in_first_chain cfg (bev_input be) ->
  choose_port cfg (InputOf b) w = Ok (normal_port cfg) w.
Proof.
  intros Hb [Hlen Hmax] Hk.
  destruct (bev_input be) as [|c rest] eqn:Hin.
  { apply (choose_port_short_chain b w be Hb). by rewrite Hin. }
  destruct (Z.eq_dec (knock_size cfg) 0) as [E|Hnz];
    [by apply (choose_port_zero b w be)|].
  destruct (Z.lt_ge_cases (chain_off c) (knock_size cfg)) as [?|Hle].
  { apply (choose_port_short_chain b w be Hb). by rewrite Hin. }
  unfold choose_port. mrun. rewrite Hin.
  assert (to_ssize (knock_size cfg) <> 0) as Hne
    by (apply ssize_nonzero; pose proof (Nat2Z.is_nonneg (length (knock_value cfg))); lia).
  destruct (evbuffer_peek_cons c rest _ Hne) as (n & -> & _ & _).
  destruct (n =? 1); [| reflexivity].
  simpl.
  destruct (Z.leb_spec (knock_size cfg) (chain_off c)); [| lia].
  unfold memcmp.
  destruct (Z.leb_spec (knock_size cfg) (Z.of_nat (length (knock_value cfg)))); [| lia].
  fold (chain_off c).
  destruct (Z.leb_spec (knock_size cfg) (chain_off c)); [| lia]. simpl.
  destruct (Z.eqb_spec (bytes_cmp (take (Z.to_nat (knock_size cfg)) (knock_value cfg))
                                  (take (Z.to_nat (knock_size cfg)) c)) 0) as [Hz|?];
    [| reflexivity].
  exfalso. apply Hk. simpl.
  pose proof (Nat2Z.is_nonneg (length (knock_value cfg))).
  split; [lia|]. split; [done|].
  apply bytes_cmp_zero in Hz. rewrite <- Hz. apply take_ge. lia.
Qed.

(** The bytes left by a successful knock are the buffered bytes without
    the signature. *)
Lemma knock_prefix input :
  config_ok cfg ->
  knock_in_first_chain cfg input ->
  take (Z.to_nat (knock_size cfg)) (evbuffer_bytes input) = knock_value cfg /\
  evbuffer_bytes (evbuffer_drain input (knock_size cfg)) =
  drop (Z.to_nat (knock_size cfg)) (evbuffer_bytes input).
Proof.
  intros [Hlen Hmax] Hk. destruct input as [|c rest]; [done|].
  destruct Hk as (Hpos & Hle & Heq). split.
  - unfold evbuffer_bytes. simpl. unfold chain_off in Hle.
    rewrite take_app_le by lia. done.
  - apply evbuffer_drain_bytes. lia.
Qed.

End Detector.

(* ===================================================================== *)
(** ** The handshakes: what each callback computes *)
(* ===================================================================== *)

Section Handshake.

Variable cfg : config.
Variable FD_SETSIZE : Z.

Lemma create_pipe_pending base b port w be :
  bevs w !! b = Some (Some be) ->
  0 <= net_connect w (port mod 2 ^ 16) ->
  create_pipe cfg base (Some b) port w =
  Ok tt {| bevs := <[fresh (dom (bevs w)) :=
                      Some (backend_new b (net_connect w (port mod 2 ^ 16)))]>
                     (bevs w);
           ctxs := ctxs w;
           connects := connects w ++ [(fresh (dom (bevs w)), loopback port)];
           closed_fds := closed_fds w; sockopts := sockopts w;
           out_log := out_log w; err_log := err_log w;
           net_connect := net_connect w |}.
Proof.
  intros Hb Hfd. unfold create_pipe, htons, htonl. mrun.
  destruct (Z.ltb_spec (net_connect w (port mod 2 ^ 16)) (-1)) as [?|_]; [lia|].
  destruct (Z.eqb_spec (net_connect w (port mod 2 ^ 16)) (-1)) as [?|_]; [lia|].
  mrun. unfold world_with_bevs, world_with_connects; simpl.
  rewrite !insert_insert_eq. reflexivity.
Qed.

(** No socket: [connect] returns [-1] and [create_pipe] frees both. *)
Lemma create_pipe_failed base b port w be :
  bevs w !! b = Some (Some be) ->
  net_connect w (port mod 2 ^ 16) < -1 ->
  create_pipe cfg base (Some b) port w =
  Ok tt {| bevs := <[b := None]> (<[fresh (dom (bevs w)) := None]> (bevs w));
           ctxs := ctxs w;
           connects := connects w ++ [(fresh (dom (bevs w)), loopback port)];
           closed_fds := closed_fds w ++ closes be;
           sockopts := sockopts w;
           out_log := out_log w; err_log := err_log w;
           net_connect := net_connect w |}.
Proof.
  intros Hb Hfd. unfold create_pipe, htons, htonl.
  pose proof (fresh_bev_ne _ _ _ Hb) as Hne. mrun.
  destruct (Z.ltb_spec (net_connect w (port mod 2 ^ 16)) (-1)) as [_|?]; [|lia].
  mrun. unfold world_with_bevs, world_with_connects, world_with_closed; simpl.
  rewrite !insert_insert_eq, ?app_nil_r. reflexivity.
Qed.

(** [connect] fails at once: libevent runs [back_connection], which frees
    the new bufferevent and the client; then [create_pipe] frees the new
    bufferevent again. *)
Lemma create_pipe_double_free base b port w be :
  bevs w !! b = Some (Some be) ->
  net_connect w (port mod 2 ^ 16) = -1 ->
  create_pipe cfg base (Some b) port w = Fault UseAfterFree.
Proof.
  intros Hb Hfd. unfold create_pipe, htons, htonl.
  pose proof (fresh_bev_ne _ _ _ Hb) as Hne. mrun.
  rewrite Hfd. simpl.
  unfold run_eventcb_error. mrun. unfold back_connection. mrun.
  reflexivity.
Qed.

(** [initial_read] decides, then hands the client over to [create_pipe]. *)
Lemma initial_read_hands_over b ctx w be port input' :
  bevs w !! b = Some (Some be) ->
  choose_port cfg (InputOf b) w = Ok port (buffered input' b be w) ->
  initial_read cfg b ctx w =
  create_pipe cfg ctx (Some b) port
    (world_with_bevs (<[b := Some (handed_over input' be)]> (bevs w)) w).
Proof.
  intros Hb Hc. unfold initial_read.
  erewrite bind_ok; [| unfold bufferevent_get_input; mrun; reflexivity].
  erewrite bind_ok; [| exact Hc].
  unfold buffered. mrun.
  f_equal. unfold world_with_bevs; simpl.
  rewrite !insert_insert_eq. reflexivity.
Qed.

Lemma dom_insert_live (m : gmap nat (option bufferevent)) b v v' :
  m !! b = Some v -> dom (<[b := v']> m) = dom m.
Proof.
  intros H. apply dom_insert_lookup_L. eauto.
Qed.

Lemma initial_read_pending b ctx w be port input' :
  bevs w !! b = Some (Some be) ->
  choose_port cfg (InputOf b) w = Ok port (buffered input' b be w) ->
  0 <= net_connect w (port mod 2 ^ 16) ->
  initial_read cfg b ctx w =
  Ok tt (pending_world w b (handed_over input' be) port).
Proof.
  intros Hb Hc Hfd. rewrite (initial_read_hands_over _ _ _ _ _ _ Hb Hc).
  erewrite create_pipe_pending; simpl; [| apply lookup_insert_eq | done].
  rewrite (dom_insert_live _ _ _ _ Hb). reflexivity.
Qed.

Lemma initial_read_failed b ctx w be port input' :
  bevs w !! b = Some (Some be) ->
  choose_port cfg (InputOf b) w = Ok port (buffered input' b be w) ->
  net_connect w (port mod 2 ^ 16) < -1 ->
  initial_read cfg b ctx w =
  Ok tt (failed_world w b (handed_over input' be) port).
Proof.
  intros Hb Hc Hfd. rewrite (initial_read_hands_over _ _ _ _ _ _ Hb Hc).
  erewrite create_pipe_failed; simpl; [| apply lookup_insert_eq | done].
  rewrite (dom_insert_live _ _ _ _ Hb). unfold failed_world. f_equal.
  pose proof (fresh_bev_ne _ _ _ Hb) as Hne.
  rewrite (insert_insert_ne _ (fresh (dom (bevs w))) b) by done.
  rewrite insert_insert_eq. reflexivity.
Qed.

Lemma initial_read_double_free b ctx w be port input' :
  bevs w !! b = Some (Some be) ->
  choose_port cfg (InputOf b) w = Ok port (buffered input' b be w) ->
  net_connect w (port mod 2 ^ 16) = -1 ->
  initial_read cfg b ctx w = Fault UseAfterFree.
Proof.
  intros Hb Hc Hfd. rewrite (initial_read_hands_over _ _ _ _ _ _ Hb Hc).
  erewrite create_pipe_double_free; simpl; [done | apply lookup_insert_eq | done].
Qed.

(** Run by a failing [connect], a callback does what it does when the
    event loop reports [BEV_EVENT_ERROR]. *)
Lemma run_eventcb_error_agrees b be w :
  bevs w !! b = Some (Some be) ->
  run_eventcb_error cfg b w = run_eventcb cfg b BEV_EVENT_ERROR be w.
Proof.
  intros Hb. unfold run_eventcb_error, run_eventcb, get_bev, bind. rewrite Hb.
  unfold ret. destruct (bev_eventcb be) as [[]|]; reflexivity.
Qed.

End Handshake.

(* ===================================================================== *)
(** ** The pipe: one event at a time, then whole runs *)
(* ===================================================================== *)

Section Pipe.

Variable cfg : config.
Variable FD_SETSIZE : Z.

Lemma piped_sym w a b ca cb be_a be_b fa fb :
  piped w a b ca cb be_a be_b fa fb -> piped w b a cb ca be_b be_a fb fa.
Proof. unfold piped. intuition. Qed.

Lemma create_contexts_exec forward backward w :
  exists r0 r1,
    r0 <> r1 /\
    create_contexts forward backward w =
    Ok (r0, r1)
       (world_with_ctxs
          (<[r1 := Some {| os_bev := forward; os_pair := Some r0;
                           other_timedout := false |}]>
             (<[r0 := Some {| os_bev := backward; os_pair := Some r1;
                              other_timedout := false |}]> (ctxs w))) w).
Proof.
  unfold create_contexts.
  unfold bind at 1, malloc_otherside at 1.
  set (r0 := fresh (dom (ctxs w))).
  unfold bind at 1, malloc_otherside at 1. simpl.
  set (r1 := fresh (dom (<[r0 := _]> (ctxs w)))).
  assert (r1 <> r0) as Hne by (eapply fresh_ctx_ne, lookup_insert_eq).
  clearbody r0 r1. exists r0, r1. split; [done|]. mrun.
  unfold world_with_ctxs; simpl. do 2 f_equal.
  apply map_eq. intros k. rewrite !lookup_insert.
  repeat case_decide; congruence || reflexivity.
Qed.

Lemma back_connection_pairs w o b be_o be_b :
  connecting w o b be_o be_b ->
  exists w' co cb be_o' be_b',
    dispatch cfg FD_SETSIZE (Signal b BEV_EVENT_CONNECTED) w = Ok tt w' /\
    piped w' o b co cb be_o' be_b' false false /\
    bev_input be_o' = [] /\
    bev_output be_b' = bev_output be_b ++ bev_input be_o /\
    bev_sent be_b' = bev_sent be_b /\
    bev_input be_b' = bev_input be_b /\
    bev_output be_o' = bev_output be_o /\
    bev_sent be_o' = bev_sent be_o /\
    bev_wm_read be_b' = (0, MAX_RECV_BUF_DEFAULT) /\
    has_flag (bev_enabled be_o') EV_READ = true /\
    has_flag (bev_enabled be_b') EV_READ = true /\
    bev_timeout_read be_o' = Some (default_timeout cfg) /\
    bev_timeout_read be_b' = Some (default_timeout cfg) /\
    bev_timeout_write be_o' = None /\
    bev_timeout_write be_b' = None.
Proof.
  intros (Hne & Ho & Hb & Hcb & Harg).
  unfold dispatch, is_live. rewrite Hb.
  unfold run_eventcb. rewrite Hcb, Harg.
  unfold back_connection.
  change (has_flag BEV_EVENT_CONNECTED BEV_EVENT_CONNECTED) with true.
  change (stopped_by BEV_EVENT_CONNECTED) with 0.
  erewrite bind_ok; [| unfold bufferevent_disable; mrun; reflexivity].
  erewrite bind_ok; [| reflexivity]. cbv beta iota.
  match goal with |- context [bind (create_contexts ?f ?bk) _ ?w0] =>
    destruct (create_contexts_exec f bk w0) as (r0 & r1 & Hr & Hcc) end.
  erewrite bind_ok; [| exact Hcc]. clear Hcc.
  mrun.
  eexists _, r0, r1, _, _. split; [reflexivity|].
  split.
  { unfold piped, pipe_callbacks. simpl. mlookup. 
    repeat split; (done || congruence). }
  simpl. repeat split; try reflexivity; apply has_flag_lor; reflexivity.
Qed.

(** A read on a live link: everything read goes to the peer's output, and
    the record that this end timed out is cleared. *)
Lemma step_read_piped w a b ca cb be_a be_b fa fb data :
  piped w a b ca cb be_a be_b fa fb ->
  exists w',
    dispatch cfg FD_SETSIZE (Readable a data) w = Ok tt w' /\
    piped w' a b ca cb (bev_with_input [] be_a)
      (bev_with_output (bev_output be_b ++ (bev_input be_a ++ data)) be_b)
      fa false.
Proof.
  intros (Hab & Hc & Ha & Hb & Hcba & Hcbb & Hca & Hcb).
  open_dispatch. unfold pipe_read. mrun.
  eexists. split; [reflexivity|]. close_state.
Qed.

Lemma step_write_piped w a b ca cb be_a be_b fa fb n :
  piped w a b ca cb be_a be_b fa fb ->
  exists w',
    dispatch cfg FD_SETSIZE (Writable a n) w = Ok tt w' /\
    piped w' a b ca cb (flushed n be_a) be_b fa fb.
Proof.
  intros (Hab & Hc & Ha & Hb & Hcba & Hcbb & Hca & Hcb).
  open_dispatch. mrun.
  eexists. split; [reflexivity|]. close_state.
Qed.

(** A timeout on one end while the other has none on record: the end is
    kept, reading again, and the timeout is put on record. *)
Lemma step_timeout_first w a b ca cb be_a be_b fb what :
  piped w a b ca cb be_a be_b false fb ->
  has_flag what BEV_EVENT_TIMEOUT = true ->
  exists w',
    dispatch cfg FD_SETSIZE (Signal a what) w = Ok tt w' /\
    piped w' a b ca cb
      (bev_with_enabled
         (Z.lor (Z.ldiff (bev_enabled be_a) (stopped_by what)) EV_READ) be_a)
      be_b false true.
Proof.
  intros (Hab & Hc & Ha & Hb & Hcba & Hcbb & Hca & Hcb) Hto.
  open_dispatch. unfold pipe_error, pipe_error_timeout. rewrite Hto. mrun.
  eexists. split; [reflexivity|]. close_state.
Qed.

(** An error on one end, or a timeout when the other end has one on
    record: the end is closed and the survivor drains. *)
Lemma step_close w a b ca cb be_a be_b fa fb what :
  piped w a b ca cb be_a be_b fa fb ->
  has_flag what BEV_EVENT_TIMEOUT = false \/ fa = true ->
  exists w',
    dispatch cfg FD_SETSIZE (Signal a what) w = Ok tt w' /\
    draining w' b cb a ca (granted_grace be_b) /\
    closed_fds w' = closed_fds w ++ closes be_a.
Proof.
  intros (Hab & Hc & Ha & Hb & Hcba & Hcbb & Hca & Hcb) Hwhy.
  open_dispatch. unfold pipe_error, pipe_error_timeout, pipe_error_close.
  destruct (has_flag what BEV_EVENT_TIMEOUT) eqn:Hto.
  - destruct Hwhy as [?| ->]; [done|]. mrun.
    eexists. split; [reflexivity|]. split; [close_state|]. reflexivity.
  - mrun.
    eexists. split; [reflexivity|]. split; [close_state|]. reflexivity.
Qed.

Lemma step_read_draining w x cx y cy be_x data :
  draining w x cx y cy be_x ->
  exists w',
    dispatch cfg FD_SETSIZE (Readable x data) w = Ok tt w' /\
    draining w' x cx y cy
      (bev_with_input (evbuffer_drain (bev_input be_x ++ data) SIZE_MAX) be_x).
Proof.
  intros (Hxy & Hc & Hx & Hcbx & (f & Hcx) & Hy & Hcy).
  open_dispatch. unfold pipe_read. mrun.
  eexists. split; [reflexivity|]. close_state.
Qed.

Lemma step_write_draining w x cx y cy be_x n :
  draining w x cx y cy be_x ->
  exists w',
    dispatch cfg FD_SETSIZE (Writable x n) w = Ok tt w' /\
    draining w' x cx y cy (flushed n be_x).
Proof.
  intros (Hxy & Hc & Hx & Hcbx & (f & Hcx) & Hy & Hcy).
  open_dispatch. mrun.
  eexists. split; [reflexivity|]. close_state.
Qed.

(** Any event callback on the survivor frees it, whatever the flags. *)
Lemma step_signal_draining w x cx y cy be_x what :
  draining w x cx y cy be_x ->
  exists w',
    dispatch cfg FD_SETSIZE (Signal x what) w = Ok tt w' /\
    closed w' x y cx cy /\
    closed_fds w' = closed_fds w ++ closes be_x.
Proof.
  intros (Hxy & Hc & Hx & Hcbx & (f & Hcx) & Hy & Hcy).
  open_dispatch. unfold pipe_error, pipe_error_timeout, pipe_error_close.
  destruct (has_flag what BEV_EVENT_TIMEOUT) eqn:Hto; mrun;
    (eexists; split; [reflexivity|]; split; [close_state|]); reflexivity.
Qed.

(** Nothing is delivered to a freed bufferevent. *)
Lemma step_dead w x ev :
  bevs w !! x = Some None ->
  match ev with
  | Incoming _ => False
  | Readable y _ | Writable y _ | Signal y _ => y = x
  end ->
  dispatch cfg FD_SETSIZE ev w = Ok tt w.
Proof.
  intros Hx. destruct ev; [done| | |]; intros ->;
    unfold dispatch, is_live; by rewrite Hx.
Qed.

Lemma on_link_targets a b ev : on_link a b ev <-> targets a ev \/ targets b ev.
Proof. destruct ev; simpl; intuition congruence. Qed.

Lemma closed_sym w a b ca cb : closed w a b ca cb -> closed w b a cb ca.
Proof. unfold closed. intuition. Qed.

Lemma unpaired_sym w a b ca cb : unpaired w a b ca cb -> unpaired w b a cb ca.
Proof. unfold unpaired. intros [?|[?|?]]; auto using closed_sym. Qed.

Lemma timeout_pending_other init x y ev :
  targets y ev -> y <> x -> timeout_pending init x [ev] = init.
Proof.
  destruct ev; simpl; try done; intros -> Hne; by rewrite decide_False.
Qed.

Lemma timeout_pending_cons init x ev evs :
  timeout_pending init x (ev :: evs) =
  timeout_pending (timeout_pending init x [ev]) x evs.
Proof. destruct ev; reflexivity. Qed.

(** One event on the end [a] of a live link. *)
Lemma piped_step_a w a b ca cb be_a be_b fa fb ev :
  piped w a b ca cb be_a be_b fa fb ->
  targets a ev ->
  exists w',
    dispatch cfg FD_SETSIZE ev w = Ok tt w' /\
    ((exists be_a' be_b',
        piped w' a b ca cb be_a' be_b' fa (timeout_pending fb a [ev])) \/
     unpaired w' a b ca cb).
Proof.
  intros Hp Ht. destruct ev as [fd|x data|x n|x what]; simpl in Ht; [done| | |];
    subst x; unfold timeout_pending; rewrite ?decide_True by done.
  - destruct (step_read_piped _ _ _ _ _ _ _ _ _ data Hp) as (w' & Hd & Hp').
    exists w'. split; [done|]. left. eauto.
  - destruct (step_write_piped _ _ _ _ _ _ _ _ _ n Hp) as (w' & Hd & Hp').
    exists w'. split; [done|]. left. eauto.
  - destruct (has_flag what BEV_EVENT_TIMEOUT) eqn:Hto; [destruct fa|].
    + destruct (step_close _ _ _ _ _ _ _ _ _ what Hp) as (w' & Hd & Hdr & _);
        [by right|].
      exists w'. split; [done|]. right. right. left. eauto.
    + destruct (step_timeout_first _ _ _ _ _ _ _ _ what Hp Hto) as (w' & Hd & Hp').
      exists w'. split; [done|]. left. eauto.
    + destruct (step_close _ _ _ _ _ _ _ _ _ what Hp) as (w' & Hd & Hdr & _);
        [by left|].
      exists w'. split; [done|]. right. right. left. eauto.
Qed.

Lemma piped_step w a b ca cb be_a be_b fa fb ev :
  piped w a b ca cb be_a be_b fa fb ->
  on_link a b ev ->
  exists w',
    dispatch cfg FD_SETSIZE ev w = Ok tt w' /\
    ((exists be_a' be_b',
        piped w' a b ca cb be_a' be_b'
          (timeout_pending fa b [ev]) (timeout_pending fb a [ev])) \/
     unpaired w' a b ca cb).
Proof.
  intros Hp Hon. pose proof Hp as (Hab & _).
  apply on_link_targets in Hon as [Ht|Ht].
  - destruct (piped_step_a _ _ _ _ _ _ _ _ _ _ Hp Ht) as (w' & Hd & H).
    exists w'. split; [done|].
    rewrite (timeout_pending_other fa b a) by done. exact H.
  - destruct (piped_step_a _ _ _ _ _ _ _ _ _ _ (piped_sym _ _ _ _ _ _ _ _ _ Hp) Ht)
      as (w' & Hd & H).
    exists w'. split; [done|].
    rewrite (timeout_pending_other fb a b) by done.
    destruct H as [(be_b' & be_a' & H)|H].
    + left. exists be_a', be_b'. by apply piped_sym.
    + right. by apply unpaired_sym.
Qed.

Lemma unpaired_step w a b ca cb ev :
  unpaired w a b ca cb ->
  on_link a b ev ->
  exists w', dispatch cfg FD_SETSIZE ev w = Ok tt w' /\ unpaired w' a b ca cb.
Proof.
  assert (forall a b ca cb be_a,
             draining w a ca b cb be_a -> on_link a b ev ->
             exists w', dispatch cfg FD_SETSIZE ev w = Ok tt w' /\
                        unpaired w' a b ca cb) as Hdrain.
  { clear. intros a b ca cb be_a Hdr Hon.
    apply on_link_targets in Hon as [Ht|Ht].
    - destruct ev as [fd|x data|x n|x what]; simpl in Ht; [done| | |]; subst x.
      + destruct (step_read_draining _ _ _ _ _ _ data Hdr) as (w' & Hd & H).
        exists w'. split; [done|]. left. eauto.
      + destruct (step_write_draining _ _ _ _ _ _ n Hdr) as (w' & Hd & H).
        exists w'. split; [done|]. left. eauto.
      + destruct (step_signal_draining _ _ _ _ _ _ what Hdr) as (w' & Hd & H & _).
        exists w'. split; [done|]. right. right. done.
    - exists w. split; [| left; eauto].
      apply (step_dead _ b); [apply Hdr | done]. }
  intros [(be_a & Hdr)|[(be_b & Hdr)|Hcl]] Hon.
  - eauto.
  - destruct (Hdrain b a cb ca be_b Hdr) as (w' & Hd & H).
    { destruct ev; simpl in *; tauto. }
    exists w'. split; [done|]. by apply unpaired_sym.
  - exists w. split; [| right; right; done].
    destruct Hcl as (Ha & Hb & _).
    apply on_link_targets in Hon as [Ht|Ht];
      [apply (step_dead _ a) | apply (step_dead _ b)]; done.
Qed.

Lemma unpaired_not_piped w a b ca cb be_a be_b fa fb :
  unpaired w a b ca cb -> piped w a b ca cb be_a be_b fa fb -> False.
Proof.
  intros Hu (_ & _ & Ha & Hb & _).
  destruct Hu as [(? & Hdr)|[(? & Hdr)|Hcl]].
  - destruct Hdr as (_ & _ & _ & _ & _ & Hy & _). congruence.
  - destruct Hdr as (_ & _ & _ & _ & _ & Hy & _). congruence.
  - destruct Hcl as (Hx & _). congruence.
Qed.

Lemma run_cons ev evs w :
  run cfg FD_SETSIZE (ev :: evs) w =
  match dispatch cfg FD_SETSIZE ev w with
  | Ok _ w' => run cfg FD_SETSIZE evs w'
  | Fault f => Fault f
  end.
Proof. reflexivity. Qed.

Lemma run_app evs1 evs2 w :
  run cfg FD_SETSIZE (evs1 ++ evs2) w =
  match run cfg FD_SETSIZE evs1 w with
  | Ok _ w' => run cfg FD_SETSIZE evs2 w'
  | Fault f => Fault f
  end.
Proof.
  revert w. induction evs1 as [|ev evs1 IH]; intros w; [reflexivity|].
  simpl app. rewrite !run_cons.
  destruct (dispatch cfg FD_SETSIZE ev w); [apply IH | reflexivity].
Qed.

Lemma unpaired_run evs w a b ca cb :
  unpaired w a b ca cb ->
  Forall (on_link a b) evs ->
  exists w', run cfg FD_SETSIZE evs w = Ok tt w' /\ unpaired w' a b ca cb.
Proof.
  revert w. induction evs as [|ev evs IH]; intros w Hu Hon.
  - exists w. done.
  - inversion Hon as [|? ? Hev Hevs]; subst.
    destruct (unpaired_step _ _ _ _ _ _ Hu Hev) as (w1 & Hd & Hu1).
    rewrite run_cons, Hd. by apply IH.
Qed.

(** A paired link never faults, whatever happens on its two ends, and
    stays in one of its states. *)
Lemma link_run evs w a b ca cb :
  link_ok w a b ca cb ->
  Forall (on_link a b) evs ->
  exists w', run cfg FD_SETSIZE evs w = Ok tt w' /\ link_ok w' a b ca cb.
Proof.
  assert (forall w, unpaired w a b ca cb -> link_ok w a b ca cb) as Hul.
  { unfold unpaired, link_ok. intuition. }
  revert w. induction evs as [|ev evs IH]; intros w Hl Hon.
  - exists w. done.
  - inversion Hon as [|? ? Hev Hevs]; subst. rewrite run_cons.
    destruct Hl as [(be_a & be_b & fa & fb & Hp)|Hu].
    + destruct (piped_step _ _ _ _ _ _ _ _ _ _ Hp Hev) as (w1 & -> & [H|H]).
      * destruct H as (? & ? & H). apply IH; [left; eauto 10 | done].
      * apply IH; auto.
    + destruct (unpaired_step w a b ca cb ev) as (w1 & -> & H); auto.
Qed.

(** While the link stays paired, each flag tells whether the latest of the
    reads and timeouts of the peer is a timeout. *)
Lemma piped_flags evs w w' a b ca cb be_a be_b fa fb be_a' be_b' fa' fb' :
  piped w a b ca cb be_a be_b fa fb ->
  Forall (on_link a b) evs ->
  run cfg FD_SETSIZE evs w = Ok tt w' ->
  piped w' a b ca cb be_a' be_b' fa' fb' ->
  fa' = timeout_pending fa b evs /\ fb' = timeout_pending fb a evs.
Proof.
  revert w be_a be_b fa fb.
  induction evs as [|ev evs IH]; intros w be_a be_b fa fb Hp Hon Hrun Hp'.
  - injection Hrun as <-.
    destruct Hp as (_ & _ & _ & _ & _ & _ & Hca & Hcb).
    destruct Hp' as (_ & _ & _ & _ & _ & _ & Hca' & Hcb').
    simpl. split; congruence.
  - inversion Hon as [|? ? Hev Hevs]; subst.
    rewrite run_cons in Hrun.
    destruct (piped_step _ _ _ _ _ _ _ _ _ _ Hp Hev) as (w1 & Hd & [H|H]);
      rewrite Hd in Hrun.
    + destruct H as (be_a1 & be_b1 & Hp1).
      rewrite (timeout_pending_cons fa), (timeout_pending_cons fb). eauto.
    + exfalso.
      destruct (unpaired_run _ _ _ _ _ _ H Hevs) as (w2 & Hrun2 & Hu2).
      rewrite Hrun in Hrun2. injection Hrun2 as ->.
      eapply unpaired_not_piped; eauto.
Qed.

(** What a pending timeout means in terms of the run. *)
Lemma timeout_pending_true x evs :
  timeout_pending false x evs = true ->
  exists evs1 what evs2,
    evs = evs1 ++ Signal x what :: evs2 /\
    has_flag what BEV_EVENT_TIMEOUT = true /\
    Forall (fun ev => ~ is_read_of x ev) evs2.
Proof.
  induction evs as [|ev evs IH] using rev_ind; [done|].
  assert (forall init l e, timeout_pending init x (l ++ [e]) =
                           timeout_pending (timeout_pending init x l) x [e]) as Hsnoc.
  { intros init l. revert init. induction l as [|e' l IHl]; intros init e; [done|].
    simpl app. rewrite timeout_pending_cons, IHl.
    by rewrite <- timeout_pending_cons. }
  rewrite Hsnoc. intros H.
  assert (forall e, ~ is_read_of x e -> timeout_pending false x evs = true ->
                    exists evs1 what evs2,
                      evs ++ [e] = evs1 ++ Signal x what :: evs2 /\
                      has_flag what BEV_EVENT_TIMEOUT = true /\
                      Forall (fun ev => ~ is_read_of x ev) evs2) as Hkeep.
  { intros e He Hp. destruct (IH Hp) as (evs1 & what & evs2 & -> & Hw & Hf).
    exists evs1, what, (evs2 ++ [e]). split; [by rewrite <- app_assoc|].
    split; [done|]. apply Forall_app. split; [done|]. by constructor. }
  destruct ev as [fd|y data|y n|y what]; simpl in H.
  - apply Hkeep; [simpl; tauto | done].
  - destruct (decide (y = x)) as [->|Hne]; [done|].
    apply Hkeep; [simpl; congruence | done].
  - apply Hkeep; [simpl; tauto | done].
  - destruct (decide (y = x)) as [->|Hne].
    + destruct (has_flag what BEV_EVENT_TIMEOUT) eqn:Hw.
      * exists evs, what, []. split; [done|]. split; [done|]. constructor.
      * apply Hkeep; [simpl; tauto | done].
    + apply Hkeep; [simpl; tauto | done].
Qed.

End Pipe.

(* ===================================================================== *)
(** ** The pipe: the bytes on their way *)
(* ===================================================================== *)

Section Fidelity.

Variable cfg : config.
Variable FD_SETSIZE : Z.

Lemma arrived_cons x ev evs :
  arrived x (ev :: evs) = arrived x [ev] ++ arrived x evs.
Proof.
  destruct ev; simpl; try reflexivity.
  destruct (decide (b = x)); simpl; by rewrite ?app_nil_r, <- ?app_assoc.
Qed.

Lemma flushed_stream n be :
  bev_sent (flushed n be) ++ evbuffer_bytes (bev_output (flushed n be)) =
  bev_sent be ++ evbuffer_bytes (bev_output be).
Proof.
  unfold flushed. simpl. rewrite evbuffer_drain_bytes by lia.
  rewrite Nat2Z.id, <- app_assoc, take_drop. reflexivity.
Qed.

(** One data event on the end [a]: the bytes on their way in either
    direction stay as they are, and those read from [a] are added at the
    end of those on their way to [b]. *)
Lemma piped_data_step_a w a b ca cb be_a be_b fa fb ev :
  piped w a b ca cb be_a be_b fa fb ->
  data_on a ev ->
  exists w' be_a' be_b' fa' fb',
    dispatch cfg FD_SETSIZE ev w = Ok tt w' /\
    piped w' a b ca cb be_a' be_b' fa' fb' /\
    toward be_b' be_a' = toward be_b be_a ++ arrived a [ev] /\
    toward be_a' be_b' = toward be_a be_b ++ arrived b [ev] /\
    (bev_input be_a = [] -> bev_input be_a' = []) /\
    (bev_input be_b = [] -> bev_input be_b' = []).
Proof.
  intros Hp Ht. pose proof Hp as (Hab & _).
  destruct ev as [fd|x data|x n|x what]; simpl in Ht; try done; subst x.
  - destruct (step_read_piped cfg FD_SETSIZE _ _ _ _ _ _ _ _ _ data Hp)
      as (w' & Hd & Hp').
    do 5 eexists. split; [exact Hd|]. split; [exact Hp'|].
    unfold toward, arrived. rewrite decide_True, decide_False by done. simpl.
    unfold evbuffer_bytes. rewrite !concat_app, !app_nil_r, <- !app_assoc.
    done.
  - destruct (step_write_piped cfg FD_SETSIZE _ _ _ _ _ _ _ _ _ n Hp)
      as (w' & Hd & Hp').
    do 5 eexists. split; [exact Hd|]. split; [exact Hp'|].
    unfold toward. simpl arrived. rewrite !app_nil_r.
    rewrite !app_assoc, flushed_stream. unfold flushed. simpl. done.
Qed.

(** One event of any kind on the end [a]: either the link stays paired,
    and then nothing on its way was lost or added but what was read, or an
    end was freed. *)
Lemma piped_stream_step_a w a b ca cb be_a be_b fa fb ev :
  piped w a b ca cb be_a be_b fa fb ->
  targets a ev ->
  exists w',
    dispatch cfg FD_SETSIZE ev w = Ok tt w' /\
    ((exists be_a' be_b' fa' fb',
        piped w' a b ca cb be_a' be_b' fa' fb' /\
        toward be_b' be_a' = toward be_b be_a ++ arrived a [ev] /\
        toward be_a' be_b' = toward be_a be_b ++ arrived b [ev] /\
        (bev_input be_a = [] -> bev_input be_a' = []) /\
        (bev_input be_b = [] -> bev_input be_b' = [])) \/
     unpaired w' a b ca cb).
Proof.
  intros Hp Ht.
  destruct ev as [fd|x data|x n|x what]; simpl in Ht; [done| | |]; subst x.
  - destruct (piped_data_step_a _ _ _ _ _ _ _ _ _ (Readable a data) Hp)
      as (w' & be_a' & be_b' & fa' & fb' & Hd & H); [done|].
    exists w'. split; [done|]. left. eauto 10.
  - destruct (piped_data_step_a _ _ _ _ _ _ _ _ _ (Writable a n) Hp)
      as (w' & be_a' & be_b' & fa' & fb' & Hd & H); [done|].
    exists w'. split; [done|]. left. eauto 10.
  - destruct (has_flag what BEV_EVENT_TIMEOUT) eqn:Hto; [destruct fa|].
    + destruct (step_close cfg FD_SETSIZE _ _ _ _ _ _ _ _ _ what Hp)
        as (w' & Hd & Hdr & _); [by right|].
      exists w'. split; [done|]. right. right. left. eauto.
    + destruct (step_timeout_first cfg FD_SETSIZE _ _ _ _ _ _ _ _ what Hp Hto)
        as (w' & Hd & Hp').
      exists w'. split; [done|]. left. do 4 eexists. split; [exact Hp'|].
      unfold toward. simpl. rewrite !app_nil_r. done.
    + destruct (step_close cfg FD_SETSIZE _ _ _ _ _ _ _ _ _ what Hp)
        as (w' & Hd & Hdr & _); [by left|].
      exists w'. split; [done|]. right. right. left. eauto.
Qed.

(** Any run on the two ends of a paired link: if the link is still paired
    at the end, the bytes on their way to each end are exactly those that
    were on their way at the start, followed by those read from the peer. *)
Lemma piped_stream_run evs w a b ca cb be_a be_b fa fb :
  piped w a b ca cb be_a be_b fa fb ->
  Forall (on_link a b) evs ->
  exists w',
    run cfg FD_SETSIZE evs w = Ok tt w' /\
    link_ok w' a b ca cb /\
    forall be_a' be_b' fa' fb',
      piped w' a b ca cb be_a' be_b' fa' fb' ->
      toward be_b' be_a' = toward be_b be_a ++ arrived a evs /\
      toward be_a' be_b' = toward be_a be_b ++ arrived b evs /\
      (bev_input be_a = [] -> bev_input be_a' = []) /\
      (bev_input be_b = [] -> bev_input be_b' = []).
Proof.
  revert w be_a be_b fa fb.
  induction evs as [|ev evs IH]; intros w be_a be_b fa fb Hp Hon.
  - exists w. split; [done|]. split; [left; eauto 10|].
    intros be_a' be_b' fa' fb' (_ & _ & Ha' & Hb' & _).
    destruct Hp as (_ & _ & Ha & Hb & _).
    assert (be_a' = be_a) as -> by congruence.
    assert (be_b' = be_b) as -> by congruence.
    simpl. by rewrite !app_nil_r.
  - inversion Hon as [|? ? Hev Hevs]; subst. rewrite run_cons.
    assert (exists w1,
               dispatch cfg FD_SETSIZE ev w = Ok tt w1 /\
               ((exists be_a1 be_b1 fa1 fb1,
                   piped w1 a b ca cb be_a1 be_b1 fa1 fb1 /\
                   toward be_b1 be_a1 = toward be_b be_a ++ arrived a [ev] /\
                   toward be_a1 be_b1 = toward be_a be_b ++ arrived b [ev] /\
                   (bev_input be_a = [] -> bev_input be_a1 = []) /\
                   (bev_input be_b = [] -> bev_input be_b1 = [])) \/
                unpaired w1 a b ca cb))
      as (w1 & -> & [H|Hu]).
    { apply on_link_targets in Hev as [Ht|Ht].
      - by eapply piped_stream_step_a.
      - destruct (piped_stream_step_a _ _ _ _ _ _ _ _ _ _
                    (piped_sym _ _ _ _ _ _ _ _ _ Hp) Ht) as (w1 & Hd & [H|Hu]).
        + destruct H as (be_b1 & be_a1 & fb1 & fa1 & Hp1 & H1 & H2 & H3 & H4).
          exists w1. split; [done|]. left.
          exists be_a1, be_b1, fa1, fb1.
          split; [by apply piped_sym|]. done.
        + exists w1. split; [done|]. right. by apply unpaired_sym. }
    + destruct H as (be_a1 & be_b1 & fa1 & fb1 & Hp1 & Hab1 & Hba1 & Hia1 & Hib1).
      destruct (IH _ _ _ _ _ Hp1 Hevs) as (w' & Hrun & Hl & Hend).
      exists w'. split; [done|]. split; [done|].
      intros be_a' be_b' fa' fb' Hp'.
      destruct (Hend _ _ _ _ Hp') as (Hab' & Hba' & Hia' & Hib').
      rewrite (arrived_cons a), (arrived_cons b), !app_assoc.
      rewrite <- Hab1, <- Hba1. repeat split; auto.
    + destruct (unpaired_run cfg FD_SETSIZE evs w1 a b ca cb Hu Hevs)
        as (w' & Hrun & Hu').
      exists w'. split; [done|].
      split; [unfold unpaired in Hu'; unfold link_ok; tauto|].
      intros be_a' be_b' fa' fb' Hp'. exfalso.
      by eapply unpaired_not_piped.
Qed.

(** Data in both directions and timeouts on the end [a] alone keep the
    link paired. *)
Lemma piped_quiet_run evs w a b ca cb be_a be_b fb :
  piped w a b ca cb be_a be_b false fb ->
  Forall (only_times_out a b) evs ->
  exists w' be_a' be_b' fb',
    run cfg FD_SETSIZE evs w = Ok tt w' /\
    piped w' a b ca cb be_a' be_b' false fb'.
Proof.
  revert w be_a be_b fb.
  induction evs as [|ev evs IH]; intros w be_a be_b fb Hp Hon.
  - exists w, be_a, be_b, fb. done.
  - inversion Hon as [|? ? Hev Hevs]; subst. rewrite run_cons.
    pose proof (piped_sym _ _ _ _ _ _ _ _ _ Hp) as Hps.
    assert (exists w1 be_a1 be_b1 fb1,
               dispatch cfg FD_SETSIZE ev w = Ok tt w1 /\
               piped w1 a b ca cb be_a1 be_b1 false fb1)
      as (w1 & be_a1 & be_b1 & fb1 & -> & Hp1).
    { destruct ev as [fd|x data|x n|x what]; simpl in Hev; [done| | |].
      - destruct Hev as [->| ->].
        + destruct (step_read_piped cfg FD_SETSIZE _ _ _ _ _ _ _ _ _ data Hp)
            as (w1 & Hd & Hp1). eauto 10.
        + destruct (step_read_piped cfg FD_SETSIZE _ _ _ _ _ _ _ _ _ data Hps)
            as (w1 & Hd & Hp1). apply piped_sym in Hp1. eauto 10.
      - destruct Hev as [->| ->].
        + destruct (step_write_piped cfg FD_SETSIZE _ _ _ _ _ _ _ _ _ n Hp)
            as (w1 & Hd & Hp1). eauto 10.
        + destruct (step_write_piped cfg FD_SETSIZE _ _ _ _ _ _ _ _ _ n Hps)
            as (w1 & Hd & Hp1). apply piped_sym in Hp1. eauto 10.
      - destruct Hev as [-> Hto].
        destruct (step_timeout_first cfg FD_SETSIZE _ _ _ _ _ _ _ _ what Hp Hto)
          as (w1 & Hd & Hp1). eauto 10. }
    by eapply IH.
Qed.

End Fidelity.

(* ===================================================================== *)
(** ** The properties of the proxy *)
(* ===================================================================== *)

Section Claims.

Variable cfg : config.
Variable FD_SETSIZE : Z.

Lemma knock_in_first_chain_dec input :
  knock_in_first_chain cfg input \/ ~ knock_in_first_chain cfg input.
Proof.
  destruct input as [|c rest]; simpl; [tauto|].
  destruct (Z_lt_dec 0 (knock_size cfg)); [| tauto].
  destruct (Z_le_dec (knock_size cfg) (chain_off c)); [| tauto].
  destruct (decide (take (Z.to_nat (knock_size cfg)) c = knock_value cfg)); tauto.
Qed.

Lemma initial_error_timeout b what ctx w :
  has_flag what BEV_EVENT_TIMEOUT = true ->
  initial_error cfg b what ctx w = initial_read cfg b ctx (announce cfg w).
Proof.
  intros Hto. unfold initial_error, announce. rewrite Hto.
  destruct (verbose cfg); reflexivity.
Qed.

(** [initial_read] calls [create_pipe] for the chosen port; unless
    [connect] fails at once, the one attempt is on record when it returns. *)
Lemma initial_read_routes b ctx w be port input' :
  bevs w !! b = Some (Some be) ->
  choose_port cfg (InputOf b) w = Ok port (buffered input' b be w) ->
  initial_read cfg b ctx w =
    create_pipe cfg ctx (Some b) port
      (handing_over w b (handed_over input' be)) /\
  (net_connect w (port mod 2 ^ 16) <> -1 ->
   exists w',
     initial_read cfg b ctx w = Ok tt w' /\
     connects w' = connects w ++ [(fresh (dom (bevs w)), loopback port)] /\
     (0 <= net_connect w (port mod 2 ^ 16) ->
      w' = pending_world w b (handed_over input' be) port) /\
     (net_connect w (port mod 2 ^ 16) < -1 ->
      w' = failed_world w b (handed_over input' be) port)).
Proof.
  intros Hb Hc. split; [by apply initial_read_hands_over|].
  intros Hnet.
  destruct (Z.lt_ge_cases (net_connect w (port mod 2 ^ 16)) 0).
  - eexists. split; [apply initial_read_failed; [done | done | lia]|].
    split; [reflexivity|]. split; [lia | done].
  - eexists. split; [by apply initial_read_pending|].
    split; [reflexivity|]. split; [done | lia].
Qed.

(** The same when the detector leaves the world as it is. *)
Lemma initial_read_routes_normal b ctx w be :
  bevs w !! b = Some (Some be) ->
  choose_port cfg (InputOf b) w = Ok (normal_port cfg) w ->
  initial_read cfg b ctx w =
    create_pipe cfg ctx (Some b) (normal_port cfg)
      (handing_over w b (handed_over (bev_input be) be)) /\
  (net_connect w (normal_port cfg mod 2 ^ 16) <> -1 ->
   exists w',
     initial_read cfg b ctx w = Ok tt w' /\
     connects w' =
       connects w ++ [(fresh (dom (bevs w)), loopback (normal_port cfg))] /\
     (0 <= net_connect w (normal_port cfg mod 2 ^ 16) ->
      w' = pending_world w b (handed_over (bev_input be) be) (normal_port cfg))).
Proof.
  intros Hb Hc.
  destruct (initial_read_routes b ctx w be (normal_port cfg) (bev_input be) Hb)
    as (Hcp & Hret).
  { by rewrite (buffered_same _ _ _ Hb). }
  split; [done|]. intros Hnet.
  destruct (Hret Hnet) as (w' & Hir & Hcon & Hpend & _). eauto.
Qed.

Lemma announce_bevs w : bevs (announce cfg w) = bevs w.
Proof. unfold announce. by destruct (verbose cfg). Qed.

Lemma announce_connects w : connects (announce cfg w) = connects w.
Proof. unfold announce. by destruct (verbose cfg). Qed.

Lemma announce_net w : net_connect (announce cfg w) = net_connect w.
Proof. unfold announce. by destruct (verbose cfg). Qed.

(** C1 (as amended).  The detector decides on the bytes buffered when it
    runs.  With a usable configuration and a backend that accepts the
    connection: if the first chain of the buffer starts with the
    [knock_size > 0] bytes of the signature, the connection goes to the
    hidden port and, once the pipe is set up, the backend's output holds the
    buffered bytes without exactly that prefix; otherwise it goes to the
    normal port, the detector leaves the buffer as it is, and the backend's
    output holds the buffered bytes unchanged. *)
Theorem knock_routing (w : world) (b : nat) (be : bufferevent) (ctx : cb_arg) :
  config_ok cfg ->
  bevs w !! b = Some (Some be) ->
  (forall port, 0 <= net_connect w port) ->
  exists port w1 w2 co cb be_c be_n,
    initial_read cfg b ctx w = Ok tt w1 /\
    connects w1 = connects w ++ [(fresh (dom (bevs w)), loopback port)] /\
    dispatch cfg FD_SETSIZE (Signal (fresh (dom (bevs w))) BEV_EVENT_CONNECTED) w1
      = Ok tt w2 /\
    piped w2 b (fresh (dom (bevs w))) co cb be_c be_n false false /\
    bev_sent be_n = [] /\
    bev_input be_c = [] /\
    (knock_in_first_chain cfg (bev_input be) ->
     port = hidden_port cfg /\
     take (Z.to_nat (knock_size cfg)) (evbuffer_bytes (bev_input be))
       = knock_value cfg /\
     evbuffer_bytes (bev_output be_n)
       = drop (Z.to_nat (knock_size cfg)) (evbuffer_bytes (bev_input be))) /\
    (~ knock_in_first_chain cfg (bev_input be) ->
     port = normal_port cfg /\
     choose_port cfg (InputOf b) w = Ok port w /\
     evbuffer_bytes (bev_output be_n) = evbuffer_bytes (bev_input be)).
Proof.
  intros Hcfg Hb Hnet.
  set (nb := fresh (dom (bevs w))).
  assert (nb <> b) as Hnb by (eapply fresh_bev_ne; eauto).
  assert (forall port input',
            choose_port cfg (InputOf b) w = Ok port (buffered input' b be w) ->
            exists w1 w2 co cb be_c be_n,
              initial_read cfg b ctx w = Ok tt w1 /\
              connects w1 = connects w ++ [(nb, loopback port)] /\
              dispatch cfg FD_SETSIZE (Signal nb BEV_EVENT_CONNECTED) w1 = Ok tt w2 /\
              piped w2 b nb co cb be_c be_n false false /\
              bev_sent be_n = [] /\ bev_input be_c = [] /\
              bev_output be_n = input') as Hgo.
  { intros port input' Hc.
    pose proof (initial_read_pending cfg b ctx w be port input' Hb Hc (Hnet _)) as Hir.
    set (w1 := pending_world w b (handed_over input' be) port) in *.
    assert (connecting w1 b nb (handed_over input' be)
              (backend_new b (net_connect w (port mod 2 ^ 16)))) as Hcon.
    { unfold connecting, w1, pending_world; simpl. fold nb. mlookup.
      repeat split; congruence. }
    destruct (back_connection_pairs cfg FD_SETSIZE _ _ _ _ _ Hcon)
      as (w2 & co & cb & be_c & be_n & Hd & Hp & Hin & Hout & Hsent & _).
    exists w1, w2, co, cb, be_c, be_n.
    split; [done|]. split; [reflexivity|]. split; [done|]. split; [done|].
    split; [done|]. split; [done|]. rewrite Hout. reflexivity. }
  destruct (knock_in_first_chain_dec (bev_input be)) as [Hk|Hk].
  - destruct (Hgo _ _ (choose_port_knock cfg b w be Hb Hcfg Hk))
      as (w1 & w2 & co & cb & be_c & be_n & H1 & H2 & H3 & H4 & H5 & H6 & H8).
    exists (hidden_port cfg), w1, w2, co, cb, be_c, be_n.
    split_and!; try done.
    intros _. split; [done|]. rewrite H8. by apply knock_prefix.
  - pose proof (choose_port_no_knock cfg b w be Hb Hcfg Hk) as Hc.
    destruct (Hgo (normal_port cfg) (bev_input be))
      as (w1 & w2 & co & cb & be_c & be_n & H1 & H2 & H3 & H4 & H5 & H6 & H8).
    { by rewrite (buffered_same _ _ _ Hb). }
    exists (normal_port cfg), w1, w2, co, cb, be_c, be_n.
    split_and!; try done.
    intros _. split_and!; try done. by rewrite H8.
Qed.

(** C2.  On a live link, a timeout on one end [a] while the link has no
    timeout of the peer on record keeps both ends: [a] reads again and the
    only change on the link is the record that [a] timed out.  A read on
    [a] clears that record.  A timeout on [a] while a timeout of the peer
    [b] is on record closes [a].  And in every run from pairing during
    which the link stays paired, a timeout on [a] closes [a] only if the
    peer [b] timed out earlier in the run and has not read since. *)
Theorem timeout_corroboration (w : world) (a b ca cb : nat)
    (be_a be_b : bufferevent) (fa fb : bool) :
  piped w a b ca cb be_a be_b fa fb ->
  (forall what,
      fa = false -> has_flag what BEV_EVENT_TIMEOUT = true ->
      exists w',
        dispatch cfg FD_SETSIZE (Signal a what) w = Ok tt w' /\
        piped w' a b ca cb
          (bev_with_enabled
             (Z.lor (Z.ldiff (bev_enabled be_a) (stopped_by what)) EV_READ)
             be_a)
          be_b false true /\
        has_flag
          (Z.lor (Z.ldiff (bev_enabled be_a) (stopped_by what)) EV_READ)
          EV_READ = true /\
        closed_fds w' = closed_fds w) /\
  (forall data,
      exists w' be_a' be_b',
        dispatch cfg FD_SETSIZE (Readable a data) w = Ok tt w' /\
        piped w' a b ca cb be_a' be_b' fa false) /\
  (forall what,
      fa = true -> has_flag what BEV_EVENT_TIMEOUT = true ->
      exists w' be_b',
        dispatch cfg FD_SETSIZE (Signal a what) w = Ok tt w' /\
        draining w' b cb a ca be_b') /\
  (forall evs w1 be_a1 be_b1 fa1 fb1 what w2,
      fa = false -> fb = false ->
      Forall (on_link a b) evs ->
      run cfg FD_SETSIZE evs w = Ok tt w1 ->
      piped w1 a b ca cb be_a1 be_b1 fa1 fb1 ->
      has_flag what BEV_EVENT_TIMEOUT = true ->
      dispatch cfg FD_SETSIZE (Signal a what) w1 = Ok tt w2 ->
      bevs w2 !! a = Some None ->
      exists evs1 what' evs2,
        evs = evs1 ++ Signal b what' :: evs2 /\
        has_flag what' BEV_EVENT_TIMEOUT = true /\
        Forall (fun ev => ~ is_read_of b ev) evs2).
Proof.
  intros Hp. split_and!.
  - intros what -> Hto.
    unfold dispatch, is_live.
    pose proof Hp as (Hab & Hc & Ha & Hb & Hcba & Hcbb & Hca & Hcb).
    open_dispatch. unfold pipe_error, pipe_error_timeout. rewrite Hto. mrun.
    eexists. split; [reflexivity|]. split; [close_state|].
    split; [| reflexivity]. apply has_flag_lor. reflexivity.
  - intros data.
    destruct (step_read_piped cfg FD_SETSIZE _ _ _ _ _ _ _ _ _ data Hp)
      as (w' & Hd & Hp'). eauto.
  - intros what -> Hto.
    destruct (step_close cfg FD_SETSIZE _ _ _ _ _ _ _ _ _ what Hp)
      as (w' & Hd & Hdr & _); [by right|]. eauto.
  - intros evs w1 be_a1 be_b1 fa1 fb1 what w2 -> -> Hon Hrun Hp1 Hto Hd Hdead.
    destruct (piped_flags cfg FD_SETSIZE _ _ _ _ _ _ _ _ _ _ _ _ _ _ _ Hp Hon Hrun Hp1)
      as [Hfa1 _].
    apply timeout_pending_true. rewrite <- Hfa1.
    destruct fa1; [reflexivity|]. exfalso.
    destruct (step_timeout_first cfg FD_SETSIZE _ _ _ _ _ _ _ _ what Hp1 Hto)
      as (w2' & Hd' & Hp2).
    rewrite Hd in Hd'. injection Hd' as <-.
    destruct Hp2 as (_ & _ & Ha2 & _). congruence.
Qed.

(** C3.  From pairing on, whatever is delivered to the two ends of a link,
    in whatever order, no callback touches a freed bufferevent or a freed
    [struct otherside] (the run does not fault), and the link is always in
    one of its states: both ends live; one end and its record freed and the
    survivor's record holding [NULL] for the peer; or everything freed. *)
Theorem link_memory_safe (w : world) (a b ca cb : nat)
    (be_a be_b : bufferevent) (fa fb : bool) (evs : list event) :
  piped w a b ca cb be_a be_b fa fb ->
  Forall (on_link a b) evs ->
  exists w', run cfg FD_SETSIZE evs w = Ok tt w' /\ link_ok w' a b ca cb.
Proof.
  intros Hp Hon. apply link_run; [| done]. left. eauto 10.
Qed.

(** C4.  A timeout during detection runs [initial_read] on what is
    buffered (after the message of the verbose mode); with nothing buffered
    [create_pipe] is called for the normal port, and the connection to the
    normal port is on record when the callback returns, which it does
    unless [connect] fails at once.  Any other error frees the client and
    connects nowhere. *)
Theorem detection_timeout (w : world) (b : nat) (be : bufferevent)
    (what : Z) (ctx : cb_arg) :
  bevs w !! b = Some (Some be) ->
  (has_flag what BEV_EVENT_TIMEOUT = true ->
   initial_error cfg b what ctx w = initial_read cfg b ctx (announce cfg w) /\
   (bev_input be = [] ->
    initial_error cfg b what ctx w =
      create_pipe cfg ctx (Some b) (normal_port cfg)
        (handing_over (announce cfg w) b (handed_over (bev_input be) be)) /\
    (net_connect w (normal_port cfg mod 2 ^ 16) <> -1 ->
     exists w',
       initial_error cfg b what ctx w = Ok tt w' /\
       connects w' =
         connects w ++ [(fresh (dom (bevs w)), loopback (normal_port cfg))]))) /\
  (has_flag what BEV_EVENT_TIMEOUT = false ->
   exists w',
     initial_error cfg b what ctx w = Ok tt w' /\
     bevs w' = <[b := None]> (bevs w) /\
     connects w' = connects w /\
     ctxs w' = ctxs w /\
     closed_fds w' = closed_fds w ++ closes be).
Proof.
  intros Hb. split.
  - intros Hto. split; [by apply initial_error_timeout|].
    intros Hin. rewrite initial_error_timeout by done.
    assert (bevs (announce cfg w) !! b = Some (Some be)) as Hb'
      by by rewrite announce_bevs.
    destruct (initial_read_routes_normal b ctx _ be Hb') as (Hcp & Hret).
    { apply (choose_port_short_chain cfg b _ be Hb'). by rewrite Hin. }
    split; [done|]. intros Hnet. rewrite announce_net in Hret.
    destruct (Hret Hnet) as (w' & Hir & Hcon & _).
    exists w'. split; [done|].
    by rewrite Hcon, announce_bevs, announce_connects.
  - intros Hto. unfold initial_error. rewrite Hto. mrun.
    eexists. split; [reflexivity|]. simpl.
    rewrite insert_insert_eq. done.
Qed.

(** C5 (as amended).  When the back connection is established, what the
    client had buffered goes to the backend's output, ahead of everything
    else, and the client's input is left empty.  From then on, whatever
    happens on the two ends, as long as both are alive: each read moves the
    whole input of the end that is ready to the end of its peer's output,
    and the bytes sent or waiting to be sent on each end are exactly, in
    order and once each, those that were on their way at pairing followed
    by those read from the peer since.  Data in both directions and
    timeouts on one end alone keep both ends alive. *)
Theorem pipe_fidelity (w : world) (o b : nat) (be_o be_b : bufferevent) :
  connecting w o b be_o be_b ->
  bev_input be_b = [] ->
  exists w1 co cb be_o1 be_b1,
    dispatch cfg FD_SETSIZE (Signal b BEV_EVENT_CONNECTED) w = Ok tt w1 /\
    piped w1 o b co cb be_o1 be_b1 false false /\
    bev_input be_o1 = [] /\
    bev_output be_b1 = bev_output be_b ++ bev_input be_o /\
    (forall evs,
        Forall (on_link o b) evs ->
        exists w2,
          run cfg FD_SETSIZE evs w1 = Ok tt w2 /\
          link_ok w2 o b co cb /\
          forall be_o2 be_b2 fa fb,
            piped w2 o b co cb be_o2 be_b2 fa fb ->
            bev_input be_o2 = [] /\ bev_input be_b2 = [] /\
            bev_sent be_b2 ++ evbuffer_bytes (bev_output be_b2) =
              (bev_sent be_b ++ evbuffer_bytes (bev_output be_b)) ++
              evbuffer_bytes (bev_input be_o) ++ arrived o evs /\
            bev_sent be_o2 ++ evbuffer_bytes (bev_output be_o2) =
              (bev_sent be_o ++ evbuffer_bytes (bev_output be_o)) ++
              arrived b evs) /\
    (forall evs,
        Forall (only_times_out o b) evs \/ Forall (only_times_out b o) evs ->
        exists w2 be_o2 be_b2 fa fb,
          run cfg FD_SETSIZE evs w1 = Ok tt w2 /\
          piped w2 o b co cb be_o2 be_b2 fa fb) /\
    (forall data,
        exists w2,
          dispatch cfg FD_SETSIZE (Readable o data) w1 = Ok tt w2 /\
          piped w2 o b co cb (bev_with_input [] be_o1)
            (bev_with_output (bev_output be_b1 ++ (bev_input be_o1 ++ data)) be_b1)
            false false).
Proof.
  intros Hcon Hinb.
  destruct (back_connection_pairs cfg FD_SETSIZE _ _ _ _ _ Hcon)
    as (w1 & co & cb & be_o1 & be_b1 & Hd & Hp & Hin & Hout & Hsent & Hinb1 &
        Hout_o & Hsent_o & _).
  exists w1, co, cb, be_o1, be_b1.
  split; [done|]. split; [done|]. split; [done|]. split; [done|].
  split; [| split].
  - intros evs Hon.
    destruct (piped_stream_run cfg FD_SETSIZE evs _ _ _ _ _ _ _ _ _ Hp Hon)
      as (w2 & Hrun & Hl & Hend).
    exists w2. split; [done|]. split; [done|].
    intros be_o2 be_b2 fa fb Hp2.
    destruct (Hend _ _ _ _ Hp2) as (Hto_b & Hto_o & Hio & Hib).
    assert (bev_input be_o2 = []) as Hio2 by auto.
    assert (bev_input be_b2 = []) as Hib2 by (apply Hib; congruence).
    split; [done|]. split; [done|].
    unfold toward in Hto_b, Hto_o.
    rewrite Hio2, Hin, Hout, Hsent in Hto_b.
    rewrite Hib2, Hinb1, Hinb, Hout_o, Hsent_o in Hto_o.
    assert (evbuffer_bytes [] = []) as Hnil by reflexivity.
    rewrite !Hnil, !app_nil_r in Hto_b, Hto_o.
    rewrite Hto_b, Hto_o. unfold evbuffer_bytes.
    rewrite concat_app, <- !app_assoc. done.
  - intros evs [Hon|Hon].
    + destruct (piped_quiet_run cfg FD_SETSIZE evs _ _ _ _ _ _ _ _ Hp Hon)
        as (w2 & be_o2 & be_b2 & fb & Hrun & Hp2). eauto 10.
    + destruct (piped_quiet_run cfg FD_SETSIZE evs _ _ _ _ _ _ _ _
                  (piped_sym _ _ _ _ _ _ _ _ _ Hp) Hon)
        as (w2 & be_b2 & be_o2 & fa & Hrun & Hp2).
      apply piped_sym in Hp2. eauto 10.
  - intros data. eapply step_read_piped. exact Hp.
Qed.

(** C6.  When one end [a] of a live link is closed by [pipe_error] (an
    error, or a timeout corroborated by the peer): [a] and its record are
    freed; the record of the survivor [b] holds [NULL] for the peer; [b]
    gets read and write timeouts of one second and reads again.  After
    that, data events keep [b] draining, and any event callback on [b],
    whatever its flags, frees [b] and its record: nothing of the link is
    left. *)
Theorem asymmetric_close (w : world) (a b ca cb : nat)
    (be_a be_b : bufferevent) (fa fb : bool) (what : Z) :
  piped w a b ca cb be_a be_b fa fb ->
  has_flag what BEV_EVENT_TIMEOUT = false \/ fa = true ->
  exists w1 be_b1,
    dispatch cfg FD_SETSIZE (Signal a what) w = Ok tt w1 /\
    draining w1 b cb a ca be_b1 /\
    bev_timeout_read be_b1 = Some {| tv_sec := 1; tv_usec := 0 |} /\
    bev_timeout_write be_b1 = Some {| tv_sec := 1; tv_usec := 0 |} /\
    has_flag (bev_enabled be_b1) EV_READ = true /\
    bev_output be_b1 = bev_output be_b /\
    closed_fds w1 = closed_fds w ++ closes be_a /\
    (forall evs what',
        Forall (data_on b) evs ->
        exists w2,
          run cfg FD_SETSIZE (evs ++ [Signal b what']) w1 = Ok tt w2 /\
          closed w2 a b ca cb).
Proof.
  intros Hp Hwhy.
  destruct (step_close cfg FD_SETSIZE _ _ _ _ _ _ _ _ _ what Hp Hwhy)
    as (w1 & Hd & Hdr & Hfd).
  exists w1, (granted_grace be_b).
  split; [done|]. split; [done|]. split; [reflexivity|]. split; [reflexivity|].
  split; [apply has_flag_lor; reflexivity|]. split; [reflexivity|].
  split; [done|].
  intros evs what' Hon. rewrite run_app.
  assert (exists w2 be_b2,
             run cfg FD_SETSIZE evs w1 = Ok tt w2 /\ draining w2 b cb a ca be_b2)
    as (w2 & be_b2 & -> & Hdr2).
  { clear Hd Hfd. revert Hdr. generalize (granted_grace be_b) as be. revert w1.
    induction evs as [|ev evs IH]; intros w1 be Hdr; [by exists w1, be|].
    inversion Hon as [|? ? Hev Hevs]; subst. rewrite run_cons.
    destruct ev as [fd|x data|x n|x wh]; simpl in Hev; try done; subst x.
    - destruct (step_read_draining cfg FD_SETSIZE _ _ _ _ _ _ data Hdr)
        as (w' & -> & Hdr'). eauto.
    - destruct (step_write_draining cfg FD_SETSIZE _ _ _ _ _ _ n Hdr)
        as (w' & -> & Hdr'). eauto. }
  rewrite run_cons.
  destruct (step_signal_draining cfg FD_SETSIZE _ _ _ _ _ _ what' Hdr2)
    as (w3 & -> & Hcl & _).
  exists w3. split; [reflexivity|]. by apply closed_sym.
Qed.

(** C7.  When [connect] to the backend fails at once, libevent runs
    [back_connection] with [BEV_EVENT_ERROR] inside
    [bufferevent_socket_connect], and it frees the new bufferevent and the
    client.  The call then returns [-1], and [create_pipe] frees the new
    bufferevent once more: a use after free, where both endpoints were to
    be freed and the client closed.  The same holds for [initial_read],
    which ends with this call of [create_pipe]. *)
Theorem connect_failure_double_free (w : world) (b : nat) (be : bufferevent)
    (base : cb_arg) (port : Z) :
  bevs w !! b = Some (Some be) ->
  net_connect w (port mod 2 ^ 16) = -1 ->
  create_pipe cfg base (Some b) port w = Fault UseAfterFree /\
  (forall input',
      choose_port cfg (InputOf b) w = Ok port (buffered input' b be w) ->
      initial_read cfg b base w = Fault UseAfterFree).
Proof.
  intros Hb Hnet. split; [by eapply create_pipe_double_free|].
  intros input' Hc. by eapply initial_read_double_free.
Qed.

(** C8.  An accepted descriptor above [FD_SETSIZE] is closed and gets no
    bufferevent.  Any other accepted descriptor gets a fresh bufferevent
    with the read watermarks 0 and [MAX_RECV_BUF_DEFAULT], which is 131072,
    reading enabled, the read timeout [knock_timeout], no write timeout and
    the detector's callbacks. *)
Theorem initial_accept_endpoint (w : world) (fd : Z) :
  0 <= fd ->
  MAX_RECV_BUF_DEFAULT = 131072 /\
  (FD_SETSIZE < fd ->
   exists w',
     initial_accept cfg FD_SETSIZE fd w = Ok tt w' /\
     closed_fds w' = closed_fds w ++ [fd] /\
     bevs w' = bevs w) /\
  (fd <= FD_SETSIZE ->
   exists w' be,
     initial_accept cfg FD_SETSIZE fd w = Ok tt w' /\
     bevs w' = <[fresh (dom (bevs w)) := Some be]> (bevs w) /\
     closed_fds w' = closed_fds w /\
     bev_fd be = fd /\
     bev_wm_read be = (0, 131072) /\
     has_flag (bev_enabled be) EV_READ = true /\
     bev_timeout_read be = Some (knock_timeout cfg) /\
     bev_timeout_write be = None /\
     bev_readcb be = Some cb_initial_read /\
     bev_eventcb be = Some cb_initial_error /\
     bev_input be = [] /\ bev_output be = []).
Proof.
  intros Hfd. split; [reflexivity|].
  unfold initial_accept.
  destruct (Z.ltb_spec fd 0); [lia|]. split.
  - intros Hbig. destruct (Z.ltb_spec FD_SETSIZE fd); [| lia].
    eexists. split; [reflexivity|]. done.
  - intros Hok. destruct (Z.ltb_spec FD_SETSIZE fd); [lia|].
    mrun. do 2 eexists. split; [reflexivity|]. simpl.
    rewrite !insert_insert_eq. split_and!; try reflexivity.
Qed.

(** C9.  The knock is compared with the first chain of the input buffer
    only.  The hidden port is chosen, and bytes are drained, only when that
    one chain holds at least [knock_size] bytes and begins with the
    signature.  When the first chain is shorter than [knock_size] (or there
    is none), whatever the chains after it hold, the detector answers the
    normal port and leaves the world as it is, and [initial_read] calls
    [create_pipe] for the normal port with the whole buffer still in the
    client's input; the connection to the normal port is on record when it
    returns, which it does unless [connect] fails at once. *)
Theorem knock_first_chain_only (w : world) (b : nat) (be : bufferevent)
    (ctx : cb_arg) :
  bevs w !! b = Some (Some be) ->
  (forall port w0,
      choose_port cfg (InputOf b) w = Ok port w0 ->
      (port = normal_port cfg /\ w0 = w) \/
      (port = hidden_port cfg /\
       w0 = buffered (evbuffer_drain (bev_input be) (knock_size cfg)) b be w /\
       exists c rest,
         bev_input be = c :: rest /\
         knock_size cfg <= chain_off c /\
         take (Z.to_nat (knock_size cfg)) (knock_value cfg) =
         take (Z.to_nat (knock_size cfg)) c)) /\
  (match bev_input be with
   | [] => True
   | c :: _ => chain_off c < knock_size cfg
   end ->
   choose_port cfg (InputOf b) w = Ok (normal_port cfg) w /\
   initial_read cfg b ctx w =
     create_pipe cfg ctx (Some b) (normal_port cfg)
       (handing_over w b (handed_over (bev_input be) be)) /\
   (net_connect w (normal_port cfg mod 2 ^ 16) <> -1 ->
    exists w',
      initial_read cfg b ctx w = Ok tt w' /\
      connects w' =
        connects w ++ [(fresh (dom (bevs w)), loopback (normal_port cfg))] /\
      (0 <= net_connect w (normal_port cfg mod 2 ^ 16) ->
       bevs w' !! b = Some (Some (handed_over (bev_input be) be))))).
Proof.
  intros Hb. split.
  - intros port w0 Hc.
    destruct (choose_port_cases cfg b w be port w0 Hb Hc)
      as [?|(? & ? & _ & ?)]; [left | right]; done.
  - intros Hshort.
    pose proof (choose_port_short_chain cfg b w be Hb Hshort) as Hc.
    split; [done|].
    destruct (initial_read_routes_normal b ctx w be Hb Hc) as (Hcp & Hret).
    split; [done|]. intros Hnet.
    destruct (Hret Hnet) as (w' & Hir & Hcon & Hpend).
    exists w'. split; [done|]. split; [done|].
    intros Hpos. rewrite (Hpend Hpos). unfold pending_world; simpl.
    pose proof (fresh_bev_ne _ _ _ Hb). by mlookup.
Qed.

(** C10.  With [knock_size = 0] the peek reports no extent, so the
    detector always answers the normal port and drains nothing; whether it
    runs on a read or on the detection timeout, [create_pipe] is called for
    the normal port, and the connection to the normal port is on record
    when the callback returns, which it does unless [connect] fails at
    once. *)
Theorem knock_size_zero_normal (w : world) (b : nat) (be : bufferevent)
    (ctx : cb_arg) :
  knock_size cfg = 0 ->
  bevs w !! b = Some (Some be) ->
  (forall input, fst (evbuffer_peek input (to_ssize (knock_size cfg)) 1) = 0) /\
  choose_port cfg (InputOf b) w = Ok (normal_port cfg) w /\
  (initial_read cfg b ctx w =
     create_pipe cfg ctx (Some b) (normal_port cfg)
       (handing_over w b (handed_over (bev_input be) be)) /\
   (net_connect w (normal_port cfg mod 2 ^ 16) <> -1 ->
    exists w',
      initial_read cfg b ctx w = Ok tt w' /\
      connects w' =
        connects w ++ [(fresh (dom (bevs w)), loopback (normal_port cfg))])) /\
  (forall what,
      has_flag what BEV_EVENT_TIMEOUT = true ->
      initial_error cfg b what ctx w =
        create_pipe cfg ctx (Some b) (normal_port cfg)
          (handing_over (announce cfg w) b (handed_over (bev_input be) be)) /\
      (net_connect w (normal_port cfg mod 2 ^ 16) <> -1 ->
       exists w',
         initial_error cfg b what ctx w = Ok tt w' /\
         connects w' =
           connects w ++ [(fresh (dom (bevs w)), loopback (normal_port cfg))])).
Proof.
  intros Hz Hb. split; [| split; [| split]].
  - intros input. rewrite Hz. change (to_ssize 0) with 0.
    by rewrite evbuffer_peek_zero.
  - by apply (choose_port_zero cfg b w be).
  - destruct (initial_read_routes_normal b ctx w be Hb
                (choose_port_zero cfg b w be Hb Hz)) as (Hcp & Hret).
    split; [done|]. intros Hnet.
    destruct (Hret Hnet) as (w' & Hir & Hcon & _). eauto.
  - intros what Hto. rewrite initial_error_timeout by done.
    assert (bevs (announce cfg w) !! b = Some (Some be)) as Hb'
      by by rewrite announce_bevs.
    destruct (initial_read_routes_normal b ctx _ be Hb'
                (choose_port_zero cfg b _ be Hb' Hz)) as (Hcp & Hret).
    split; [done|]. intros Hnet. rewrite announce_net in Hret.
    destruct (Hret Hnet) as (w' & Hir & Hcon & _).
    exists w'. split; [done|].
    by rewrite Hcon, announce_bevs, announce_connects.
Qed.

End Claims.

(* ===================================================================== *)
(** ** The theorems at work on the examples *)
(* ===================================================================== *)

(** The hand-written detecting client is the one [initial_accept] makes. *)
Lemma detecting_world_is_accept :
  world_with_sockopts [] (world_after example_cfg net_up [Incoming 5]) =
  detecting_world example_cfg net_up [].
Proof. vm_compute. reflexivity. Qed.

Lemma example_link_piped :
  exists be_a be_b, piped example_link 0 1 0 1 be_a be_b false false.
Proof.
  do 2 eexists. unfold piped, pipe_callbacks.
  split_and!; try (vm_compute; reflexivity); discriminate.
Qed.

(** The example of the specification: the knock followed by "hello" in one
    read reaches the hidden backend as "hello"; "abcd" reaches the normal
    backend unchanged. *)
Example spec_example_knock :
  exists w be,
    run example_cfg 1024
      [Incoming 5; Readable 0 [example_knock ++ example_hello];
       Signal 1 BEV_EVENT_CONNECTED] (empty_world net_up) = Ok tt w /\
    connects w = [(1%nat, loopback 2222)] /\
    bevs w !! 1%nat = Some (Some be) /\
    evbuffer_bytes (bev_output be) = example_hello.
Proof. do 2 eexists. split_and!; vm_compute; reflexivity. Qed.

Example spec_example_plain :
  exists w be,
    run example_cfg 1024
      [Incoming 5; Readable 0 [[x61; x62; x63; x64]%byte];
       Signal 1 BEV_EVENT_CONNECTED] (empty_world net_up) = Ok tt w /\
    connects w = [(1%nat, loopback 22)] /\
    bevs w !! 1%nat = Some (Some be) /\
    evbuffer_bytes (bev_output be) = [x61; x62; x63; x64]%byte.
Proof. do 2 eexists. split_and!; vm_compute; reflexivity. Qed.

(** C1, as stated, fails.  The bytes [DE AD BE EF] "hello" all arrive
    before the detection timeout and begin with the knock, but the first
    read brings only [DE AD]: the detector decides at once, the connection
    goes to the normal port 22 and the backend is sent all nine bytes, the
    knock included.  The same happens when the nine bytes are buffered in
    two chains that split the knock, and, with an empty knock
    ([knock_size = 0]), for every input, although its first zero bytes
    equal the signature. *)
Lemma knock_split_across_reads :
  let B := example_knock ++ example_hello in
  take (Z.to_nat (knock_size example_cfg)) B = knock_value example_cfg /\
  (exists w be,
      run example_cfg 1024
        [Incoming 5; Readable 0 [[xde; xad]%byte];
         Signal 1 BEV_EVENT_CONNECTED;
         Readable 0 [[xbe; xef]%byte ++ example_hello]]
        (empty_world net_up) = Ok tt w /\
      connects w = [(1%nat, loopback (normal_port example_cfg))] /\
      normal_port example_cfg <> hidden_port example_cfg /\
      bevs w !! 1%nat = Some (Some be) /\
      bev_sent be ++ evbuffer_bytes (bev_output be) = B) /\
  (exists w be,
      run example_cfg 1024
        [Incoming 5;
         Readable 0 [[xde; xad]%byte; [xbe; xef]%byte ++ example_hello];
         Signal 1 BEV_EVENT_CONNECTED]
        (empty_world net_up) = Ok tt w /\
      connects w = [(1%nat, loopback (normal_port example_cfg))] /\
      bevs w !! 1%nat = Some (Some be) /\
      bev_sent be ++ evbuffer_bytes (bev_output be) = B) /\
  (take (Z.to_nat (knock_size empty_knock_cfg)) B = knock_value empty_knock_cfg /\
   exists w,
     run empty_knock_cfg 1024 [Incoming 5; Readable 0 [B]]
       (empty_world net_up) = Ok tt w /\
     connects w = [(1%nat, loopback (normal_port empty_knock_cfg))]).
Proof.
  split; [reflexivity|]. split; [| split; [| split; [reflexivity|]]].
  - do 2 eexists. split_and!; try (vm_compute; reflexivity). discriminate.
  - do 2 eexists. split_and!; vm_compute; reflexivity.
  - eexists. split_and!; vm_compute; reflexivity.
Qed.

Lemma example_cfg_ok : config_ok example_cfg.
Proof. split; [reflexivity | vm_compute; discriminate]. Qed.

Lemma knock_routing_witness :
  config_ok example_cfg /\
  (exists be,
      bevs (detecting_world example_cfg net_up [example_knock ++ example_hello])
        !! 0%nat = Some (Some be) /\
      knock_in_first_chain example_cfg (bev_input be)) /\
  (forall port, 0 <= net_up port) /\
  exists w1 w2 be_n,
    initial_read example_cfg 0 arg_base
      (detecting_world example_cfg net_up [example_knock ++ example_hello])
      = Ok tt w1 /\
    connects w1 = [(1%nat, loopback 2222)] /\
    dispatch example_cfg 1024 (Signal 1 BEV_EVENT_CONNECTED) w1 = Ok tt w2 /\
    bevs w2 !! 1%nat = Some (Some be_n) /\
    evbuffer_bytes (bev_output be_n) = example_hello.
Proof.
  assert (knock_in_first_chain example_cfg [example_knock ++ example_hello]) as Hk.
  { simpl. split_and!; [reflexivity | vm_compute; discriminate | reflexivity]. }
  split; [exact example_cfg_ok|].
  split; [eexists; split; [reflexivity | exact Hk]|].
  split; [intros port; unfold net_up; lia|].
  destruct (knock_routing example_cfg 1024
              (detecting_world example_cfg net_up [example_knock ++ example_hello])
              0%nat (detecting_client example_cfg [example_knock ++ example_hello])
              arg_base example_cfg_ok)
    as (port & w1 & w2 & co & cb & be_c & be_n & Hir & Hcon & Hd & Hp & _ & _ & Hhid & _).
  { reflexivity. }
  { intros port. unfold net_up. simpl. lia. }
  destruct (Hhid Hk) as (-> & _ & Hout).
  exists w1, w2, be_n. split; [exact Hir|]. split; [exact Hcon|].
  split; [exact Hd|]. split; [apply Hp|]. exact Hout.
Defined.

Lemma timeout_corroboration_witness :
  exists be_a be_b,
    piped example_link 0 1 0 1 be_a be_b false false /\
    (exists w' be_a',
        dispatch example_cfg 1024 (Signal 0 timeout_reading) example_link
          = Ok tt w' /\
        piped w' 0 1 0 1 be_a' be_b false true /\
        has_flag (bev_enabled be_a') EV_READ = true) /\
    (exists evs1 what' evs2,
        [Signal 1 timeout_reading; Writable 1 2] =
          evs1 ++ Signal 1 what' :: evs2 /\
        has_flag what' BEV_EVENT_TIMEOUT = true /\
        Forall (fun ev => ~ is_read_of 1 ev) evs2).
Proof.
  destruct example_link_piped as (be_a & be_b & Hp).
  exists be_a, be_b. split; [exact Hp|].
  destruct (timeout_corroboration example_cfg 1024 _ _ _ _ _ _ _ _ _ Hp)
    as (Hone & _ & _ & Hclose).
  split.
  - destruct (Hone timeout_reading) as (w' & Hd & Hp' & Hen & _);
      [reflexivity | reflexivity |].
    exists w'. eexists. split; [exact Hd|]. split; [exact Hp' | exact Hen].
  - eapply (Hclose [Signal 1 timeout_reading; Writable 1 2]
              (world_after example_cfg net_up
                 [Incoming 5; Readable 0 [example_knock ++ example_hello];
                  Signal 1 BEV_EVENT_CONNECTED;
                  Signal 1 timeout_reading; Writable 1 2])
              _ _ true false timeout_reading
              (world_after example_cfg net_up
                 [Incoming 5; Readable 0 [example_knock ++ example_hello];
                  Signal 1 BEV_EVENT_CONNECTED;
                  Signal 1 timeout_reading; Writable 1 2;
                  Signal 0 timeout_reading])).
    + reflexivity.
    + reflexivity.
    + repeat constructor; simpl; lia.
    + vm_compute. reflexivity.
    + unfold piped, pipe_callbacks.
      split_and!; try (vm_compute; reflexivity); discriminate.
    + reflexivity.
    + vm_compute. reflexivity.
    + vm_compute. reflexivity.
Defined.

Lemma link_memory_safe_witness :
  (exists be_a be_b, piped example_link 0 1 0 1 be_a be_b false false) /\
  Forall (on_link 0 1)
    [Readable 1 [example_hello]; Signal 0 error_reading;
     Readable 1 [example_hello]; Signal 0 timeout_reading;
     Signal 1 timeout_reading; Readable 1 [example_hello]] /\
  exists w',
    run example_cfg 1024
      [Readable 1 [example_hello]; Signal 0 error_reading;
       Readable 1 [example_hello]; Signal 0 timeout_reading;
       Signal 1 timeout_reading; Readable 1 [example_hello]]
      example_link = Ok tt w' /\
    link_ok w' 0 1 0 1.
Proof.
  split; [exact example_link_piped|].
  assert (Forall (on_link 0 1)
            [Readable 1 [example_hello]; Signal 0 error_reading;
             Readable 1 [example_hello]; Signal 0 timeout_reading;
             Signal 1 timeout_reading; Readable 1 [example_hello]]) as Hon.
  { repeat constructor; simpl; lia. }
  split; [exact Hon|].
  destruct example_link_piped as (be_a & be_b & Hp).
  exact (link_memory_safe example_cfg 1024 _ _ _ _ _ _ _ _ _ _ Hp Hon).
Defined.

Lemma detection_timeout_witness :
  bevs (detecting_world example_cfg net_up []) !! 0%nat
    = Some (Some (detecting_client example_cfg [])) /\
  has_flag timeout_reading BEV_EVENT_TIMEOUT = true /\
  has_flag error_reading BEV_EVENT_TIMEOUT = false /\
  net_up (22 mod 2 ^ 16) <> -1 /\
  (exists w',
      initial_error example_cfg 0 timeout_reading arg_base
        (detecting_world example_cfg net_up []) = Ok tt w' /\
      connects w' = [(1%nat, loopback 22)]) /\
  (exists w',
      initial_error example_cfg 0 error_reading arg_base
        (detecting_world example_cfg net_up []) = Ok tt w' /\
      bevs w' !! 0%nat = Some None /\
      connects w' = []).
Proof.
  split; [reflexivity|]. split; [reflexivity|]. split; [reflexivity|].
  split; [unfold net_up; lia|].
  split.
  - destruct (detection_timeout example_cfg
                (detecting_world example_cfg net_up []) 0%nat
                (detecting_client example_cfg []) timeout_reading arg_base)
      as [Hto _]; [reflexivity|].
    destruct Hto as [_ Hempty]; [reflexivity|].
    destruct Hempty as [_ Hret]; [reflexivity|].
    destruct Hret as (w' & Hie & Hcon); [unfold net_up; simpl; lia|].
    exists w'. split; [exact Hie | exact Hcon].
  - destruct (detection_timeout example_cfg
                (detecting_world example_cfg net_up []) 0%nat
                (detecting_client example_cfg []) error_reading arg_base)
      as [_ Herr]; [reflexivity|].
    destruct Herr as (w' & Hie & Hbevs & Hcon & _); [reflexivity|].
    exists w'. split; [exact Hie|]. split; [| exact Hcon].
    rewrite Hbevs. reflexivity.
Defined.

Lemma pipe_fidelity_witness :
  (exists be_o be_b,
      connecting
        (world_after example_cfg net_up
           [Incoming 5; Readable 0 [example_knock ++ example_hello]])
        0 1 be_o be_b /\
      bev_input be_b = []) /\
  Forall (only_times_out 0 1)
    [Readable 0 [example_hello]; Signal 0 timeout_reading; Writable 1 7;
     Readable 1 [example_knock]; Signal 0 timeout_reading;
     Readable 0 [example_knock]] /\
  exists w2 be_o2 be_b2,
    run example_cfg 1024
      [Signal 1 BEV_EVENT_CONNECTED;
       Readable 0 [example_hello]; Signal 0 timeout_reading; Writable 1 7;
       Readable 1 [example_knock]; Signal 0 timeout_reading;
       Readable 0 [example_knock]]
      (world_after example_cfg net_up
         [Incoming 5; Readable 0 [example_knock ++ example_hello]])
      = Ok tt w2 /\
    bevs w2 !! 0%nat = Some (Some be_o2) /\
    bevs w2 !! 1%nat = Some (Some be_b2) /\
    bev_sent be_b2 ++ evbuffer_bytes (bev_output be_b2) =
      example_hello ++ example_hello ++ example_knock /\
    bev_sent be_o2 ++ evbuffer_bytes (bev_output be_o2) = example_knock.
Proof.
  assert (connecting
            (world_after example_cfg net_up
               [Incoming 5; Readable 0 [example_knock ++ example_hello]])
            0 1 (handed_over [example_hello] (detecting_client example_cfg []))
            (backend_new 0 9)) as Hcon.
  { unfold connecting. split_and!; try (vm_compute; reflexivity). discriminate. }
  split; [do 2 eexists; split; [exact Hcon | reflexivity]|].
  assert (Forall (only_times_out 0 1)
            [Readable 0 [example_hello]; Signal 0 timeout_reading; Writable 1 7;
             Readable 1 [example_knock]; Signal 0 timeout_reading;
             Readable 0 [example_knock]]) as Hquiet.
  { repeat constructor; simpl; lia. }
  split; [exact Hquiet|].
  assert (Forall (on_link 0 1)
            [Readable 0 [example_hello]; Signal 0 timeout_reading; Writable 1 7;
             Readable 1 [example_knock]; Signal 0 timeout_reading;
             Readable 0 [example_knock]]) as Hon.
  { repeat constructor; simpl; lia. }
  destruct (pipe_fidelity example_cfg 1024 _ _ _ _ _ Hcon)
    as (w1 & co & cb & be_o1 & be_b1 & Hd & Hp & _ & _ & Hrun & Hkeep & _);
    [reflexivity|].
  destruct (Hrun _ Hon) as (w2 & Hr & _ & Hend).
  destruct (Hkeep _ (or_introl Hquiet))
    as (w2' & be_o2 & be_b2 & fa & fb & Hr' & Hp2).
  assert (w2' = w2) as -> by congruence.
  destruct (Hend _ _ _ _ Hp2) as (_ & _ & Hb & Ho).
  exists w2, be_o2, be_b2.
  split; [rewrite run_cons, Hd; exact Hr|].
  split; [apply Hp2|]. split; [apply Hp2|].
  split; [exact Hb | exact Ho].
Defined.

(** Timeouts are no errors, and yet bytes are lost: the client's "hello"
    waits in the backend's output, unsent, when the idle timeout fires on
    the client and then on the backend; the backend bufferevent is freed
    with what it held. *)
Lemma timeouts_discard_unsent_bytes :
  has_flag timeout_reading BEV_EVENT_ERROR = false /\
  has_flag timeout_reading BEV_EVENT_EOF = false /\
  exists w1 be w2,
    run example_cfg 1024
      [Readable 0 [example_hello]; Signal 0 timeout_reading] example_link
      = Ok tt w1 /\
    bevs w1 !! 1%nat = Some (Some be) /\
    bev_sent be = [] /\
    evbuffer_bytes (bev_output be) = example_hello ++ example_hello /\
    dispatch example_cfg 1024 (Signal 1 timeout_reading) w1 = Ok tt w2 /\
    bevs w2 !! 1%nat = Some None.
Proof.
  split; [reflexivity|]. split; [reflexivity|].
  do 3 eexists. split_and!; vm_compute; reflexivity.
Qed.

Lemma asymmetric_close_witness :
  (exists be_a be_b, piped example_link 0 1 0 1 be_a be_b false false) /\
  has_flag error_reading BEV_EVENT_TIMEOUT = false /\
  Forall (data_on 1) [Readable 1 [example_hello]; Writable 1 3] /\
  exists w1 be_b1 w2,
    dispatch example_cfg 1024 (Signal 0 error_reading) example_link
      = Ok tt w1 /\
    draining w1 1 1 0 0 be_b1 /\
    bev_timeout_read be_b1 = Some {| tv_sec := 1; tv_usec := 0 |} /\
    bev_timeout_write be_b1 = Some {| tv_sec := 1; tv_usec := 0 |} /\
    run example_cfg 1024
      ([Readable 1 [example_hello]; Writable 1 3] ++ [Signal 1 timeout_reading])
      w1 = Ok tt w2 /\
    closed w2 0 1 0 1.
Proof.
  split; [exact example_link_piped|]. split; [reflexivity|].
  assert (Forall (data_on 1) [Readable 1 [example_hello]; Writable 1 3]) as Hon.
  { repeat constructor. }
  split; [exact Hon|].
  destruct example_link_piped as (be_a & be_b & Hp).
  destruct (asymmetric_close example_cfg 1024 _ _ _ _ _ _ _ _ _ error_reading Hp)
    as (w1 & be_b1 & Hd & Hdr & Hr & Hw & _ & _ & _ & Hthen);
    [left; reflexivity|].
  destruct (Hthen _ timeout_reading Hon) as (w2 & Hrun & Hcl).
  exists w1, be_b1, w2.
  split; [exact Hd|]. split; [exact Hdr|]. split; [exact Hr|].
  split; [exact Hw|]. split; [exact Hrun | exact Hcl].
Defined.

Lemma connect_failure_double_free_witness :
  bevs (detecting_world example_cfg net_down [example_hello]) !! 0%nat
    = Some (Some (detecting_client example_cfg [example_hello])) /\
  net_down (22 mod 2 ^ 16) = -1 /\
  create_pipe example_cfg arg_base (Some 0%nat) 22
    (detecting_world example_cfg net_down [example_hello])
    = Fault UseAfterFree /\
  initial_read example_cfg 0 arg_base
    (detecting_world example_cfg net_down [example_hello])
    = Fault UseAfterFree.
Proof.
  split; [reflexivity|]. split; [reflexivity|].
  destruct (connect_failure_double_free example_cfg
              (detecting_world example_cfg net_down [example_hello]) 0%nat
              (detecting_client example_cfg [example_hello]) arg_base 22)
    as (Hcp & Hir); [reflexivity | reflexivity |].
  split; [exact Hcp|].
  apply (Hir [example_hello]). vm_compute. reflexivity.
Defined.

(** From the start of the process: a client connects and sends "hello",
    and [connect] to the backend fails at once. *)
Example connect_fails_at_once_run :
  run example_cfg 1024 [Incoming 5; Readable 0 [example_hello]]
    (empty_world net_down) = Fault UseAfterFree.
Proof. vm_compute. reflexivity. Qed.

Lemma initial_accept_endpoint_witness :
  0 <= 5 /\ 5 <= 1024 /\ 0 <= 2000 /\ 1024 < 2000 /\
  (exists w',
      initial_accept example_cfg 1024 2000 (empty_world net_up) = Ok tt w' /\
      closed_fds w' = [2000] /\ bevs w' = ∅) /\
  (exists w' be,
      initial_accept example_cfg 1024 5 (empty_world net_up) = Ok tt w' /\
      bevs w' !! 0%nat = Some (Some be) /\
      bev_wm_read be = (0, 131072) /\
      bev_timeout_read be = Some {| tv_sec := 2; tv_usec := 0 |} /\
      bev_timeout_write be = None).
Proof.
  split; [lia|]. split; [lia|]. split; [lia|]. split; [lia|]. split.
  - destruct (initial_accept_endpoint example_cfg 1024 (empty_world net_up) 2000)
      as (_ & Hbig & _); [lia|].
    destruct Hbig as (w' & Hia & Hcl & Hbevs); [lia|].
    exists w'. split; [exact Hia|]. split; [exact Hcl | exact Hbevs].
  - destruct (initial_accept_endpoint example_cfg 1024 (empty_world net_up) 5)
      as (_ & _ & Hok); [lia|].
    destruct Hok as (w' & be & Hia & Hbevs & _ & _ & Hwm & _ & Hr & Hw & _); [lia|].
    exists w', be. split; [exact Hia|]. rewrite Hbevs.
    split; [reflexivity|]. split; [exact Hwm|]. split; [exact Hr | exact Hw].
Defined.

Lemma knock_first_chain_only_witness :
  bevs (detecting_world example_cfg net_up
          [[xde; xad]%byte; [xbe; xef]%byte ++ example_hello]) !! 0%nat
    = Some (Some (detecting_client example_cfg
                    [[xde; xad]%byte; [xbe; xef]%byte ++ example_hello])) /\
  chain_off [xde; xad]%byte < knock_size example_cfg /\
  take 4 (evbuffer_bytes [[xde; xad]%byte; [xbe; xef]%byte ++ example_hello])
    = knock_value example_cfg /\
  net_up (22 mod 2 ^ 16) <> -1 /\
  exists w',
    initial_read example_cfg 0 arg_base
      (detecting_world example_cfg net_up
         [[xde; xad]%byte; [xbe; xef]%byte ++ example_hello]) = Ok tt w' /\
    connects w' = [(1%nat, loopback 22)] /\
    bevs w' !! 0%nat =
      Some (Some (handed_over
                    [[xde; xad]%byte; [xbe; xef]%byte ++ example_hello]
                    (detecting_client example_cfg
                       [[xde; xad]%byte; [xbe; xef]%byte ++ example_hello]))).
Proof.
  split; [reflexivity|]. split; [vm_compute; reflexivity|].
  split; [reflexivity|]. split; [unfold net_up; lia|].
  destruct (knock_first_chain_only example_cfg
              (detecting_world example_cfg net_up
                 [[xde; xad]%byte; [xbe; xef]%byte ++ example_hello]) 0%nat
              (detecting_client example_cfg
                 [[xde; xad]%byte; [xbe; xef]%byte ++ example_hello]) arg_base)
    as [_ Hshort]; [reflexivity|].
  destruct Hshort as (_ & _ & Hret); [vm_compute; reflexivity|].
  destruct Hret as (w' & Hir & Hcon & Hkeep); [unfold net_up; simpl; lia|].
  exists w'. split; [exact Hir|]. split; [exact Hcon|].
  apply Hkeep. unfold net_up. simpl. lia.
Defined.

Lemma knock_size_zero_normal_witness :
  knock_size empty_knock_cfg = 0 /\
  bevs (detecting_world empty_knock_cfg net_up [example_hello]) !! 0%nat
    = Some (Some (detecting_client empty_knock_cfg [example_hello])) /\
  has_flag timeout_reading BEV_EVENT_TIMEOUT = true /\
  net_up (22 mod 2 ^ 16) <> -1 /\
  (exists w',
      initial_read empty_knock_cfg 0 arg_base
        (detecting_world empty_knock_cfg net_up [example_hello]) = Ok tt w' /\
      connects w' = [(1%nat, loopback 22)]) /\
  (exists w',
      initial_error empty_knock_cfg 0 timeout_reading arg_base
        (detecting_world empty_knock_cfg net_up [example_hello]) = Ok tt w' /\
      connects w' = [(1%nat, loopback 22)]).
Proof.
  split; [reflexivity|]. split; [reflexivity|]. split; [reflexivity|].
  destruct (knock_size_zero_normal empty_knock_cfg
              (detecting_world empty_knock_cfg net_up [example_hello]) 0%nat
              (detecting_client empty_knock_cfg [example_hello]) arg_base)
    as (_ & _ & (_ & Hread) & Hto); [reflexivity | reflexivity |].
  assert (net_up (22 mod 2 ^ 16) <> -1) as Hnet by (unfold net_up; lia).
  split; [exact Hnet|].
  split; [exact (Hread Hnet)|].
  destruct (Hto timeout_reading eq_refl) as (_ & Hret). exact (Hret Hnet).
Defined.

(* ===================================================================== *)
(** ** Beyond the pipe's own state: isolation and descriptors *)
(* ===================================================================== *)

Section LinkAccounting.

Variable cfg : config.
Variable FD_SETSIZE : Z.

Lemma same_outside_refl a b ca cb w : same_outside a b ca cb w w.
Proof. unfold same_outside. auto 10. Qed.

Lemma same_outside_trans a b ca cb w1 w2 w3 :
  same_outside a b ca cb w1 w2 -> same_outside a b ca cb w2 w3 ->
  same_outside a b ca cb w1 w3.
Proof.
  unfold same_outside.
  intros (H1 & H2 & H3 & H4 & H5 & H6) (G1 & G2 & G3 & G4 & G5 & G6).
  split_and!; try congruence.
  - intros x Ha Hb. rewrite G1, H1; auto.
  - intros c Ha Hb. rewrite G2, H2; auto.
Qed.

Lemma same_outside_sym a b ca cb w w' :
  same_outside a b ca cb w w' -> same_outside b a cb ca w w'.
Proof. unfold same_outside. intuition. Qed.

Lemma link_account_sym c0 fda fdb w a b ca cb :
  link_account c0 fda fdb w a b ca cb -> link_account c0 fdb fda w b a cb ca.
Proof.
  intros [(be_a & be_b & fa & fb & Hp & ? & ? & ?)
         |[(be_a & Hd & ? & ?)|[(be_b & Hd & ? & ?)|(Hc & Hfd)]]].
  - left. exists be_b, be_a, fb, fa. split; [by apply piped_sym | done].
  - right. right. left. eauto.
  - right. left. eauto.
  - right. right. right. split; [by apply closed_sym | tauto].
Qed.

(** One event on the end [a], in any state of the link. *)
Lemma link_account_step_a c0 fda fdb w a b ca cb ev :
  link_account c0 fda fdb w a b ca cb ->
  targets a ev ->
  exists w',
    dispatch cfg FD_SETSIZE ev w = Ok tt w' /\
    link_account c0 fda fdb w' a b ca cb /\
    same_outside a b ca cb w w'.
Proof.
  intros Hl Ht.
  destruct Hl as [(be_a & be_b & fa & fb & Hp & Hfa & Hfb & Hc0)
                 |[(be_a & Hd & Hfa & Hc0)|[(be_b & Hd & Hfb & Hc0)|(Hcl & Hc0)]]].
  - (* both ends live *)
    destruct Hp as (Hab & Hc & Ha & Hb & Hcba & Hcbb & Hca & Hcb).
    destruct ev as [fd|x data|x n|x what]; simpl in Ht; [done| | |]; subst x.
    + open_dispatch. unfold pipe_read. mrun.
      eexists. split; [reflexivity|]. split; [| frame_goal].
      left. do 4 eexists. split; [close_state|]. simpl. done.
    + open_dispatch. mrun.
      eexists. split; [reflexivity|]. split; [| frame_goal].
      left. do 4 eexists. split; [close_state|]. simpl. done.
    + open_dispatch. unfold pipe_error, pipe_error_timeout, pipe_error_close.
      destruct (has_flag what BEV_EVENT_TIMEOUT) eqn:Hto; [destruct fa|].
      * mrun. eexists. split; [reflexivity|]. split; [| frame_goal].
        right. right. left. eexists. split; [close_state|]. simpl.
        split; [done|]. by rewrite Hc0, <- Hfa.
      * mrun. eexists. split; [reflexivity|]. split; [| frame_goal].
        left. do 4 eexists. split; [close_state|]. simpl. done.
      * mrun. eexists. split; [reflexivity|]. split; [| frame_goal].
        right. right. left. eexists. split; [close_state|]. simpl.
        split; [done|]. by rewrite Hc0, <- Hfa.
  - (* [a] survives *)
    destruct Hd as (Hxy & Hc & Hx & Hcbx & (f & Hcx) & Hy & Hcy).
    destruct ev as [fd|x data|x n|x what]; simpl in Ht; [done| | |]; subst x.
    + open_dispatch. unfold pipe_read. mrun.
      eexists. split; [reflexivity|]. split; [| frame_goal].
      right. left. eexists. split; [close_state|]. simpl. done.
    + open_dispatch. mrun.
      eexists. split; [reflexivity|]. split; [| frame_goal].
      right. left. eexists. split; [close_state|]. simpl. done.
    + open_dispatch. unfold pipe_error, pipe_error_timeout, pipe_error_close.
      destruct (has_flag what BEV_EVENT_TIMEOUT) eqn:Hto; mrun;
        (eexists; split; [reflexivity|]; split; [| frame_goal]);
        right; right; right; (split; [close_state|]); simpl;
        right; rewrite Hc0, <- Hfa, <- app_assoc; reflexivity.
  - (* [a] is gone *)
    exists w. split; [| split; [| apply same_outside_refl]].
    + apply (step_dead cfg FD_SETSIZE w a); [apply Hd | done].
    + right. right. left. eauto.
  - exists w. split; [| split; [| apply same_outside_refl]].
    + apply (step_dead cfg FD_SETSIZE w a); [apply Hcl | done].
    + right. right. right. done.
Qed.

Lemma link_account_step c0 fda fdb w a b ca cb ev :
  link_account c0 fda fdb w a b ca cb ->
  on_link a b ev ->
  exists w',
    dispatch cfg FD_SETSIZE ev w = Ok tt w' /\
    link_account c0 fda fdb w' a b ca cb /\
    same_outside a b ca cb w w'.
Proof.
  intros Hl Hon. apply on_link_targets in Hon as [Ht|Ht].
  - by apply link_account_step_a.
  - destruct (link_account_step_a _ _ _ _ _ _ _ _ _
                (link_account_sym _ _ _ _ _ _ _ _ Hl) Ht) as (w' & Hd & Hl' & Hf).
    exists w'. split; [done|]. split.
    + by apply link_account_sym.
    + by apply same_outside_sym.
Qed.

Lemma link_account_run evs c0 fda fdb w a b ca cb :
  link_account c0 fda fdb w a b ca cb ->
  Forall (on_link a b) evs ->
  exists w',
    run cfg FD_SETSIZE evs w = Ok tt w' /\
    link_account c0 fda fdb w' a b ca cb /\
    same_outside a b ca cb w w'.
Proof.
  revert w. induction evs as [|ev evs IH]; intros w Hl Hon.
  - exists w. split; [done|]. split; [done | apply same_outside_refl].
  - inversion Hon as [|? ? Hev Hevs]; subst.
    destruct (link_account_step _ _ _ _ _ _ _ _ _ Hl Hev) as (w1 & Hd & Hl1 & Hf1).
    destruct (IH _ Hl1 Hevs) as (w' & Hrun & Hl' & Hf').
    exists w'. rewrite run_cons, Hd. split; [done|]. split; [done|].
    eapply same_outside_trans; eauto.
Qed.

End LinkAccounting.

(* ===================================================================== *)
(** ** More of the pipe: records, survivors, descriptors, timeouts *)
(* ===================================================================== *)

Section MoreOfThePipe.

Variable cfg : config.
Variable FD_SETSIZE : Z.

(** X1.  [create_contexts] allocates two records that were not in use,
    different from each other, each holding the other end's bufferevent and
    the other record, with no timeout on record; it changes no other record
    and nothing else of the world. *)
Theorem create_contexts_wires_pair (forward backward : option nat) (w : world) :
  exists r0 r1 w',
    create_contexts forward backward w = Ok (r0, r1) w' /\
    r0 <> r1 /\
    ctxs w !! r0 = None /\ ctxs w !! r1 = None /\
    ctxs w' !! r0 = Some (Some {| os_bev := backward; os_pair := Some r1;
                                  other_timedout := false |}) /\
    ctxs w' !! r1 = Some (Some {| os_bev := forward; os_pair := Some r0;
                                  other_timedout := false |}) /\
    (forall c, c <> r0 -> c <> r1 -> ctxs w' !! c = ctxs w !! c) /\
    bevs w' = bevs w /\ connects w' = connects w /\
    closed_fds w' = closed_fds w.
Proof.
  unfold create_contexts.
  unfold bind at 1, malloc_otherside at 1.
  set (r0 := fresh (dom (ctxs w))).
  assert (ctxs w !! r0 = None) as H0 by (apply not_elem_of_dom, is_fresh).
  unfold bind at 1, malloc_otherside at 1. simpl.
  set (r1 := fresh (dom (<[r0 := _]> (ctxs w)))).
  assert (r1 <> r0) as Hne by (eapply fresh_ctx_ne, lookup_insert_eq).
  assert (ctxs w !! r1 = None) as H1.
  { assert (<[r0 := Some {| os_bev := None; os_pair := None;
                            other_timedout := false |}]> (ctxs w) !! r1 = None) as H
      by (apply not_elem_of_dom, is_fresh).
    by rewrite lookup_insert_ne in H. }
  clearbody r0 r1. exists r0, r1. mrun.
  eexists. split; [reflexivity|]. simpl. mlookup.
  split_and!; try done. intros c ? ?. by mlookup.
Qed.

(** X2.  On a survivor whose peer is gone, what is read is thrown away
    (the input buffer is left empty) and forwarded nowhere: only the
    survivor's input buffer changes.  Over data events the survivor keeps
    what it has to send: the bytes sent or waiting in its output stay the
    same sequence. *)
Theorem survivor_discards_input (w : world) (x cx y cy : nat)
    (be_x : bufferevent) :
  draining w x cx y cy be_x ->
  (forall data,
      evbuffer_get_length (bev_input be_x ++ data) <= SIZE_MAX ->
      exists w',
        dispatch cfg FD_SETSIZE (Readable x data) w = Ok tt w' /\
        bevs w' = <[x := Some (bev_with_input [] be_x)]> (bevs w) /\
        ctxs w' = ctxs w /\ connects w' = connects w /\
        closed_fds w' = closed_fds w) /\
  (forall evs,
      Forall (data_on x) evs ->
      exists w' be',
        run cfg FD_SETSIZE evs w = Ok tt w' /\
        draining w' x cx y cy be' /\
        bev_sent be' ++ evbuffer_bytes (bev_output be') =
        bev_sent be_x ++ evbuffer_bytes (bev_output be_x)).
Proof.
  intros Hdr. split.
  - intros data Hlen.
    destruct Hdr as (Hxy & Hc & Hx & Hcbx & (f & Hcx) & Hy & Hcy).
    open_dispatch. unfold pipe_read. mrun.
    eexists. split; [reflexivity|]. simpl.
    unfold evbuffer_drain.
    destruct (Z.leb_spec (evbuffer_get_length (bev_input be_x ++ data)) SIZE_MAX);
      [| lia].
    rewrite insert_insert_eq. done.
  - intros evs. revert w be_x Hdr.
    induction evs as [|ev evs IH]; intros w be_x Hdr Hon.
    + exists w, be_x. done.
    + inversion Hon as [|? ? Hev Hevs]; subst. rewrite run_cons.
      destruct ev as [fd|z data|z n|z what]; simpl in Hev; try done; subst z.
      * destruct (step_read_draining cfg FD_SETSIZE _ _ _ _ _ _ data Hdr)
          as (w1 & -> & Hdr1).
        destruct (IH _ _ Hdr1 Hevs) as (w' & be' & Hrun & Hdr' & Hs).
        exists w', be'. split; [done|]. split; [done|]. exact Hs.
      * destruct (step_write_draining cfg FD_SETSIZE _ _ _ _ _ _ n Hdr)
          as (w1 & -> & Hdr1).
        destruct (IH _ _ Hdr1 Hevs) as (w' & be' & Hrun & Hdr' & Hs).
        exists w', be'. split; [done|]. split; [done|].
        rewrite Hs. apply flushed_stream.
Qed.

(** X3.  Whatever happens on the two ends of a paired link, nothing of
    the world changes outside it: no other bufferevent, no other record, no
    connection started, no socket option, no log line. *)
Theorem link_isolation (w : world) (a b ca cb : nat)
    (be_a be_b : bufferevent) (fa fb : bool) (evs : list event) :
  piped w a b ca cb be_a be_b fa fb ->
  Forall (on_link a b) evs ->
  exists w',
    run cfg FD_SETSIZE evs w = Ok tt w' /\
    same_outside a b ca cb w w'.
Proof.
  intros Hp Hon.
  destruct (link_account_run cfg FD_SETSIZE evs (closed_fds w)
              (closes be_a) (closes be_b) w a b ca cb) as (w' & Hrun & _ & Hf).
  { left. exists be_a, be_b, fa, fb. done. }
  { done. }
  eauto.
Qed.


(** While the link is paired none of its descriptors is closed. *)
Lemma paired_closed_nothing c0 fda fdb w a b ca cb be_a be_b fa fb :
  link_account c0 fda fdb w a b ca cb ->
  piped w a b ca cb be_a be_b fa fb ->
  closed_fds w = c0.
Proof.
  intros [(? & ? & ? & ? & _ & _ & _ & ?)|Hu] Hp; [done|].
  exfalso. eapply unpaired_not_piped; [| exact Hp].
  destruct Hu as [(? & ? & _)|[(? & ? & _)|(? & _)]];
    [left | right; left | right; right]; eauto.
Qed.

(** X5.  As long as the end [b] gets no event callback, timeouts on the
    end [a], however many, and data in both directions leave the link
    paired, with no timeout of [b] on record. *)
Theorem one_sided_timeouts_keep_link (w : world) (a b ca cb : nat)
    (be_a be_b : bufferevent) (fb : bool) (evs : list event) :
  piped w a b ca cb be_a be_b false fb ->
  Forall (only_times_out a b) evs ->
  exists w' be_a' be_b' fb',
    run cfg FD_SETSIZE evs w = Ok tt w' /\
    piped w' a b ca cb be_a' be_b' false fb' /\
    closed_fds w' = closed_fds w.
Proof.
  revert w be_a be_b fb.
  induction evs as [|ev evs IH]; intros w be_a be_b fb Hp Hon.
  - exists w, be_a, be_b, fb. done.
  - inversion Hon as [|? ? Hev Hevs]; subst. rewrite run_cons.
    destruct (link_account_step cfg FD_SETSIZE (closed_fds w)
                (closes be_a) (closes be_b) w a b ca cb ev)
      as (w1 & Hd & Hl & _).
    { left. exists be_a, be_b, false, fb. done. }
    { destruct ev; simpl in *; tauto. }
    assert (exists be_a1 be_b1 fb1, piped w1 a b ca cb be_a1 be_b1 false fb1)
      as (be_a1 & be_b1 & fb1 & Hp1).
    { pose proof (piped_sym _ _ _ _ _ _ _ _ _ Hp) as Hps.
      destruct ev as [fd|x data|x n|x what]; simpl in Hev; [done| | |].
      - destruct Hev as [->| ->].
        + destruct (step_read_piped cfg FD_SETSIZE _ _ _ _ _ _ _ _ _ data Hp)
            as (w1' & Hd' & Hp').
          assert (w1' = w1) as -> by congruence. eauto.
        + destruct (step_read_piped cfg FD_SETSIZE _ _ _ _ _ _ _ _ _ data Hps)
            as (w1' & Hd' & Hp').
          assert (w1' = w1) as -> by congruence.
          apply piped_sym in Hp'. eauto.
      - destruct Hev as [->| ->].
        + destruct (step_write_piped cfg FD_SETSIZE _ _ _ _ _ _ _ _ _ n Hp)
            as (w1' & Hd' & Hp').
          assert (w1' = w1) as -> by congruence. eauto.
        + destruct (step_write_piped cfg FD_SETSIZE _ _ _ _ _ _ _ _ _ n Hps)
            as (w1' & Hd' & Hp').
          assert (w1' = w1) as -> by congruence.
          apply piped_sym in Hp'. eauto.
      - destruct Hev as [-> Hto].
        destruct (step_timeout_first cfg FD_SETSIZE _ _ _ _ _ _ _ _ what Hp Hto)
          as (w1' & Hd' & Hp').
        assert (w1' = w1) as -> by congruence. eauto. }
    rewrite Hd.
    pose proof (paired_closed_nothing _ _ _ _ _ _ _ _ _ _ _ _ Hl Hp1) as Hc1.
    destruct (IH _ _ _ _ Hp1 Hevs) as (w' & be_a' & be_b' & fb' & Hrun & Hp' & Hc').
    exists w', be_a', be_b', fb'. split; [done|]. split; [done|]. congruence.
Qed.

End MoreOfThePipe.

(* ===================================================================== *)
(** ** More of the handshake: from [accept] to a paired link *)
(* ===================================================================== *)

Section MoreOfTheHandshake.

Variable cfg : config.
Variable FD_SETSIZE : Z.

Lemma has_flag_ldiff x f : has_flag (Z.ldiff x f) f = false.
Proof.
  unfold has_flag.
  assert (Z.land (Z.ldiff x f) f = 0) as ->; [| reflexivity].
  apply Z.bits_inj'. intros n Hn.
  rewrite Z.land_spec, Z.ldiff_spec, Z.bits_0.
  destruct (Z.testbit x n), (Z.testbit f n); reflexivity.
Qed.

(** X6.  While the back connection is in progress the client, as
    [initial_read] left it, has reading disabled, no timeout and no read
    callback, and its event callback is [pipe_error] with a null context:
    any event callback on it then dereferences the null pointer. *)
Theorem event_before_pairing_faults (w : world) (b : nat) (be : bufferevent)
    (input : evbuffer) (what : Z) :
  bevs w !! b = Some (Some (handed_over input be)) ->
  has_flag (bev_enabled (handed_over input be)) EV_READ = false /\
  bev_timeout_read (handed_over input be) = None /\
  bev_timeout_write (handed_over input be) = None /\
  bev_readcb (handed_over input be) = None /\
  dispatch cfg FD_SETSIZE (Signal b what) w = Fault NullDeref.
Proof.
  intros Hb. split; [apply has_flag_ldiff|].
  split; [reflexivity|]. split; [reflexivity|]. split; [reflexivity|].
  unfold dispatch, is_live, run_eventcb. rewrite Hb. simpl.
  unfold pipe_error, pipe_error_timeout, pipe_error_close.
  destruct (has_flag what BEV_EVENT_TIMEOUT); mrun; reflexivity.
Qed.

Lemma initial_accept_exec fd w :
  0 <= fd <= FD_SETSIZE ->
  initial_accept cfg FD_SETSIZE fd w =
  Ok tt {| bevs := <[fresh (dom (bevs w)) := Some (accepted cfg fd)]> (bevs w);
           ctxs := ctxs w; connects := connects w;
           closed_fds := closed_fds w;
           sockopts := sockopts w ++ [(fd, "O_NONBLOCK"%string)];
           out_log := out_log w; err_log := err_log w;
           net_connect := net_connect w |}.
Proof.
  intros Hfd. unfold initial_accept.
  destruct (Z.ltb_spec fd 0); [lia|].
  destruct (Z.ltb_spec FD_SETSIZE fd); [lia|].
  mrun. unfold world_with_bevs, world_with_sockopts. simpl.
  rewrite !insert_insert_eq. reflexivity.
Qed.

(** X7.  [initial_accept] never faults and never touches what exists: the
    bufferevents already there, the records and the connections started
    stay as they are.  When [accept] failed it only reports the error; a
    descriptor above [FD_SETSIZE] is only closed; otherwise exactly one
    bufferevent is added, at an address that was free, and nothing is
    closed. *)
Theorem initial_accept_disturbs_nothing (w : world) (fd : Z) :
  exists w',
    initial_accept cfg FD_SETSIZE fd w = Ok tt w' /\
    ctxs w' = ctxs w /\ connects w' = connects w /\ out_log w' = out_log w /\
    (forall x v, bevs w !! x = Some v -> bevs w' !! x = Some v) /\
    (fd < 0 ->
     bevs w' = bevs w /\ closed_fds w' = closed_fds w /\
     err_log w' = err_log w ++ ["accept"%string]) /\
    (FD_SETSIZE < fd -> 0 <= fd ->
     bevs w' = bevs w /\ closed_fds w' = closed_fds w ++ [fd] /\
     err_log w' = err_log w) /\
    (0 <= fd <= FD_SETSIZE ->
     bevs w !! fresh (dom (bevs w)) = None /\
     bevs w' = <[fresh (dom (bevs w)) := Some (accepted cfg fd)]> (bevs w) /\
     closed_fds w' = closed_fds w /\ err_log w' = err_log w).
Proof.
  destruct (Z.lt_ge_cases fd 0) as [Hneg|Hpos].
  - unfold initial_accept. destruct (Z.ltb_spec fd 0); [| lia].
    eexists. split; [reflexivity|]. simpl. split_and!; try done; lia.
  - destruct (Z.lt_ge_cases FD_SETSIZE fd) as [Hbig|Hok].
    + unfold initial_accept. destruct (Z.ltb_spec fd 0); [lia|].
      destruct (Z.ltb_spec FD_SETSIZE fd); [| lia].
      eexists. split; [reflexivity|]. simpl. split_and!; try done; lia.
    + rewrite initial_accept_exec by lia.
      eexists. split; [reflexivity|]. simpl.
      assert (bevs w !! fresh (dom (bevs w)) = None) as Hfresh
        by (apply not_elem_of_dom, is_fresh).
      split_and!; try done; try lia.
      intros x v Hx. rewrite lookup_insert_ne; [done|]. congruence.
Qed.

(** Everything [back_connection] does when the connection is reported. *)
Lemma pairing_full w o b be_o be_b :
  connecting w o b be_o be_b ->
  exists w' co cb be_o' be_b',
    dispatch cfg FD_SETSIZE (Signal b BEV_EVENT_CONNECTED) w = Ok tt w' /\
    piped w' o b co cb be_o' be_b' false false /\
    connects w' = connects w /\
    sockopts w' = sockopts w ++ [(bev_fd be_b, "TCP_NODELAY"%string)] /\
    closed_fds w' = closed_fds w /\
    err_log w' = err_log w /\ out_log w' = out_log w /\
    bev_fd be_o' = bev_fd be_o /\ bev_fd be_b' = bev_fd be_b /\
    has_flag (bev_enabled be_o') EV_READ = true /\
    has_flag (bev_enabled be_b') EV_READ = true /\
    bev_timeout_read be_o' = Some (default_timeout cfg) /\
    bev_timeout_read be_b' = Some (default_timeout cfg) /\
    bev_timeout_write be_o' = None /\ bev_timeout_write be_b' = None /\
    bev_wm_read be_o' = bev_wm_read be_o /\
    bev_wm_read be_b' = (0, MAX_RECV_BUF_DEFAULT) /\
    bev_input be_o' = [] /\ bev_input be_b' = bev_input be_b /\
    bev_output be_o' = bev_output be_o /\
    bev_output be_b' = bev_output be_b ++ bev_input be_o /\
    bev_sent be_o' = bev_sent be_o /\ bev_sent be_b' = bev_sent be_b.
Proof.
  intros (Hne & Ho & Hb & Hcb & Harg).
  unfold dispatch, is_live. rewrite Hb.
  unfold run_eventcb. rewrite Hcb, Harg.
  unfold back_connection.
  change (has_flag BEV_EVENT_CONNECTED BEV_EVENT_CONNECTED) with true.
  change (stopped_by BEV_EVENT_CONNECTED) with 0.
  erewrite bind_ok; [| unfold bufferevent_disable; mrun; reflexivity].
  erewrite bind_ok; [| reflexivity]. cbv beta iota.
  match goal with |- context [bind (create_contexts ?f ?bk) _ ?w0] =>
    destruct (create_contexts_exec f bk w0) as (r0 & r1 & Hr & Hcc) end.
  erewrite bind_ok; [| exact Hcc]. clear Hcc.
  mrun.
  eexists _, r0, r1, _, _. split; [reflexivity|].
  split.
  { unfold piped, pipe_callbacks. simpl. mlookup.
    repeat split; (done || congruence). }
  simpl. split_and!; try reflexivity; apply has_flag_lor; reflexivity.
Qed.

(** The detector, then the connection: what [initial_read] and
    [back_connection] make of a live client when the backend accepts. *)
Lemma detect_then_pair w b be ctx :
  config_ok cfg ->
  bevs w !! b = Some (Some be) ->
  (forall port, 0 <= net_connect w port) ->
  exists port w1 w2 co cb be_c be_n,
    initial_read cfg b ctx w = Ok tt w1 /\
    dispatch cfg FD_SETSIZE (Signal (fresh (dom (bevs w))) BEV_EVENT_CONNECTED) w1
      = Ok tt w2 /\
    piped w2 b (fresh (dom (bevs w))) co cb be_c be_n false false /\
    connects w2 = connects w ++ [(fresh (dom (bevs w)), loopback port)] /\
    sockopts w2 =
      sockopts w ++ [(net_connect w (port mod 2 ^ 16), "TCP_NODELAY"%string)] /\
    closed_fds w2 = closed_fds w /\
    err_log w2 = err_log w /\
    out_log w2 = out_log w /\
    bev_fd be_c = bev_fd be /\
    bev_fd be_n = net_connect w (port mod 2 ^ 16) /\
    pipe_end cfg be_c /\ pipe_end cfg be_n /\
    bev_input be_c = [] /\ bev_input be_n = [] /\
    bev_output be_c = bev_output be /\ bev_sent be_c = bev_sent be /\
    bev_sent be_n = [] /\
    (knock_in_first_chain cfg (bev_input be) ->
     port = hidden_port cfg /\
     bev_output be_n = evbuffer_drain (bev_input be) (knock_size cfg)) /\
    (~ knock_in_first_chain cfg (bev_input be) ->
     port = normal_port cfg /\ bev_output be_n = bev_input be).
Proof.
  intros Hcfg Hb Hnet.
  set (nb := fresh (dom (bevs w))).
  assert (nb <> b) as Hnb by (eapply fresh_bev_ne; eauto).
  assert (forall port input',
            choose_port cfg (InputOf b) w = Ok port (buffered input' b be w) ->
            exists w1 w2 co cb be_c be_n,
              initial_read cfg b ctx w = Ok tt w1 /\
              dispatch cfg FD_SETSIZE (Signal nb BEV_EVENT_CONNECTED) w1 = Ok tt w2 /\
              piped w2 b nb co cb be_c be_n false false /\
              connects w2 = connects w ++ [(nb, loopback port)] /\
              sockopts w2 =
                sockopts w ++ [(net_connect w (port mod 2 ^ 16), "TCP_NODELAY"%string)] /\
              closed_fds w2 = closed_fds w /\
              err_log w2 = err_log w /\
              out_log w2 = out_log w /\
              bev_fd be_c = bev_fd be /\
              bev_fd be_n = net_connect w (port mod 2 ^ 16) /\
              pipe_end cfg be_c /\ pipe_end cfg be_n /\
              bev_input be_c = [] /\ bev_input be_n = [] /\
              bev_output be_c = bev_output be /\ bev_sent be_c = bev_sent be /\
              bev_sent be_n = [] /\
              bev_output be_n = input') as Hgo.
  { intros port input' Hc.
    rewrite (initial_read_pending cfg b ctx w be port input' Hb Hc (Hnet _)).
    set (w1 := pending_world w b (handed_over input' be) port).
    assert (connecting w1 b nb (handed_over input' be)
              (backend_new b (net_connect w (port mod 2 ^ 16)))) as Hcon.
    { unfold connecting, w1, pending_world; simpl. fold nb. mlookup.
      repeat split; congruence. }
    destruct (pairing_full _ _ _ _ _ Hcon)
      as (w2 & co & cb & be_c & be_n & Hd & Hp & H).
    exists w1, w2, co, cb, be_c, be_n.
    destruct H as (H1&H2&H3&H4&H5&H6&H7&H8&H9&H10&H11&H12&H13&H14&H15&H16&
                   H17&H18&H19&H20&H21).
    unfold pipe_end. rewrite H1, H2, H3, H4, H5.
    split_and!; done. }
  destruct (knock_in_first_chain_dec cfg (bev_input be)) as [Hk|Hk].
  - destruct (Hgo _ _ (choose_port_knock cfg b w be Hb Hcfg Hk))
      as (w1 & w2 & co & cb & be_c & be_n & H).
    exists (hidden_port cfg), w1, w2, co, cb, be_c, be_n.
    destruct H as (?&?&?&?&?&?&?&?&?&?&?&?&?&?&?&?&?&?).
    split_and!; try done.
  - destruct (Hgo (normal_port cfg) (bev_input be))
      as (w1 & w2 & co & cb & be_c & be_n & H).
    { rewrite (buffered_same _ _ _ Hb).
      by apply (choose_port_no_knock cfg b w be). }
    exists (normal_port cfg), w1, w2, co, cb, be_c, be_n.
    destruct H as (?&?&?&?&?&?&?&?&?&?&?&?&?&?&?&?&?&?).
    split_and!; try done.
Qed.

(** X8.  From accept to pipe.  For an accepted descriptor in range, a
    usable configuration and backends that accept: the first read decides
    (the knock in the first chain of what was read: hidden port, the rest
    forwarded; otherwise normal port, everything forwarded), and when the
    backend reports the connection the two fresh bufferevents are a paired
    link.  Both ends are set up alike, [TCP_NODELAY] is set on the backend
    socket, one connection was started and no descriptor closed. *)
Theorem accept_read_connect (w : world) (fd : Z) (data : list chain) :
  config_ok cfg ->
  0 <= fd <= FD_SETSIZE ->
  (forall port, 0 <= net_connect w port) ->
  exists b nb port w' co cb be_c be_n,
    bevs w !! b = None /\ bevs w !! nb = None /\ b <> nb /\
    run cfg FD_SETSIZE
      [Incoming fd; Readable b data; Signal nb BEV_EVENT_CONNECTED] w
      = Ok tt w' /\
    piped w' b nb co cb be_c be_n false false /\
    connects w' = connects w ++ [(nb, loopback port)] /\
    sockopts w' =
      sockopts w ++ [(fd, "O_NONBLOCK"%string);
                     (net_connect w (port mod 2 ^ 16), "TCP_NODELAY"%string)] /\
    closed_fds w' = closed_fds w /\
    bev_fd be_c = fd /\ bev_fd be_n = net_connect w (port mod 2 ^ 16) /\
    pipe_end cfg be_c /\ pipe_end cfg be_n /\
    bev_input be_c = [] /\ bev_output be_c = [] /\
    bev_sent be_n = [] /\
    (knock_in_first_chain cfg data ->
     port = hidden_port cfg /\
     evbuffer_bytes (bev_output be_n) =
       drop (Z.to_nat (knock_size cfg)) (evbuffer_bytes data)) /\
    (~ knock_in_first_chain cfg data ->
     port = normal_port cfg /\ bev_output be_n = data).
Proof.
  intros Hcfg Hfd Hnet.
  set (b := fresh (dom (bevs w))).
  assert (bevs w !! b = None) as Hfresh by (apply not_elem_of_dom, is_fresh).
  pose proof (initial_accept_exec fd w Hfd) as Hacc. fold b in Hacc.
  match type of Hacc with _ = Ok tt ?x => set (w0 := x) in * end.
  set (w1 := world_with_bevs
               (<[b := Some (bev_with_input data (accepted cfg fd))]> (bevs w0)) w0).
  assert (dispatch cfg FD_SETSIZE (Readable b data) w0 =
          initial_read cfg b arg_base w1) as Hread.
  { unfold dispatch, is_live, w0. simpl. mlookup. unfold run_readcb. simpl.
    erewrite bind_ok; [| mrun; reflexivity]. reflexivity. }
  destruct (detect_then_pair w1 b (bev_with_input data (accepted cfg fd)) arg_base
              Hcfg)
    as (port & w2 & w3 & co & cb & be_c & be_n & Hir & Hd & Hp & Hcon & Hso &
        Hcl & _ & _ & Hfdc & Hfdn & Hec & Hen & Hic & _ & Hoc & _ & Hsn & Hk & Hnk).
  { unfold w1. simpl. by mlookup. }
  { intros port. apply Hnet. }
  set (nb := fresh (dom (bevs w1))) in *.
  assert (nb <> b) as Hnb.
  { unfold nb. apply (fresh_bev_ne _ _ (Some (bev_with_input data (accepted cfg fd)))).
    unfold w1. simpl. by mlookup. }
  assert (bevs w !! nb = None) as Hnbw.
  { assert (bevs w1 !! nb = None) as H by (apply not_elem_of_dom, is_fresh).
    unfold w1 in H. simpl in H.
    rewrite !lookup_insert_ne in H by congruence. exact H. }
  exists b, nb, port, w3, co, cb, be_c, be_n.
  rewrite run_cons. unfold dispatch at 1. rewrite Hacc.
  rewrite run_cons, Hread, Hir, run_cons, Hd.
  split_and!; try done; try congruence.
  - rewrite Hso. unfold w1. simpl. by rewrite <- app_assoc.
  - intros Hkn. destruct (Hk Hkn) as (-> & Hout). split; [done|].
    rewrite Hout. simpl. apply evbuffer_drain_bytes.
    destruct data; [done|]. destruct Hkn. lia.
Qed.

(** X9.  A client that sends nothing.  When the detection timeout of an
    accepted client fires before any byte, the connection goes to the
    normal port whatever the knock is (in verbose mode the message is
    printed first); when the backend reports the connection the link is
    paired and the backend has nothing to send. *)
Theorem accept_timeout_connect (w : world) (fd what : Z) :
  config_ok cfg ->
  0 <= fd <= FD_SETSIZE ->
  (forall port, 0 <= net_connect w port) ->
  has_flag what BEV_EVENT_TIMEOUT = true ->
  exists b nb w' co cb be_c be_n,
    bevs w !! b = None /\ bevs w !! nb = None /\ b <> nb /\
    run cfg FD_SETSIZE
      [Incoming fd; Signal b what; Signal nb BEV_EVENT_CONNECTED] w
      = Ok tt w' /\
    piped w' b nb co cb be_c be_n false false /\
    connects w' = connects w ++ [(nb, loopback (normal_port cfg))] /\
    out_log w' =
      out_log w ++
      (if verbose cfg
       then ["Nothing received, timeout, assuming https"%string] else []) /\
    closed_fds w' = closed_fds w /\
    bev_fd be_c = fd /\
    pipe_end cfg be_c /\ pipe_end cfg be_n /\
    bev_input be_c = [] /\ bev_output be_n = [] /\ bev_sent be_n = [].
Proof.
  intros Hcfg Hfd Hnet Hto.
  set (b := fresh (dom (bevs w))).
  assert (bevs w !! b = None) as Hfresh by (apply not_elem_of_dom, is_fresh).
  pose proof (initial_accept_exec fd w Hfd) as Hacc. fold b in Hacc.
  match type of Hacc with _ = Ok tt ?x => set (w0 := x) in * end.
  set (w1 := announce cfg
               (world_with_bevs
                  (<[b := Some (bev_with_enabled
                                  (Z.ldiff (Z.lor EV_WRITE EV_READ) (stopped_by what))
                                  (accepted cfg fd))]> (bevs w0)) w0)).
  assert (dispatch cfg FD_SETSIZE (Signal b what) w0 =
          initial_read cfg b arg_base w1) as Hsig.
  { unfold dispatch, is_live, w0. simpl. mlookup. unfold run_eventcb. simpl.
    erewrite bind_ok; [| unfold bufferevent_disable; mrun; reflexivity].
    rewrite (initial_error_timeout cfg b what arg_base _ Hto). reflexivity. }
  set (be := bev_with_enabled
               (Z.ldiff (Z.lor EV_WRITE EV_READ) (stopped_by what))
               (accepted cfg fd)).
  assert (bevs w1 !! b = Some (Some be)) as Hb1.
  { unfold w1. rewrite announce_bevs. simpl. by mlookup. }
  destruct (detect_then_pair w1 b be arg_base Hcfg Hb1)
    as (port & w2 & w3 & co & cb & be_c & be_n & Hir & Hd & Hp & Hcon & _ &
        Hcl & _ & Hlog & Hfdc & _ & Hec & Hen & Hic & _ & _ & _ & Hsn & _ & Hnk).
  { intros port. unfold w1, announce. destruct (verbose cfg); apply Hnet. }
  destruct Hnk as (-> & Hout); [simpl; tauto|].
  set (nb := fresh (dom (bevs w1))) in *.
  assert (nb <> b) as Hnb by (unfold nb; eapply fresh_bev_ne; eauto).
  assert (bevs w !! nb = None) as Hnbw.
  { assert (bevs w1 !! nb = None) as H by (apply not_elem_of_dom, is_fresh).
    unfold w1 in H. rewrite announce_bevs in H. simpl in H.
    rewrite !lookup_insert_ne in H by congruence. exact H. }
  exists b, nb, w3, co, cb, be_c, be_n.
  rewrite run_cons. unfold dispatch at 1. rewrite Hacc.
  rewrite run_cons, Hsig, Hir, run_cons, Hd.
  split_and!; try done; try congruence.
  - rewrite Hcon. unfold w1, announce. by destruct (verbose cfg).
  - rewrite Hlog. unfold w1, announce. destruct (verbose cfg); simpl;
      by rewrite ?app_nil_r.
  - rewrite Hcl. unfold w1, announce. by destruct (verbose cfg).
Qed.

(** X15.  The two ways a failed back connection is reported in which the
    callbacks do free everything once.  When no socket can be made for the
    connection, and when the connection was started and libevent reports
    [BEV_EVENT_ERROR] later, the backend bufferevent and the client are
    both freed and the client's socket is closed; the one connection
    attempt stays the only one; the backend bufferevent never held a byte
    in its output or sent one; no record is touched; and nothing is
    delivered to the two freed bufferevents afterwards. *)
Theorem connect_failure_reported (w : world) (b : nat) (be : bufferevent)
    (base : cb_arg) (port : Z) :
  bevs w !! b = Some (Some be) ->
  has_flag (bev_options be) BEV_OPT_CLOSE_ON_FREE = true ->
  0 <= bev_fd be ->
  let nb := fresh (dom (bevs w)) in
  let gone := <[b := None]> (<[nb := None]> (bevs w)) in
  (net_connect w (port mod 2 ^ 16) < -1 ->
   exists w',
     create_pipe cfg base (Some b) port w = Ok tt w' /\
     bevs w' = gone /\
     connects w' = connects w ++ [(nb, loopback port)] /\
     closed_fds w' = closed_fds w ++ [bev_fd be] /\
     ctxs w' = ctxs w /\
     (forall ev, targets b ev \/ targets nb ev ->
                 dispatch cfg FD_SETSIZE ev w' = Ok tt w')) /\
  (0 <= net_connect w (port mod 2 ^ 16) ->
   forall what,
     has_flag what BEV_EVENT_CONNECTED = false ->
     has_flag what BEV_EVENT_ERROR = true ->
     exists w1 be_n w2,
       create_pipe cfg base (Some b) port w = Ok tt w1 /\
       bevs w1 !! b = Some (Some be) /\
       bevs w1 !! nb = Some (Some be_n) /\
       bev_output be_n = [] /\ bev_sent be_n = [] /\
       dispatch cfg FD_SETSIZE (Signal nb what) w1 = Ok tt w2 /\
       bevs w2 = gone /\
       connects w2 = connects w ++ [(nb, loopback port)] /\
       closed_fds w2 =
         closed_fds w ++ [net_connect w (port mod 2 ^ 16); bev_fd be] /\
       ctxs w2 = ctxs w /\
       (forall ev, targets b ev \/ targets nb ev ->
                   dispatch cfg FD_SETSIZE ev w2 = Ok tt w2)).
Proof.
  intros Hb Hopt Hfd nb gone.
  assert (nb <> b) as Hnb by (eapply fresh_bev_ne; eauto).
  assert (closes be = [bev_fd be]) as Hcl.
  { unfold closes. rewrite Hopt.
    destruct (Z.leb_spec 0 (bev_fd be)); [reflexivity | lia]. }
  assert (forall w', bevs w' = gone ->
            forall ev, targets b ev \/ targets nb ev ->
                       dispatch cfg FD_SETSIZE ev w' = Ok tt w') as Hquiet.
  { intros w' Hw' ev [Ht|Ht].
    - apply (step_dead cfg FD_SETSIZE w' b); [| done].
      rewrite Hw'. unfold gone. by mlookup.
    - apply (step_dead cfg FD_SETSIZE w' nb); [| done].
      rewrite Hw'. unfold gone. by mlookup. }
  split.
  - intros Hneg. eexists. split; [by eapply create_pipe_failed|].
    simpl. rewrite Hcl. split_and!; try done. by apply Hquiet.
  - intros Hpos what Hnc Herr.
    rewrite (create_pipe_pending cfg base b port w be Hb Hpos).
    do 3 eexists. split; [reflexivity|]. simpl. fold nb.
    split; [by mlookup|]. split; [by mlookup|].
    split; [reflexivity|]. split; [reflexivity|].
    unfold dispatch, is_live, run_eventcb; simpl. fold nb. mlookup. simpl.
    unfold back_connection. rewrite Hnc, Herr. mrun.
    assert (forall e, closes (bev_with_enabled e
                      (backend_new b (net_connect w (port mod 2 ^ 16)))) =
                      [net_connect w (port mod 2 ^ 16)]) as Hcl'.
    { intros e. unfold closes. simpl.
      destruct (Z.leb_spec 0 (net_connect w (port mod 2 ^ 16))); [| lia].
      reflexivity. }
    rewrite Hcl', Hcl.
    assert (<[b:=None]> (<[nb:=None]> (<[nb:=Some
               (bev_with_enabled (Z.ldiff EV_WRITE (stopped_by what))
                  (backend_new b (net_connect w (port mod 2 ^ 16))))]>
               (<[nb:=Some (backend_new b (net_connect w (port mod 2 ^ 16)))]>
                  (bevs w)))) = gone) as Hgone.
    { unfold gone. apply map_eq. intros k. rewrite !lookup_insert.
      repeat case_decide; congruence || reflexivity. }
    split; [reflexivity|]. simpl. split_and!; try done.
    + by rewrite <- app_assoc.
    + by apply Hquiet.
Qed.

End MoreOfTheHandshake.

(* ===================================================================== *)
(** ** The process: starting, serving, stopping *)
(* ===================================================================== *)

Section TheProcess.

Variable cfg : config.
Variable FD_SETSIZE : Z.

Lemma proc_with_world_same p : proc_with_world (proc_world p) p = p.
Proof. by destruct p. Qed.

(** Over events of libevent alone, the loop is a run of the callbacks. *)
Lemma event_base_dispatch_run evs p :
  listener_added p = true ->
  event_base_dispatch cfg FD_SETSIZE (map Deliver evs) p =
  match run cfg FD_SETSIZE evs (proc_world p) with
  | Ok _ w' => Returns 1 (proc_with_world w' p)
  | Fault f => Crashes f
  end.
Proof.
  revert p. induction evs as [|ev evs IH]; intros p Hadd.
  - simpl. unfold pret, ret. by rewrite proc_with_world_same.
  - rewrite run_cons. simpl map. simpl event_base_dispatch. unfold pbind.
    assert (deliver cfg FD_SETSIZE ev p =
            in_world (dispatch cfg FD_SETSIZE ev) p) as ->.
    { unfold deliver. destruct ev; [by rewrite Hadd | done..]. }
    unfold in_world.
    destruct (dispatch cfg FD_SETSIZE ev (proc_world p)) as [[] w1|f]; [| done].
    rewrite IH by done. simpl.
    by destruct (run cfg FD_SETSIZE evs w1).
Qed.

(** With everything granted, [start] gets to the event loop in the state
    [serving]. *)
Lemma start_reaches_loop os items p :
  os_ok os ->
  start cfg FD_SETSIZE os items p =
  (event_base_dispatch cfg FD_SETSIZE items ;;; pret 0)
    (serving cfg p (os_socket os)).
Proof.
  intros (Hbase & Hsock & Hbind & Hlisten).
  assert ((os_socket os =? -1) = false) as E1 by (by apply Z.eqb_neq).
  assert ((os_bind os <? 0) = false) as E2 by (apply Z.ltb_ge; lia).
  assert ((os_listen os <? 0) = false) as E3 by (apply Z.ltb_ge; lia).
  unfold start, event_base_new, socket, bind_socket, listen.
  rewrite Hbase.
  unfold pbind, pmodify, pret. simpl.
  repeat (progress (rewrite ?E1, ?E2, ?E3; simpl)).
  match goal with
  | |- match event_base_dispatch _ _ _ ?q with _ => _ end = _ =>
      assert (q = serving cfg p (os_socket os)) as ->; [| reflexivity]
  end.
  unfold serving, served_world, proc_with_listener_event, proc_with_listening,
    proc_with_bound, proc_with_world, world_with_sockopts. simpl.
  by rewrite <- app_assoc.
Qed.

Lemma event_base_dispatch_app xs ys p :
  event_base_dispatch cfg FD_SETSIZE (xs ++ ys) p =
  match event_base_dispatch cfg FD_SETSIZE xs p with
  | Returns _ p' => event_base_dispatch cfg FD_SETSIZE ys p'
  | Exits code p' => Exits code p'
  | Killed p' => Killed p'
  | Crashes f => Crashes f
  end.
Proof.
  revert p. induction xs as [|x xs IH]; intros p; [reflexivity|].
  simpl. destruct x; unfold pbind.
  - destruct (deliver cfg FD_SETSIZE ev p); auto.
  - destruct (raise_sigterm p); auto.
Qed.

(** X10.  When the system grants the base, the socket, [bind] and
    [listen], [start] serves: the listener is non-blocking, has
    SO_REUSEADDR, is bound to the external port on every interface and
    listens with a backlog of 16; the events of the loop are handled as a
    run of the callbacks from that state, and when the loop ends [start]
    returns 0.  A fault of a callback is a crash of the process. *)
Theorem start_serves (os : os_answers) (evs : list event) (p : process) :
  os_ok os ->
  start cfg FD_SETSIZE os (map Deliver evs) p =
  match run cfg FD_SETSIZE evs (served_world (proc_world p) (os_socket os)) with
  | Ok _ w' => Returns 0 (proc_with_world w' (serving cfg p (os_socket os)))
  | Fault f => Crashes f
  end.
Proof.
  intros Hos. rewrite start_reaches_loop by done. unfold pbind.
  rewrite event_base_dispatch_run by done. simpl.
  by destruct (run cfg FD_SETSIZE evs _).
Qed.

(** X11.  SIGTERM while serving, taken between two callbacks:
    [cleanup_buffers] removes and frees the listener event, frees the base
    and exits with status 0.  It frees no bufferevent and closes no
    descriptor (the world is the one the callbacks left), and nothing the
    loop would have met afterwards is handled. *)
Theorem sigterm_stops_service (os : os_answers) (evs : list event)
    (rest : list loop_item) (p : process) (w' : world) :
  os_ok os ->
  run cfg FD_SETSIZE evs (served_world (proc_world p) (os_socket os))
    = Ok tt w' ->
  start cfg FD_SETSIZE os (map Deliver evs ++ Sigterm :: rest) p =
  Exits 0 (proc_with_base Released
             (proc_with_listener_event Released false
                (proc_with_world w' (serving cfg p (os_socket os))))).
Proof.
  intros Hos Hrun. rewrite start_reaches_loop by done. unfold pbind.
  rewrite event_base_dispatch_app, event_base_dispatch_run by done.
  simpl proc_world. rewrite Hrun. reflexivity.
Qed.

(** X12.  When [bind] fails [start] reports it with [perror], closes the
    listener, frees the base and returns 1: nothing stays bound or
    listening, and the event loop is never entered. *)
Theorem start_bind_failure (os : os_answers) (items : list loop_item)
    (p : process) :
  os_event_base_new os = true ->
  os_socket os <> -1 ->
  os_bind os < 0 ->
  exists p',
    start cfg FD_SETSIZE os items p = Returns 1 p' /\
    g_base p' = Released /\
    closed_fds (proc_world p') = closed_fds (proc_world p) ++ [os_socket os] /\
    err_log (proc_world p') = err_log (proc_world p) ++ ["bind"%string] /\
    bound p' = bound p /\ listening p' = listening p /\
    g_listener_event p' = g_listener_event p /\
    bevs (proc_world p') = bevs (proc_world p).
Proof.
  intros Hbase Hsock Hbind.
  assert ((os_socket os =? -1) = false) as E1 by (by apply Z.eqb_neq).
  assert ((os_bind os <? 0) = true) as E2 by (apply Z.ltb_lt; lia).
  unfold start, event_base_new, socket, bind_socket, listen. rewrite Hbase.
  unfold pbind, pmodify, pret. simpl.
  repeat (progress (rewrite ?E1, ?E2; simpl)).
  eexists. split; [reflexivity|]. simpl. done.
Qed.

(** X13.  When [listen] fails [start] reports it and returns 1, but,
    unlike after a failed [bind], it neither closes the listener nor frees
    the base: the socket stays open and bound, the base stays allocated. *)
Theorem start_listen_failure (os : os_answers) (items : list loop_item)
    (p : process) :
  os_event_base_new os = true ->
  os_socket os <> -1 ->
  0 <= os_bind os ->
  os_listen os < 0 ->
  exists p',
    start cfg FD_SETSIZE os items p = Returns 1 p' /\
    g_base p' = Live tt /\
    closed_fds (proc_world p') = closed_fds (proc_world p) /\
    err_log (proc_world p') = err_log (proc_world p) ++ ["listen"%string] /\
    bound p' =
      bound p ++ [(os_socket os,
                   {| sin_family := AF_INET; sin_addr := 0;
                      sin_port := external_port cfg mod 2 ^ 16 |})] /\
    listening p' = listening p /\
    g_listener_event p' = g_listener_event p /\
    bevs (proc_world p') = bevs (proc_world p).
Proof.
  intros Hbase Hsock Hbind Hlisten.
  assert ((os_socket os =? -1) = false) as E1 by (by apply Z.eqb_neq).
  assert ((os_bind os <? 0) = false) as E2 by (apply Z.ltb_ge; lia).
  assert ((os_listen os <? 0) = true) as E3 by (apply Z.ltb_lt; lia).
  unfold start, event_base_new, socket, bind_socket, listen. rewrite Hbase.
  unfold pbind, pmodify, pret. simpl.
  repeat (progress (rewrite ?E1, ?E2, ?E3; simpl)).
  eexists. split; [reflexivity|]. simpl. done.
Qed.

(** X14.  Whatever [start] is refused (the base, the socket, [bind] or
    [listen]), it returns 1 with the handler of SIGTERM installed and
    [__listener_event] still null, without entering the event loop: a
    SIGTERM after that makes [cleanup_buffers] call [event_del] on the
    null pointer. *)
Theorem sigterm_after_failed_start (os : os_answers)
    (items : list loop_item) (p : process) :
  os_event_base_new os = false \/ os_socket os = -1 \/
  os_bind os < 0 \/ os_listen os < 0 ->
  g_listener_event p = Unset ->
  exists p',
    start cfg FD_SETSIZE os items p = Returns 1 p' /\
    sigterm_handler p' = true /\
    g_listener_event p' = Unset /\
    bevs (proc_world p') = bevs (proc_world p) /\
    raise_sigterm p' = Crashes NullDeref.
Proof.
  intros Hos Hev.
  assert (forall p', sigterm_handler p' = true -> g_listener_event p' = Unset ->
                     raise_sigterm p' = @Crashes unit NullDeref) as Hcrash.
  { intros p' Hh He. unfold raise_sigterm, cleanup_buffers, pbind, event_del.
    by rewrite Hh, He. }
  unfold start, event_base_new, socket, bind_socket, listen.
  unfold pbind, pmodify, pret.
  destruct (os_event_base_new os) eqn:Hbase; simpl.
  2: { eexists. split; [reflexivity|]. split_and!; try done. by apply Hcrash. }
  destruct (Z.eqb_spec (os_socket os) (-1)) as [Hs|Hs]; simpl.
  { eexists. split; [reflexivity|]. split_and!; try done. by apply Hcrash. }
  destruct (Z.ltb_spec (os_bind os) 0) as [Hb|Hb]; simpl.
  { destruct (Z.ltb_spec (os_bind os) 0); [| lia]. simpl.
    eexists. split; [reflexivity|]. split_and!; try done. by apply Hcrash. }
  destruct (Z.ltb_spec (os_bind os) 0); [lia|]. simpl.
  destruct (Z.ltb_spec (os_listen os) 0) as [Hl|Hl]; simpl.
  { destruct (Z.ltb_spec (os_listen os) 0); [| lia]. simpl.
    eexists. split; [reflexivity|]. split_and!; try done. by apply Hcrash. }
  destruct Hos as [?|[?|[?|?]]]; (done || lia).
Qed.

End TheProcess.

(* ===================================================================== *)
(** ** These theorems at work on the examples *)
(* ===================================================================== *)

Lemma half_closed_link_draining : draining half_closed_link 1 1 0 0 survivor.
Proof.
  unfold draining, pipe_callbacks.
  split_and!; try (vm_compute; reflexivity); try discriminate.
  eexists. vm_compute. reflexivity.
Qed.

Lemma os_granted_ok : os_ok os_granted.
Proof. unfold os_ok. simpl. split_and!; (reflexivity || lia). Qed.

Lemma survivor_discards_input_witness :
  draining half_closed_link 1 1 0 0 survivor /\
  evbuffer_get_length (bev_input survivor ++ [example_hello]) <= SIZE_MAX /\
  Forall (data_on 1) [Readable 1 [example_hello]; Writable 1 3] /\
  (exists w',
      dispatch example_cfg 1024 (Readable 1 [example_hello]) half_closed_link
        = Ok tt w' /\
      bevs w' = <[1%nat := Some (bev_with_input [] survivor)]> (bevs half_closed_link) /\
      closed_fds w' = closed_fds half_closed_link) /\
  (exists w' be',
      run example_cfg 1024 [Readable 1 [example_hello]; Writable 1 3]
        half_closed_link = Ok tt w' /\
      draining w' 1 1 0 0 be' /\
      bev_sent be' ++ evbuffer_bytes (bev_output be') =
      bev_sent survivor ++ evbuffer_bytes (bev_output survivor)).
Proof.
  split; [exact half_closed_link_draining|].
  assert (evbuffer_get_length (bev_input survivor ++ [example_hello]) <= SIZE_MAX)
    as Hlen by (vm_compute; discriminate).
  split; [exact Hlen|].
  assert (Forall (data_on 1) [Readable 1 [example_hello]; Writable 1 3]) as Hon
    by (repeat constructor).
  split; [exact Hon|].
  destruct (survivor_discards_input example_cfg 1024 _ _ _ _ _ _
              half_closed_link_draining) as (Hread & Hrun).
  split.
  - destruct (Hread _ Hlen) as (w' & Hd & Hb & _ & _ & Hc).
    exists w'. split; [exact Hd|]. split; [exact Hb | exact Hc].
  - exact (Hrun _ Hon).
Defined.

Lemma link_isolation_witness :
  (exists be_a be_b, piped example_link 0 1 0 1 be_a be_b false false) /\
  Forall (on_link 0 1)
    [Readable 1 [example_hello]; Signal 0 timeout_reading;
     Signal 1 error_reading; Readable 0 [example_hello]] /\
  exists w',
    run example_cfg 1024
      [Readable 1 [example_hello]; Signal 0 timeout_reading;
       Signal 1 error_reading; Readable 0 [example_hello]]
      example_link = Ok tt w' /\
    same_outside 0 1 0 1 example_link w'.
Proof.
  split; [exact example_link_piped|].
  assert (Forall (on_link 0 1)
            [Readable 1 [example_hello]; Signal 0 timeout_reading;
             Signal 1 error_reading; Readable 0 [example_hello]]) as Hon.
  { repeat constructor; simpl; lia. }
  split; [exact Hon|].
  destruct example_link_piped as (be_a & be_b & Hp).
  exact (link_isolation example_cfg 1024 _ _ _ _ _ _ _ _ _ _ Hp Hon).
Defined.


Lemma one_sided_timeouts_keep_link_witness :
  (exists be_a be_b, piped example_link 0 1 0 1 be_a be_b false false) /\
  Forall (only_times_out 0 1)
    [Signal 0 timeout_reading; Readable 1 [example_hello];
     Signal 0 timeout_reading; Writable 0 2; Signal 0 timeout_reading] /\
  exists w' be_a' be_b' fb',
    run example_cfg 1024
      [Signal 0 timeout_reading; Readable 1 [example_hello];
       Signal 0 timeout_reading; Writable 0 2; Signal 0 timeout_reading]
      example_link = Ok tt w' /\
    piped w' 0 1 0 1 be_a' be_b' false fb' /\
    closed_fds w' = closed_fds example_link.
Proof.
  split; [exact example_link_piped|].
  assert (Forall (only_times_out 0 1)
            [Signal 0 timeout_reading; Readable 1 [example_hello];
             Signal 0 timeout_reading; Writable 0 2; Signal 0 timeout_reading])
    as Hon.
  { repeat constructor; simpl; lia. }
  split; [exact Hon|].
  destruct example_link_piped as (be_a & be_b & Hp).
  exact (one_sided_timeouts_keep_link example_cfg 1024 _ _ _ _ _ _ _ _ _ Hp Hon).
Defined.

Lemma event_before_pairing_faults_witness :
  bevs connecting_link !! 0%nat =
    Some (Some (handed_over [example_hello]
                  (detecting_client example_cfg [example_hello]))) /\
  dispatch example_cfg 1024 (Signal 0 error_reading) connecting_link
    = Fault NullDeref /\
  dispatch example_cfg 1024 (Signal 0 timeout_reading) connecting_link
    = Fault NullDeref.
Proof.
  assert (bevs connecting_link !! 0%nat =
          Some (Some (handed_over [example_hello]
                        (detecting_client example_cfg [example_hello])))) as Hb
    by (vm_compute; reflexivity).
  split; [exact Hb|].
  split; apply (event_before_pairing_faults example_cfg 1024 _ _ _ _ _ Hb).
Defined.

Lemma initial_accept_disturbs_nothing_witness :
  exists w1 w2 w3,
    initial_accept example_cfg 1024 (-1) example_link = Ok tt w1 /\
    bevs w1 = bevs example_link /\
    initial_accept example_cfg 1024 2000 example_link = Ok tt w2 /\
    closed_fds w2 = closed_fds example_link ++ [2000] /\
    initial_accept example_cfg 1024 6 example_link = Ok tt w3 /\
    closed_fds w3 = closed_fds example_link.
Proof.
  destruct (initial_accept_disturbs_nothing example_cfg 1024 example_link (-1))
    as (w1 & H1 & _ & _ & _ & _ & Hneg & _).
  destruct (initial_accept_disturbs_nothing example_cfg 1024 example_link 2000)
    as (w2 & H2 & _ & _ & _ & _ & _ & Hbig & _).
  destruct (initial_accept_disturbs_nothing example_cfg 1024 example_link 6)
    as (w3 & H3 & _ & _ & _ & _ & _ & _ & Hok).
  exists w1, w2, w3.
  split; [exact H1|]. split; [apply Hneg; lia|].
  split; [exact H2|]. split; [apply Hbig; lia|].
  split; [exact H3|]. apply Hok; lia.
Defined.

Lemma accept_read_connect_witness :
  config_ok example_cfg /\ 0 <= 5 <= 1024 /\
  (forall port, 0 <= net_connect (empty_world net_up) port) /\
  knock_in_first_chain example_cfg [example_knock ++ example_hello] /\
  exists b nb w' co cb be_c be_n,
    run example_cfg 1024
      [Incoming 5; Readable b [example_knock ++ example_hello];
       Signal nb BEV_EVENT_CONNECTED] (empty_world net_up) = Ok tt w' /\
    piped w' b nb co cb be_c be_n false false /\
    connects w' = [(nb, loopback (hidden_port example_cfg))] /\
    evbuffer_bytes (bev_output be_n) = example_hello.
Proof.
  split; [exact example_cfg_ok|]. split; [lia|].
  assert (forall port, 0 <= net_connect (empty_world net_up) port) as Hnet
    by (intros port; simpl; unfold net_up; lia).
  split; [exact Hnet|].
  assert (knock_in_first_chain example_cfg [example_knock ++ example_hello])
    as Hk.
  { simpl. split_and!; [reflexivity | vm_compute; discriminate | reflexivity]. }
  split; [exact Hk|].
  destruct (accept_read_connect example_cfg 1024 (empty_world net_up) 5
              [example_knock ++ example_hello] example_cfg_ok
              ltac:(lia) Hnet)
    as (b & nb & port & w' & co & cb & be_c & be_n & _ & _ & _ & Hrun & Hp &
        Hcon & _ & _ & _ & _ & _ & _ & _ & _ & _ & Hkn & _).
  destruct (Hkn Hk) as (-> & Hout).
  exists b, nb, w', co, cb, be_c, be_n.
  split; [exact Hrun|]. split; [exact Hp|]. split; [exact Hcon | exact Hout].
Defined.

Lemma accept_timeout_connect_witness :
  config_ok empty_knock_cfg /\ 0 <= 5 <= 1024 /\
  (forall port, 0 <= net_connect (empty_world net_up) port) /\
  has_flag timeout_reading BEV_EVENT_TIMEOUT = true /\
  exists b nb w' co cb be_c be_n,
    run empty_knock_cfg 1024
      [Incoming 5; Signal b timeout_reading; Signal nb BEV_EVENT_CONNECTED]
      (empty_world net_up) = Ok tt w' /\
    piped w' b nb co cb be_c be_n false false /\
    connects w' = [(nb, loopback 22)] /\
    out_log w' = ["Nothing received, timeout, assuming https"%string].
Proof.
  assert (config_ok empty_knock_cfg) as Hcfg
    by (split; [reflexivity | vm_compute; discriminate]).
  split; [exact Hcfg|]. split; [lia|].
  assert (forall port, 0 <= net_connect (empty_world net_up) port) as Hnet
    by (intros port; simpl; unfold net_up; lia).
  split; [exact Hnet|]. split; [reflexivity|].
  destruct (accept_timeout_connect empty_knock_cfg 1024 (empty_world net_up) 5
              timeout_reading Hcfg ltac:(lia) Hnet eq_refl)
    as (b & nb & w' & co & cb & be_c & be_n & _ & _ & _ & Hrun & Hp & Hcon &
        Hlog & _).
  exists b, nb, w', co, cb, be_c, be_n.
  split; [exact Hrun|]. split; [exact Hp|]. split; [exact Hcon | exact Hlog].
Defined.

Lemma start_serves_witness :
  os_ok os_granted /\
  start example_cfg 1024 os_granted
    (map Deliver [Incoming 5; Readable 0 [example_knock ++ example_hello];
                  Signal 1 BEV_EVENT_CONNECTED])
    (new_process net_up) =
  match run example_cfg 1024
          [Incoming 5; Readable 0 [example_knock ++ example_hello];
           Signal 1 BEV_EVENT_CONNECTED]
          (served_world (proc_world (new_process net_up)) 3) with
  | Ok _ w' => Returns 0 (proc_with_world w' (serving example_cfg (new_process net_up) 3))
  | Fault f => Crashes f
  end.
Proof.
  split; [exact os_granted_ok|].
  exact (start_serves example_cfg 1024 os_granted _ (new_process net_up)
           os_granted_ok).
Defined.

Lemma sigterm_stops_service_witness :
  os_ok os_granted /\
  exists w',
    run example_cfg 1024 [Incoming 5]
      (served_world (proc_world (new_process net_up)) 3) = Ok tt w' /\
    start example_cfg 1024 os_granted
      (map Deliver [Incoming 5] ++ Sigterm :: [Deliver (Incoming 6)])
      (new_process net_up) =
    Exits 0 (proc_with_base Released
               (proc_with_listener_event Released false
                  (proc_with_world w'
                     (serving example_cfg (new_process net_up) 3)))).
Proof.
  split; [exact os_granted_ok|].
  eexists. split; [vm_compute; reflexivity|].
  apply (sigterm_stops_service example_cfg 1024 os_granted [Incoming 5]
           [Deliver (Incoming 6)] (new_process net_up) _ os_granted_ok).
  vm_compute. reflexivity.
Defined.

Lemma start_bind_failure_witness :
  os_event_base_new os_bind_refused = true /\
  os_socket os_bind_refused <> -1 /\
  os_bind os_bind_refused < 0 /\
  exists p',
    start example_cfg 1024 os_bind_refused [Deliver (Incoming 5)]
      (new_process net_up) = Returns 1 p' /\
    g_base p' = Released /\
    closed_fds (proc_world p') = [3] /\
    err_log (proc_world p') = ["bind"%string].
Proof.
  split; [reflexivity|]. split; [simpl; lia|]. split; [simpl; lia|].
  destruct (start_bind_failure example_cfg 1024 os_bind_refused
              [Deliver (Incoming 5)] (new_process net_up)
              eq_refl ltac:(simpl; lia) ltac:(simpl; lia))
    as (p' & Hs & Hb & Hc & He & _).
  exists p'. split; [exact Hs|]. split; [exact Hb|].
  split; [exact Hc | exact He].
Defined.

Lemma start_listen_failure_witness :
  os_event_base_new os_listen_refused = true /\
  os_socket os_listen_refused <> -1 /\
  0 <= os_bind os_listen_refused /\
  os_listen os_listen_refused < 0 /\
  exists p',
    start example_cfg 1024 os_listen_refused [Deliver (Incoming 5)]
      (new_process net_up) = Returns 1 p' /\
    g_base p' = Live tt /\
    closed_fds (proc_world p') = [] /\
    err_log (proc_world p') = ["listen"%string].
Proof.
  split; [reflexivity|]. split; [simpl; lia|]. split; [simpl; lia|].
  split; [simpl; lia|].
  destruct (start_listen_failure example_cfg 1024 os_listen_refused
              [Deliver (Incoming 5)] (new_process net_up)
              eq_refl ltac:(simpl; lia) ltac:(simpl; lia) ltac:(simpl; lia))
    as (p' & Hs & Hb & Hc & He & _).
  exists p'. split; [exact Hs|]. split; [exact Hb|].
  split; [exact Hc | exact He].
Defined.

Lemma sigterm_after_failed_start_witness :
  os_listen os_listen_refused < 0 /\
  g_listener_event (new_process net_up) = Unset /\
  exists p',
    start example_cfg 1024 os_listen_refused [Sigterm] (new_process net_up)
      = Returns 1 p' /\
    raise_sigterm p' = Crashes NullDeref.
Proof.
  split; [simpl; lia|]. split; [reflexivity|].
  destruct (sigterm_after_failed_start example_cfg 1024 os_listen_refused
              [Sigterm] (new_process net_up))
    as (p' & Hs & _ & _ & _ & Hc).
  - right. right. right. simpl. lia.
  - reflexivity.
  - exists p'. split; [exact Hs | exact Hc].
Defined.

Lemma connect_failure_reported_witness :
  (bevs (detecting_world example_cfg net_no_socket [example_hello]) !! 0%nat
     = Some (Some (detecting_client example_cfg [example_hello])) /\
   net_no_socket (22 mod 2 ^ 16) < -1 /\
   exists w',
     create_pipe example_cfg arg_base (Some 0%nat) 22
       (detecting_world example_cfg net_no_socket [example_hello]) = Ok tt w' /\
     bevs w' !! 0%nat = Some None /\ bevs w' !! 1%nat = Some None /\
     connects w' = [(1%nat, loopback 22)] /\
     closed_fds w' = [5]) /\
  (0 <= net_up (22 mod 2 ^ 16) /\
   has_flag error_reading BEV_EVENT_CONNECTED = false /\
   has_flag error_reading BEV_EVENT_ERROR = true /\
   exists w1 w2,
     create_pipe example_cfg arg_base (Some 0%nat) 22
       (detecting_world example_cfg net_up [example_hello]) = Ok tt w1 /\
     dispatch example_cfg 1024 (Signal 1 error_reading) w1 = Ok tt w2 /\
     bevs w2 !! 0%nat = Some None /\ bevs w2 !! 1%nat = Some None /\
     connects w2 = [(1%nat, loopback 22)] /\
     closed_fds w2 = [9; 5]).
Proof.
  split.
  - split; [reflexivity|]. split; [unfold net_no_socket; lia|].
    destruct (connect_failure_reported example_cfg 1024
                (detecting_world example_cfg net_no_socket [example_hello]) 0%nat
                (detecting_client example_cfg [example_hello]) arg_base 22)
      as [Hsync _]; [reflexivity | reflexivity | simpl; lia |].
    destruct Hsync as (w' & Hcp & Hbevs & Hcon & Hcl & _);
      [unfold net_no_socket; simpl; lia|].
    exists w'. split; [exact Hcp|]. rewrite Hbevs.
    split; [reflexivity|]. split; [reflexivity|].
    split; [exact Hcon | exact Hcl].
  - split; [unfold net_up; lia|]. split; [reflexivity|]. split; [reflexivity|].
    destruct (connect_failure_reported example_cfg 1024
                (detecting_world example_cfg net_up [example_hello]) 0%nat
                (detecting_client example_cfg [example_hello]) arg_base 22)
      as [_ Hasync]; [reflexivity | reflexivity | simpl; lia |].
    destruct (Hasync ltac:(unfold net_up; simpl; lia) error_reading)
      as (w1 & be_n & w2 & Hcp & _ & _ & _ & _ & Hd & Hbevs & Hcon & Hcl & _);
      [reflexivity | reflexivity |].
    exists w1, w2. split; [exact Hcp|]. split; [exact Hd|]. rewrite Hbevs.
    split; [reflexivity|]. split; [reflexivity|].
    split; [exact Hcon | exact Hcl].
Defined.
